(** * GhostTrader replay page: a shallow embedding of [src/app/page.tsx]

    The page keeps three pieces of state: the replay engine
    ([engineRef]: two tick buffers, their open candles and the virtual
    clock), the position book ([positions], [accountBalance]) and the
    controls.  Each handler of the page is a function on that state.
    The route [/api/ticks], which the page fetches its ticks from, is
    modelled after the page as a function of the tables it queries.

    Numbers.  A JavaScript [number] is modelled as an exact rational
    ([Q]); a [bigint] and a numeric string holding a timestamp as [Z].
    [NaN] and rounding are outside the model.  Truthiness of a number
    ([!x], [x && ...]) is the test against zero. *)

From Stdlib Require Import ZArith QArith Qround Qminmax Lia List Bool Sorted.
From stdpp Require Import gmap strings sorting.

Local Open Scope Q_scope.

(** ** Numbers *)

Definition truthy (x : Q) : bool := negb (Qeq_bool x 0).

(** [a > b], [a >= b], [a <= b] and [a === b] on numbers. *)
Definition gtb (a b : Q) : bool := negb (Qle_bool a b).
Definition geb (a b : Q) : bool := Qle_bool b a.
Definition leb (a b : Q) : bool := Qle_bool a b.
Definition eqb (a b : Q) : bool := Qeq_bool a b.

(** ** Types *)

Inductive Instrument : Set := es | nq.
Inductive Side : Set := LONG | SHORT.
Inductive ContractType : Set := MINI | MICRO.
Inductive StopKind : Set := SL | TP.

Global Instance Instrument_eq_dec : EqDecision Instrument.
Proof. solve_decision. Defined.

Global Instance Instrument_countable : Countable Instrument.
Proof.
  refine (inj_countable' (fun i => match i with es => false | nq => true end)
                         (fun b => if b then nq else es) _).
  intros []; reflexivity.
Defined.

Global Instance Side_eq_dec : EqDecision Side.
Proof. solve_decision. Defined.

Global Instance StopKind_eq_dec : EqDecision StopKind.
Proof. solve_decision. Defined.

(** [instrument.toUpperCase()]: the key of the instrument in [positions]. *)
Definition toUpperCase (i : Instrument) : string :=
  match i with es => "ES" | nq => "NQ" end.

Record Tick : Type := mkTick {
  ts : Z;
  price : Q;
  volume : Z;
  m : Z
}.

Record Candle : Type := mkCandle {
  time : Z;
  open : Q;
  high : Q;
  low : Q;
  close : Q
}.

Record Position : Type := mkPosition {
  symbol : string;
  side : Side;
  avgPrice : Q;
  size : Q;
  sl : option Q;
  tp : option Q;
  pnl : Q
}.

Record InstrumentConfig : Type := mkInstrumentConfig {
  cfg_symbol : string;
  name : string;
  tickSize : Q;
  multiplierMini : Q;
  multiplierMicro : Q
}.

Definition INSTRUMENTS (i : Instrument) : InstrumentConfig :=
  match i with
  | es => mkInstrumentConfig "ES" "E-Mini S&P 500" (1 # 4) 50 5
  | nq => mkInstrumentConfig "NQ" "E-Mini Nasdaq" (1 # 4) 20 2
  end.

Definition MARKET_OPEN_MIN : Z := 570.
Definition MARKET_CLOSE_MIN : Z := 970.

(** One entry of [engineRef.current]: the stream of an instrument. *)
Record Stream : Type := mkStream {
  buffer : list Tick;
  cursor : Z;
  done : bool;
  lastLoadedIndex : Z;
  currentPrice : Q;
  candle : option Candle
}.

Record Engine : Type := mkEngine {
  eng_es : Stream;
  eng_nq : Stream;
  globalTimeBig : Z;
  lastFrameTime : Q;
  loadingMore : bool;
  startMinute : Z
}.

(** [engineRef.current[key]] and its assignment. *)
Definition stream (e : Engine) (k : Instrument) : Stream :=
  match k with es => eng_es e | nq => eng_nq e end.

Definition set_stream (e : Engine) (k : Instrument) (s : Stream) : Engine :=
  match k with
  | es => mkEngine s (eng_nq e) (globalTimeBig e) (lastFrameTime e)
                   (loadingMore e) (startMinute e)
  | nq => mkEngine (eng_es e) s (globalTimeBig e) (lastFrameTime e)
                   (loadingMore e) (startMinute e)
  end.

(** What the page shows the user through [alert]. *)
Inductive Alert : Type :=
  | NoTradingData
  | InvalidStop (kind : StopKind) (s : Side) (current : Q).

(** A call of [fetchTicks(instrument, day, cursor, startMin)]. *)
Record FetchRequest : Type := mkFetchRequest {
  req_instrument : Instrument;
  req_day : string;
  req_cursor : Z;
  req_startMin : Z
}.

(** What [fetchTicks] resolves to. *)
Record TickPage : Type := mkTickPage {
  ticks : list Tick;
  nextCursor : Z;
  page_done : bool
}.

(** Where the one running [checkAndFetchMore] is suspended: nowhere, at
    the [await] of the ES fetch (remembering [needsNq]), or at the
    [await] of the NQ fetch. *)
Inductive RefillPhase : Type :=
  | Idle
  | AwaitEs (needsNq : bool)
  | AwaitNq.

(** The page: engine, position book, controls, and the outputs the
    claims speak of: the candles handed to each chart
    ([chart.series.update]), the alerts and the fetches issued. A chart
    is [None] until [initChart] has created it. *)
Record App : Type := mkApp {
  engine : Engine;
  positions : gmap Instrument Position;
  accountBalance : Q;
  orderSize : Q;
  contractType : ContractType;
  playbackSpeed : Q;
  isPlaying : bool;
  selectedDay : string;
  editMode : option (Instrument * StopKind);
  chart_es : option (list Candle);
  chart_nq : option (list Candle);
  alerts : list Alert;
  refill : RefillPhase;
  requests : list FetchRequest
}.

Definition chart (a : App) (k : Instrument) : option (list Candle) :=
  match k with es => chart_es a | nq => chart_nq a end.

Definition set_engine (a : App) (e : Engine) : App :=
  mkApp e (positions a) (accountBalance a) (orderSize a) (contractType a)
        (playbackSpeed a) (isPlaying a) (selectedDay a) (editMode a)
        (chart_es a) (chart_nq a) (alerts a) (refill a) (requests a).

Definition set_book (a : App) (ps : gmap Instrument Position) (bal : Q) : App :=
  mkApp (engine a) ps bal (orderSize a) (contractType a) (playbackSpeed a)
        (isPlaying a) (selectedDay a) (editMode a) (chart_es a) (chart_nq a)
        (alerts a) (refill a) (requests a).

Definition set_chart (a : App) (k : Instrument) (c : option (list Candle)) : App :=
  mkApp (engine a) (positions a) (accountBalance a) (orderSize a)
        (contractType a) (playbackSpeed a) (isPlaying a) (selectedDay a)
        (editMode a)
        (match k with es => c | nq => chart_es a end)
        (match k with es => chart_nq a | nq => c end)
        (alerts a) (refill a) (requests a).

Definition set_isPlaying (a : App) (b : bool) : App :=
  mkApp (engine a) (positions a) (accountBalance a) (orderSize a)
        (contractType a) (playbackSpeed a) b (selectedDay a) (editMode a)
        (chart_es a) (chart_nq a) (alerts a) (refill a) (requests a).

Definition set_editMode (a : App) (em : option (Instrument * StopKind)) : App :=
  mkApp (engine a) (positions a) (accountBalance a) (orderSize a)
        (contractType a) (playbackSpeed a) (isPlaying a) (selectedDay a) em
        (chart_es a) (chart_nq a) (alerts a) (refill a) (requests a).

Definition alert (a : App) (al : Alert) : App :=
  mkApp (engine a) (positions a) (accountBalance a) (orderSize a)
        (contractType a) (playbackSpeed a) (isPlaying a) (selectedDay a)
        (editMode a) (chart_es a) (chart_nq a) (alerts a ++ [al]) (refill a)
        (requests a).

Definition set_refill (a : App) (ph : RefillPhase) (rs : list FetchRequest) : App :=
  mkApp (engine a) (positions a) (accountBalance a) (orderSize a)
        (contractType a) (playbackSpeed a) (isPlaying a) (selectedDay a)
        (editMode a) (chart_es a) (chart_nq a) (alerts a) ph rs.

(** ** Position book *)

(** [contractType === "MINI" ? multiplierMini : multiplierMicro] *)
Definition multiplier (ct : ContractType) (i : Instrument) : Q :=
  match ct with
  | MINI => multiplierMini (INSTRUMENTS i)
  | MICRO => multiplierMicro (INSTRUMENTS i)
  end.

(** [side === "LONG" ? price - avg : avg - price] *)
Definition directionalDiff (s : Side) (avg p : Q) : Q :=
  match s with LONG => p - avg | SHORT => avg - p end.

(** [handleOrder(instrument, side)], lines 514-554. *)
Definition handleOrder (instrument : Instrument) (sd : Side) (a : App) : App :=
  let currentPrice := currentPrice (stream (engine a) instrument) in
  if negb (truthy currentPrice) then a
  else
    let prev := positions a in
    match prev !! instrument with
    | None =>
        set_book a
          (<[instrument := mkPosition (toUpperCase instrument) sd currentPrice
                                      (orderSize a) None None 0]> prev)
          (accountBalance a)
    | Some existing =>
        if decide (side existing = sd) then
          let totalCost :=
            avgPrice existing * size existing + currentPrice * orderSize a in
          let totalSize := size existing + orderSize a in
          set_book a
            (<[instrument := mkPosition (symbol existing) (side existing)
                                        (totalCost / totalSize) totalSize
                                        (sl existing) (tp existing)
                                        (pnl existing)]> prev)
            (accountBalance a)
        else if gtb (size existing) (orderSize a) then
          let closedPnL :=
            directionalDiff (side existing) (avgPrice existing) currentPrice
            * orderSize a * multiplier (contractType a) instrument in
          set_book a
            (<[instrument := mkPosition (symbol existing) (side existing)
                                        (avgPrice existing)
                                        (size existing - orderSize a)
                                        (sl existing) (tp existing)
                                        (pnl existing)]> prev)
            (accountBalance a + closedPnL)
        else if eqb (size existing) (orderSize a) then
          let closedPnL :=
            directionalDiff (side existing) (avgPrice existing) currentPrice
            * orderSize a * multiplier (contractType a) instrument in
          set_book a (delete instrument prev) (accountBalance a + closedPnL)
        else
          let closedPnL :=
            directionalDiff (side existing) (avgPrice existing) currentPrice
            * size existing * multiplier (contractType a) instrument in
          set_book a
            (<[instrument := mkPosition (toUpperCase instrument) sd currentPrice
                                        (orderSize a - size existing)
                                        None None 0]> prev)
            (accountBalance a + closedPnL)
    end.

(** The execution check of [updatePnL] (lines 470 and 475): a stop that
    is set and truthy, and the price on its far side. *)
Definition slHit (pos : Position) (currentPrice : Q) : bool :=
  match sl pos with
  | Some s =>
      truthy s &&
      match side pos with
      | LONG => leb currentPrice s
      | SHORT => geb currentPrice s
      end
  | None => false
  end.

Definition tpHit (pos : Position) (currentPrice : Q) : bool :=
  match tp pos with
  | Some t =>
      truthy t &&
      match side pos with
      | LONG => geb currentPrice t
      | SHORT => leb currentPrice t
      end
  | None => false
  end.

Definition set_pnl (pos : Position) (v : Q) : Position :=
  mkPosition (symbol pos) (side pos) (avgPrice pos) (size pos) (sl pos)
             (tp pos) v.

(** The body of the [forEach] of [updatePnL] for one key, lines 460-480.
    [pos.pnl] is assigned on the object shared by [prev] and [next], so
    the new value is in the map whichever of the two is returned. *)
Definition markKey (e : Engine) (ct : ContractType) (key : Instrument)
    (st : gmap Instrument Position * Q) : gmap Instrument Position * Q :=
  let '(next, bal) := st in
  match next !! key with
  | None => st
  | Some pos =>
      let currentPrice := currentPrice (stream e key) in
      if negb (truthy currentPrice) || eqb currentPrice 0 then st
      else
        let multi := multiplier ct key in
        let diff := directionalDiff (side pos) (avgPrice pos) currentPrice in
        let pos' := set_pnl pos (diff * multi * size pos) in
        if slHit pos' currentPrice then (delete key next, bal + pnl pos')
        else if tpHit pos' currentPrice then (delete key next, bal + pnl pos')
        else (<[key := pos']> next, bal)
  end.

(** [updatePnL()], lines 454-484. The keys of [positions] are among
    "ES" and "NQ"; they are visited here in that order. *)
Definition updatePnL (a : App) : App :=
  let '(next, bal) :=
    fold_left (fun st key => markKey (engine a) (contractType a) key st)
              [es; nq] (positions a, accountBalance a) in
  set_book a next bal.

(** ** Stop placement *)

Definition set_stop (pos : Position) (kind : StopKind) (p : Q) : Position :=
  match kind with
  | SL => mkPosition (symbol pos) (side pos) (avgPrice pos) (size pos)
                     (Some p) (tp pos) (pnl pos)
  | TP => mkPosition (symbol pos) (side pos) (avgPrice pos) (size pos)
                     (sl pos) (Some p) (pnl pos)
  end.

(** The validation of lines 236-254: [isValid]. *)
Definition isValidStop (sd : Side) (kind : StopKind) (p currentPrice : Q) : bool :=
  match sd, kind with
  | LONG, SL => negb (geb p currentPrice)
  | LONG, TP => negb (leb p currentPrice)
  | SHORT, SL => negb (leb p currentPrice)
  | SHORT, TP => negb (geb p currentPrice)
  end.

(** [handleChartClick(param, instrument)], lines 220-271. [clicked] is
    the price of the click, [chartObj.series.coordinateToPrice(param.point.y)],
    and [None] when the click has no point or no price. *)
Definition handleChartClick (clicked : option Q) (instrument : Instrument)
    (a : App) : App :=
  match editMode a with
  | None => a
  | Some (sym, kind) =>
      if negb (bool_decide (sym = instrument)) then a
      else
        match chart a instrument, clicked with
        | None, _ => a
        | Some _, None => a
        | Some _, Some p =>
            if negb (truthy p) then a
            else
              let currentPrice := currentPrice (stream (engine a) instrument) in
              let a' :=
                match positions a !! sym with
                | None => a
                | Some pos =>
                    if isValidStop (side pos) kind p currentPrice then
                      set_book a (<[sym := set_stop pos kind p]> (positions a))
                               (accountBalance a)
                    else alert a (InvalidStop kind (side pos) currentPrice)
                end in
              set_editMode a' None
        end
  end.

(** ** Candles *)

(** [Math.floor(Number(tickTs / 1000000000n) / 60) * 60]: the bigint
    division truncates, the floor rounds down. *)
Definition minuteTime (tickTs : Z) : Z :=
  ((Z.quot tickTs 1000000000) / 60 * 60)%Z.

(** Lines 426-434 (and 354-363): the candle after one tick. *)
Definition foldTick (c : option Candle) (tick : Tick) : Candle :=
  let p := price tick in
  let mt := minuteTime (ts tick) in
  match c with
  | None => mkCandle mt p p p p
  | Some c =>
      if negb (Z.eqb (time c) mt) then mkCandle mt p p p p
      else mkCandle (time c) (open c) (Qmax (high c) p) (Qmin (low c) p) p
  end.

(** The [while] loop of [processInstrumentTick], lines 417-438, on the
    ticks from [idx] on: the stream's price, candle and index and the
    candles handed to the chart. *)
Record Fold : Type := mkFold {
  f_price : Q;
  f_candle : option Candle;
  f_idx : Z;
  f_out : list Candle
}.

Fixpoint consume (globalTime : Z) (pending : list Tick) (f : Fold) : Fold :=
  match pending with
  | [] => f
  | tick :: rest =>
      if Z.gtb (ts tick) globalTime then f
      else
        let c := foldTick (f_candle f) tick in
        consume globalTime rest
                (mkFold (price tick) (Some c) (f_idx f + 1) (f_out f ++ [c]))
  end.

(** [processInstrumentTick(key, globalTime)], lines 409-441. *)
Definition processInstrumentTick (key : Instrument) (globalTime : Z)
    (a : App) : App :=
  let state := stream (engine a) key in
  match chart a key with
  | None => a
  | Some series =>
      if Nat.eqb (length (buffer state)) 0 then a
      else
        let idx := (lastLoadedIndex state + 1)%Z in
        let f := consume globalTime (drop (Z.to_nat idx) (buffer state))
                         (mkFold (currentPrice state) (candle state) idx series) in
        set_chart
          (set_engine a
             (set_stream (engine a) key
                (mkStream (buffer state) (cursor state) (done state)
                          (f_idx f - 1) (f_price f) (f_candle f))))
          key (Some (f_out f))
  end.

(** ** Refill *)

Definition THRESHOLD : Z := 10000.

(** [!state.done && (state.buffer.length - state.lastLoadedIndex) < THRESHOLD] *)
Definition needsMore (s : Stream) : bool :=
  negb (done s) &&
  Z.ltb (Z.of_nat (length (buffer s)) - lastLoadedIndex s) THRESHOLD.

Definition set_loadingMore (e : Engine) (b : bool) : Engine :=
  mkEngine (eng_es e) (eng_nq e) (globalTimeBig e) (lastFrameTime e) b
           (startMinute e).

Definition fetchTicks (a : App) (key : Instrument) : FetchRequest :=
  mkFetchRequest key (selectedDay a) (cursor (stream (engine a) key))
                 (startMinute (engine a)).

(** [checkAndFetchMore()], lines 384-407, up to its first [await]. *)
Definition checkAndFetchMore (a : App) : App :=
  let e := engine a in
  if loadingMore e then a
  else
    let needsEs := needsMore (eng_es e) in
    let needsNq := needsMore (eng_nq e) in
    if negb needsEs && negb needsNq then a
    else
      let a' := set_engine a (set_loadingMore e true) in
      if needsEs then
        set_refill a' (AwaitEs needsNq) (requests a ++ [fetchTicks a es])
      else
        set_refill a' AwaitNq (requests a ++ [fetchTicks a nq]).

(** Lines 395-397 and 401-403: the page is appended as it comes. *)
Definition appendPage (s : Stream) (data : TickPage) : Stream :=
  mkStream (buffer s ++ ticks data) (nextCursor data) (page_done data)
           (lastLoadedIndex s) (currentPrice s) (candle s).

Definition finishRefill (a : App) : App :=
  set_refill (set_engine a (set_loadingMore (engine a) false)) Idle (requests a).

(** The awaited fetch resolves with [data]: [checkAndFetchMore] goes on
    to its next [await] or to its [finally]. *)
Definition fetchResolved (data : TickPage) (a : App) : App :=
  match refill a with
  | Idle => a
  | AwaitEs needsNq =>
      let a' :=
        set_engine a
          (set_stream (engine a) es (appendPage (eng_es (engine a)) data)) in
      if needsNq then set_refill a' AwaitNq (requests a' ++ [fetchTicks a' nq])
      else finishRefill a'
  | AwaitNq =>
      finishRefill
        (set_engine a
           (set_stream (engine a) nq (appendPage (eng_nq (engine a)) data)))
  end.

(** The awaited fetch throws: [catch], then [finally]. *)
Definition fetchRejected (a : App) : App :=
  match refill a with
  | Idle => a
  | _ => finishRefill a
  end.

(** ** The frame *)

(** [loop(timestamp)], lines 486-502. *)
Definition loop (timestamp : Q) (a : App) : App :=
  if negb (isPlaying a) then a
  else
    let e := engine a in
    let last :=
      if negb (truthy (lastFrameTime e)) then timestamp else lastFrameTime e in
    let deltaMs := timestamp - last in
    let advanceNs := Qfloor (deltaMs * 1000000 * playbackSpeed a) in
    let currentGlobal := (globalTimeBig e + advanceNs)%Z in
    let a1 :=
      set_engine a (mkEngine (eng_es e) (eng_nq e) currentGlobal timestamp
                             (loadingMore e) (startMinute e)) in
    checkAndFetchMore
      (updatePnL
         (processInstrumentTick nq currentGlobal
            (processInstrumentTick es currentGlobal a1))).

(** ** Loading a day and seeking *)

Record Sync : Type := mkSync {
  s_price : Q;
  s_candle : option Candle;
  s_idx : Z;
  s_out : option (list Candle);
  s_clock : Z;
  s_caughtUp : bool
}.

(** [chart?.series.update(c)] *)
Definition update (series : option (list Candle)) (c : Candle)
    : option (list Candle) :=
  (fun l => l ++ [c]) <$> series.

(** The [while] loop of [processSync], lines 341-365. *)
Fixpoint syncLoop (targetMin : Z) (pending : list Tick) (s : Sync) : Sync :=
  match pending with
  | [] => s
  | tick :: rest =>
      if Z.geb (m tick) targetMin then
        if s_caughtUp s then s
        else mkSync (s_price s) (s_candle s) (s_idx s) (s_out s) (ts tick) true
      else
        let out :=
          match s_candle s with
          | Some old =>
              if negb (Z.eqb (time old) (minuteTime (ts tick)))
              then update (s_out s) old else s_out s
          | None => s_out s
          end in
        syncLoop targetMin rest
                 (mkSync (price tick) (Some (foldTick (s_candle s) tick))
                         (s_idx s + 1) out (s_clock s) (s_caughtUp s))
  end.

Definition set_clock (e : Engine) (t : Z) : Engine :=
  mkEngine (eng_es e) (eng_nq e) t (lastFrameTime e) (loadingMore e)
           (startMinute e).

(** [processSync(key)], lines 335-367; [caughtUp] is the variable the two
    calls share. *)
Definition processSync (targetMin : Z) (key : Instrument)
    (st : App * bool) : App * bool :=
  let '(a, caughtUp) := st in
  let state := stream (engine a) key in
  if Nat.eqb (length (buffer state)) 0 then st
  else
    let idx := (lastLoadedIndex state + 1)%Z in
    let s := syncLoop targetMin (drop (Z.to_nat idx) (buffer state))
                      (mkSync (currentPrice state) (candle state) idx
                              (chart a key) (globalTimeBig (engine a)) caughtUp) in
    (set_chart
       (set_engine a
          (set_stream (set_clock (engine a) (s_clock s)) key
             (mkStream (buffer state) (cursor state) (done state)
                       (s_idx s - 1) (s_price s) (s_candle s))))
       key (s_out s),
     s_caughtUp s).

(** Lines 298-299: the stream of a fresh session keeps its price. *)
Definition resetStream (s : Stream) : Stream :=
  mkStream [] 0 false (-1) (currentPrice s) None.

Definition loadPage (s : Stream) (data : TickPage) : Stream :=
  mkStream (ticks data) (nextCursor data) (page_done data)
           (lastLoadedIndex s) (currentPrice s) (candle s).

(** [data.ticks[0]?.ts ? BigInt(data.ticks[0].ts) : null] *)
Definition firstTs (data : TickPage) : option Z := ts <$> head (ticks data).

(** Truthiness of [bigint | null]. *)
Definition truthyTs (t : option Z) : bool :=
  match t with Some z => negb (Z.eqb z 0) | None => false end.

(** Lines 321-324. *)
Definition startOf (t1 t2 : option Z) : Z :=
  if truthyTs t1 && truthyTs t2 then
    if Z.ltb (default 0%Z t1) (default 0%Z t2)
    then default 0%Z t1 else default 0%Z t2
  else if truthyTs t1 then default 0%Z t1
  else if truthyTs t2 then default 0%Z t2
  else 0%Z.

(** Lines 370-371. *)
Definition showCandle (key : Instrument) (a : App) : App :=
  match candle (stream (engine a) key) with
  | Some c => set_chart a key (update (chart a key) c)
  | None => a
  end.

(** [loadData(dayToLoad, targetMin)], lines 290-377. [fetched] is what
    the two first-page fetches resolve to, [None] when one of them
    throws. *)
Definition loadData (dayToLoad : string) (targetMin : Z)
    (fetched : option (TickPage * TickPage)) (a : App) : App :=
  if bool_decide (dayToLoad = "") then a
  else
    let e := engine a in
    let a0 :=
      mkApp (mkEngine (resetStream (eng_es e)) (resetStream (eng_nq e)) 0
                      (lastFrameTime e) (loadingMore e) MARKET_OPEN_MIN)
            ∅ (accountBalance a) (orderSize a) (contractType a)
            (playbackSpeed a) false (selectedDay a) (editMode a)
            ((fun _ => []) <$> chart_es a) ((fun _ => []) <$> chart_nq a)
            (alerts a) (refill a) (requests a) in
    match fetched with
    | None => a0
    | Some (esData, nqData) =>
        let e0 := engine a0 in
        let e1 :=
          mkEngine (loadPage (eng_es e0) esData) (loadPage (eng_nq e0) nqData)
                   (globalTimeBig e0) (lastFrameTime e0) (loadingMore e0)
                   (startMinute e0) in
        let startNs := startOf (firstTs esData) (firstTs nqData) in
        if Z.eqb startNs 0 then alert (set_engine a0 e1) NoTradingData
        else
          let a2 := set_engine a0 (set_clock e1 startNs) in
          let a3 :=
            if Z.gtb targetMin MARKET_OPEN_MIN then
              showCandle nq
                (showCandle es
                   (fst (processSync targetMin nq
                           (processSync targetMin es (a2, false)))))
            else a2 in
          set_isPlaying a3 true
    end.

(** * Notions used in the statements *)

(** A stream with nothing loaded and the current price [cp]. *)
Definition emptyStream (cp : Q) : Stream := mkStream [] 0 false (-1) cp None.

(** A session for the examples: both charts created, nothing loaded,
    MINI contracts, a balance of 100000. *)
Definition sampleApp (esPrice nqPrice : Q) (ps : gmap Instrument Position)
    (osize : Q) : App :=
  mkApp (mkEngine (emptyStream esPrice) (emptyStream nqPrice) 0 0 false
                  MARKET_OPEN_MIN)
        ps 100000 osize MINI 1 true "2024-01-02" None (Some []) (Some [])
        [] Idle [].

(** The stop conditions in the words of the specification: a LONG
    position closes when p <= sl or p >= tp, a SHORT one when p >= sl or
    p <= tp. *)
Definition triggers (pos : Position) (p : Q) : Prop :=
  match side pos with
  | LONG => (exists s, sl pos = Some s /\ p <= s)
            \/ (exists t, tp pos = Some t /\ t <= p)
  | SHORT => (exists s, sl pos = Some s /\ s <= p)
             \/ (exists t, tp pos = Some t /\ p <= t)
  end.

(** Stops as [handleChartClick] places them: never 0. *)
Definition stopsSet (pos : Position) : Prop :=
  (forall s, sl pos = Some s -> ~ s == 0)
  /\ (forall t, tp pos = Some t -> ~ t == 0).

(** Every position of the book has its stops nonzero. *)
Definition bookStopsSet (ps : gmap Instrument Position) : Prop :=
  forall k pos, ps !! k = Some pos -> stopsSet pos.

(** A tick at price [p] has been folded for [key] (line 425). *)
Definition setPrice (a : App) (key : Instrument) (p : Q) : App :=
  let s := stream (engine a) key in
  set_engine a
    (set_stream (engine a) key
       (mkStream (buffer s) (cursor s) (done s) (lastLoadedIndex s) p
                 (candle s))).

(** The mark of a frame: the price moves to [p], then [updatePnL] runs. *)
Definition mark (key : Instrument) (p : Q) (a : App) : App :=
  updatePnL (setPrice a key p).

(** No position on the other instrument. *)
Definition flatElsewhere (ps : gmap Instrument Position) (key : Instrument) : Prop :=
  forall other, other <> key -> ps !! other = None.

(** low <= min(open, close) and high >= max(open, close). *)
Definition wfCandle (c : Candle) : Prop :=
  low c <= Qmin (open c) (close c) /\ Qmax (open c) (close c) <= high c.

(** The ticks a call of [consume] folds: the pending ticks up to the
    first one later than the clock. *)
Fixpoint taken (globalTime : Z) (pending : list Tick) : list Tick :=
  match pending with
  | [] => []
  | tick :: rest =>
      if Z.gtb (ts tick) globalTime then []
      else tick :: taken globalTime rest
  end.

(** The candle after each tick of a run of ticks. *)
Fixpoint trace (c : option Candle) (l : list Tick) : list Candle :=
  match l with
  | [] => []
  | tick :: rest => foldTick c tick :: trace (Some (foldTick c tick)) rest
  end.

(** Ticks ordered by timestamp, ties allowed. *)
Definition tsOrdered (l : list Tick) : Prop :=
  Sorted (fun x y => (ts x <= ts y)%Z) l.


(** The stream a suspended [checkAndFetchMore] is waiting for. *)
Definition awaited (ph : RefillPhase) : option Instrument :=
  match ph with
  | Idle => None
  | AwaitEs _ => Some es
  | AwaitNq => Some nq
  end.

(** The ticks [processSync] folds: those before the first tick at or
    after the target minute. *)
Fixpoint syncTaken (targetMin : Z) (pending : list Tick) : list Tick :=
  match pending with
  | [] => []
  | tick :: rest =>
      if Z.geb (m tick) targetMin then []
      else tick :: syncTaken targetMin rest
  end.

(** The first tick at or after the target minute. *)
Fixpoint firstAt (targetMin : Z) (pending : list Tick) : option Tick :=
  match pending with
  | [] => None
  | tick :: rest =>
      if Z.geb (m tick) targetMin then Some tick else firstAt targetMin rest
  end.

(** Ticks ordered by minute of day. *)
Definition mOrdered (l : list Tick) : Prop :=
  Sorted (fun x y => (m x <= m y)%Z) l.

(** The seeks in which the first tick found is the earliest one: ES has
    a tick at or after the target and NQ has none or a later one, or only
    NQ has one. *)
Definition esNotLater (targetMin : Z) (esTicks nqTicks : list Tick) : Prop :=
  match firstAt targetMin esTicks, firstAt targetMin nqTicks with
  | Some t, Some t' => (ts t <= ts t')%Z
  | Some _, None => True
  | None, Some _ => True
  | None, None => False
  end.

(** The part of the page a frame of the replay reads and writes: the
    clock, the time of the last frame, and each stream with its chart. *)
Record Replay : Type := mkReplay {
  r_clock : Z;
  r_last : Q;
  r_es : Stream * option (list Candle);
  r_nq : Stream * option (list Candle)
}.

(** The replay state of the page. *)
Definition replay (a : App) : Replay :=
  mkReplay (globalTimeBig (engine a)) (lastFrameTime (engine a))
           (eng_es (engine a), chart_es a) (eng_nq (engine a), chart_nq a).

(** [processInstrumentTick] seen from one stream and its chart. *)
Definition processed (globalTime : Z) (sc : Stream * option (list Candle))
    : Stream * option (list Candle) :=
  match snd sc with
  | None => sc
  | Some series =>
      let state := fst sc in
      if Nat.eqb (length (buffer state)) 0 then sc
      else
        let idx := (lastLoadedIndex state + 1)%Z in
        let f := consume globalTime (drop (Z.to_nat idx) (buffer state))
                         (mkFold (currentPrice state) (candle state) idx series) in
        (mkStream (buffer state) (cursor state) (done state) (f_idx f - 1)
                  (f_price f) (f_candle f),
         Some (f_out f))
  end.

(** A frame, on the replay state. *)
Definition frame (speed timestamp : Q) (r : Replay) : Replay :=
  let last := if negb (truthy (r_last r)) then timestamp else r_last r in
  let advanceNs := Qfloor ((timestamp - last) * 1000000 * speed) in
  let currentGlobal := (r_clock r + advanceNs)%Z in
  mkReplay currentGlobal timestamp (processed currentGlobal (r_es r))
           (processed currentGlobal (r_nq r)).

(** The nanoseconds a run of frames at the timestamps [stamps] adds to
    the clock, after a frame at [t0]. *)
Fixpoint advanced (speed t0 : Q) (stamps : list Q) : Z :=
  match stamps with
  | [] => 0%Z
  | t :: rest =>
      (Qfloor ((t - t0) * 1000000 * speed) + advanced speed t rest)%Z
  end.

(** Timestamps that do not go back. *)
Fixpoint ascending (t0 : Q) (stamps : list Q) : Prop :=
  match stamps with
  | [] => True
  | t :: rest => t0 <= t /\ ascending t rest
  end.

(** A whole number of nanoseconds. *)
Definition isWhole (x : Q) : Prop := inject_Z (Qfloor x) == x.

(** Every frame advances the clock by a whole number of nanoseconds
    before the floor is taken. *)
Fixpoint wholeFrames (speed t0 : Q) (stamps : list Q) : Prop :=
  match stamps with
  | [] => True
  | t :: rest =>
      isWhole ((t - t0) * 1000000 * speed) /\ wholeFrames speed t rest
  end.

(** A playing session at speed 5 whose last frame was at 1000 ms, with
    three ES ticks due 50 ms, 120 ms and 900 ms after the clock. *)
Definition splitSample : App :=
  mkApp (mkEngine (mkStream [mkTick 1700000000050000000 (4500 # 1) 3 570;
                             mkTick 1700000000120000000 (4502 # 1) 1 570;
                             mkTick 1700000000900000000 (4499 # 1) 2 570]
                            0 true (-1) 0 None)
                  (emptyStream 0) 1700000000000000000 1000 false
                  MARKET_OPEN_MIN)
        ∅ 100000 1 MINI 5 true "2024-01-02" None (Some []) (Some [])
        [] Idle [].

(** * Notions used in the further properties *)

(** The other side. *)
Definition opposite (sd : Side) : Side :=
  match sd with LONG => SHORT | SHORT => LONG end.




(** Every position of the book has a positive size. *)
Definition bookSizesPositive (ps : gmap Instrument Position) : Prop :=
  forall k pos, ps !! k = Some pos -> 0 < size pos.



(** Two positions that differ in their pnl at most. *)
Definition samePosition (pos pos' : Position) : Prop :=
  symbol pos' = symbol pos /\ side pos' = side pos
  /\ avgPrice pos' = avgPrice pos /\ size pos' = size pos
  /\ sl pos' = sl pos /\ tp pos' = tp pos.

(** A position a mark would leave as it is: its instrument has no price,
    or no stop is hit and its pnl is the one the mark computes. *)
Definition settledAt (e : Engine) (ct : ContractType) (key : Instrument)
    (o : option Position) : Prop :=
  match o with
  | None => True
  | Some pos =>
      let cp := currentPrice (stream e key) in
      let v := directionalDiff (side pos) (avgPrice pos) cp
               * multiplier ct key * size pos in
      negb (truthy cp) || eqb cp 0 = true
      \/ (slHit pos cp = false /\ tpHit pos cp = false /\ pnl pos = v)
  end.

(** Two positions that differ in their stops at most. *)
Definition sameButStops (pos pos' : Position) : Prop :=
  symbol pos' = symbol pos /\ side pos' = side pos
  /\ avgPrice pos' = avgPrice pos /\ size pos' = size pos
  /\ pnl pos' = pnl pos.

(** ** Play, pause and speed *)

Definition set_lastFrameTime (e : Engine) (t : Q) : Engine :=
  mkEngine (eng_es e) (eng_nq e) (globalTimeBig e) t (loadingMore e)
           (startMinute e).

Definition set_playbackSpeed (a : App) (s : Q) : App :=
  mkApp (engine a) (positions a) (accountBalance a) (orderSize a)
        (contractType a) s (isPlaying a) (selectedDay a) (editMode a)
        (chart_es a) (chart_nq a) (alerts a) (refill a) (requests a).

(** The effect of lines 504-512, which runs when [isPlaying] or
    [playbackSpeed] has changed: when playing, the time of the last frame
    is forgotten before the next frame is asked for. *)
Definition playingEffect (a : App) : App :=
  if isPlaying a then set_engine a (set_lastFrameTime (engine a) 0) else a.

(** [setIsPlaying(!isPlaying)] (the play button, the space bar) with the
    effect it triggers. *)
Definition togglePlaying (a : App) : App :=
  playingEffect (set_isPlaying a (negb (isPlaying a))).

(** [setPlaybackSpeed(s)] with the effect it triggers; a speed equal to
    the present one is no change of state. *)
Definition setPlaybackSpeed (s : Q) (a : App) : App :=
  if eqb s (playbackSpeed a) then a
  else playingEffect (set_playbackSpeed a s).

(** The stream and the chart of [key] replaced. *)
Definition put (key : Instrument) (sc : Stream * option (list Candle))
    (a : App) : App :=
  set_chart (set_engine a (set_stream (engine a) key (fst sc))) key (snd sc).

(** The price orders fill at is the close of the open candle. *)
Definition priceIsClose (s : Stream) : Prop :=
  forall c, candle s = Some c -> close c = currentPrice s.

(** The flag [loadingMore] is set exactly while a [checkAndFetchMore] is
    suspended. *)
Definition flagMatches (a : App) : Prop :=
  loadingMore (engine a)
  = match refill a with Idle => false | _ => true end.

(** The page of [key] in the answer to the two first-page fetches. *)
Definition pageOf (key : Instrument) (esData nqData : TickPage) : TickPage :=
  match key with es => esData | nq => nqData end.

(** The ticks a load folds for a stream: those before the target minute
    when the load succeeds and seeks, none otherwise. *)
Definition foldedByLoad (targetMin : Z) (esData nqData : TickPage)
    (key : Instrument) : list Tick :=
  if Z.eqb (startOf (firstTs esData) (firstTs nqData)) 0 then []
  else if Z.gtb targetMin MARKET_OPEN_MIN
       then syncTaken targetMin (ticks (pageOf key esData nqData))
       else [].

(** The stream a successful load leaves for [key]: the page, its cursor
    and flag, the index after the ticks folded, the price of the last of
    them (or the price before the load) and the candle they build. *)
Definition loadedStream (targetMin : Z) (esData nqData : TickPage)
    (key : Instrument) (before : Q) : Stream :=
  let data := pageOf key esData nqData in
  let folded := foldedByLoad targetMin esData nqData key in
  mkStream (ticks data) (nextCursor data) (page_done data)
           (Z.of_nat (length folded) - 1)
           (List.last (map price folded) before)
           (List.last (map Some (trace None folded)) None).

(** The clock a successful load leaves. *)
Definition loadedClock (targetMin : Z) (esData nqData : TickPage) : Z :=
  let startNs := startOf (firstTs esData) (firstTs nqData) in
  if Z.gtb targetMin MARKET_OPEN_MIN then
    match firstAt targetMin (ticks esData) with
    | Some tick => ts tick
    | None =>
        match firstAt targetMin (ticks nqData) with
        | Some tick => ts tick
        | None => startNs
        end
    end
  else startNs.

(** ** Keys *)

(** The page's state besides the session: the minute of the last load
    ([currentMinute], line 114, set at line 294 and nowhere else). *)
Record Screen : Type := mkScreen {
  session : App;
  currentMinute : Z
}.

(** [e.code] of a key press, as far as the handler tells codes apart. *)
Inductive KeyCode : Type :=
  KeySpace | KeyArrowUp | KeyArrowDown | KeyArrowRight | KeyArrowLeft | KeyOther.

(** [loadData] as the page runs it: line 294 records the target, and the
    change of [isPlaying] at line 374 runs the effect of lines 504-512. *)
Definition load (dayToLoad : string) (targetMin : Z)
    (fetched : option (TickPage * TickPage)) (s : Screen) : Screen :=
  if bool_decide (dayToLoad = "") then s
  else mkScreen (playingEffect (loadData dayToLoad targetMin fetched (session s)))
                targetMin.

(** [handleKeyDown(e)], lines 153-182. [onInput] is
    [e.target instanceof HTMLInputElement]; [fetched] is what the fetches
    of a load started by the key resolve to. *)
Definition handleKeyDown (onInput : bool) (code : KeyCode)
    (fetched : option (TickPage * TickPage)) (s : Screen) : Screen :=
  if onInput then s
  else
    let a := session s in
    match code with
    | KeySpace => mkScreen (togglePlaying a) (currentMinute s)
    | KeyArrowUp =>
        mkScreen (setPlaybackSpeed (Qmin (playbackSpeed a + 5) 500) a)
                 (currentMinute s)
    | KeyArrowDown =>
        mkScreen (setPlaybackSpeed (Qmax (playbackSpeed a - 5) 1) a)
                 (currentMinute s)
    | KeyArrowRight =>
        if bool_decide (selectedDay a = "") then s
        else
          let nextMin := Z.min MARKET_CLOSE_MIN (currentMinute s + 10) in
          load (selectedDay a) nextMin fetched s
    | KeyArrowLeft =>
        if bool_decide (selectedDay a = "") then s
        else
          let prevMin := Z.max MARKET_OPEN_MIN (currentMinute s - 10) in
          load (selectedDay a) prevMin fetched s
    | KeyOther => s
    end.

(** The speed within the slider's range and the minute of the last load
    within the session's hours. *)
Definition inRange (s : Screen) : Prop :=
  (1 <= playbackSpeed (session s) /\ playbackSpeed (session s) <= 500)
  /\ (MARKET_OPEN_MIN <= currentMinute s <= MARKET_CLOSE_MIN)%Z.

(** The key is one of the two that seek. *)
Definition seeks (code : KeyCode) : bool :=
  match code with KeyArrowRight | KeyArrowLeft => true | _ => false end.

(** * The route [/api/ticks]

    The client's [fetchTicks] asks this route for a page of ticks. *)

(** A row of the tables [es] and [nq], with the columns the route reads. *)
Record TickRow : Type := mkTickRow {
  row_symbol : string;
  ny_trading_day : string;
  ny_minute_of_day : Z;
  ts_event_ns : Z;
  row_close : Q;
  row_volume : Z
}.

(** The search parameters of a request, all present, as [fetchTicks]
    sends them; the instrument is one of the two the client knows. *)
Record TicksQuery : Type := mkTicksQuery {
  q_instrument : Instrument;
  q_day : string;
  q_startMinute : Z;
  q_endMinute : Z;
  q_cursor : Z;
  q_limit : Z
}.

(** What the route sees of the database: the rows of the table of each
    instrument; the answer of the query that detects the symbol of a day,
    [None] when it fails or finds no row (which of several symbols it
    picks is the database's choice); whether the query for the ticks
    fails. *)
Record Database : Type := mkDatabase {
  table : Instrument -> list TickRow;
  detected : Instrument -> string -> option string;
  failing : bool
}.

(** The answers of the route: status 400, status 500, or the page with
    the symbol. *)
Inductive Response : Type :=
| BadRequest
| DatabaseError
| Json (page : TickPage) (symbol : option string).

(** The WHERE clause of the tick query. *)
Definition selects (symbol : string) (q : TicksQuery) (r : TickRow) : Prop :=
  row_symbol r = symbol
  /\ ny_trading_day r = q_day q
  /\ (q_startMinute q <= ny_minute_of_day r)%Z
  /\ (ny_minute_of_day r <= q_endMinute q)%Z
  /\ (q_cursor q < ts_event_ns r)%Z.

Global Instance selects_dec (symbol : string) (q : TicksQuery) (r : TickRow) :
  Decision (selects symbol q r).
Proof. unfold selects. apply _. Defined.

(** ORDER BY ts_event_ns ASC. *)
Definition byTime (r1 r2 : TickRow) : Prop := (ts_event_ns r1 <= ts_event_ns r2)%Z.

Global Instance byTime_dec (r1 r2 : TickRow) : Decision (byTime r1 r2).
Proof. unfold byTime. apply _. Defined.

Global Instance byTime_total : Total byTime.
Proof. intros r1 r2. unfold byTime. lia. Qed.

Global Instance byTime_trans : Transitive byTime.
Proof. intros r1 r2 r3. unfold byTime. lia. Qed.

(** The rows of the tick query before its LIMIT.  Rows of the same
    timestamp come in the order a merge sort leaves them in; the
    database may give them in any order. *)
Definition selected (rows : list TickRow) (symbol : string) (q : TicksQuery)
    : list TickRow :=
  merge_sort byTime (base.filter (selects symbol q) rows).

(** The SELECT list, and the mapping of the rows to ticks. *)
Definition toTick (r : TickRow) : Tick :=
  mkTick (ts_event_ns r) (row_close r) (row_volume r) (ny_minute_of_day r).

(** The answer without a symbol. *)
Definition noSymbol (q : TicksQuery) : Response :=
  Json (mkTickPage [] (q_cursor q) true) None.

(** [GET(req)].  A negative LIMIT is an error of the database. *)
Definition GET (db : Database) (q : TicksQuery) : Response :=
  let limit := Z.min (q_limit q) 100000 in
  if bool_decide (q_day q = "") then BadRequest
  else
    match detected db (q_instrument q) (q_day q) with
    | None => noSymbol q
    | Some symbol =>
        if bool_decide (symbol = "") then noSymbol q
        else if failing db || Z.ltb limit 0 then DatabaseError
        else
          let rows :=
            take (Z.to_nat limit)
                 (selected (table db (q_instrument q)) symbol q) in
          let nextCursor :=
            match last rows with
            | Some r => ts_event_ns r
            | None => q_cursor q
            end in
          Json (mkTickPage (map toTick rows) nextCursor
                           (Z.ltb (Z.of_nat (length rows)) limit))
               (Some symbol)
    end.

(** The request [fetchTicks] sends for [r], page.tsx lines 70-77. *)
Definition queryOf (r : FetchRequest) : TicksQuery :=
  mkTicksQuery (req_instrument r) (req_day r) (req_startMin r)
               MARKET_CLOSE_MIN (req_cursor r) 50000.

(** The same query from another cursor. *)
Definition from (q : TicksQuery) (c : Z) : TicksQuery :=
  mkTicksQuery (q_instrument q) (q_day q) (q_startMinute q) (q_endMinute q)
               c (q_limit q).


(** A table for the examples: five rows of one symbol and day, one of
    them before the open, and a row of another symbol. *)
Definition sampleRows : list TickRow :=
  [ mkTickRow "ESH4" "2024-01-02" 571 3000 (4502 # 1) 1;
    mkTickRow "ESH4" "2024-01-02" 570 1000 (4500 # 1) 2;
    mkTickRow "ESM4" "2024-01-02" 570 1500 (4550 # 1) 1;
    mkTickRow "ESH4" "2024-01-02" 569 500 (4499 # 1) 1;
    mkTickRow "ESH4" "2024-01-02" 570 2000 (4501 # 1) 3;
    mkTickRow "ESH4" "2024-01-02" 572 4000 (4503 # 1) 1 ].

Definition sampleDb : Database :=
  mkDatabase (fun _ => sampleRows) (fun _ _ => Some "ESH4") false.

Definition sampleQuery (c limit : Z) : TicksQuery :=
  mkTicksQuery es "2024-01-02" 570 970 c limit.


(** The two first pages of a day, page.tsx lines 303-306: [None] when
    one of the two fetches throws. *)
Definition firstPages (db : Database) (day : string)
    : option (TickPage * TickPage) :=
  match GET db (queryOf (mkFetchRequest es day 0 MARKET_OPEN_MIN)),
        GET db (queryOf (mkFetchRequest nq day 0 MARKET_OPEN_MIN)) with
  | Json esData _, Json nqData _ => Some (esData, nqData)
  | _, _ => None
  end.

(** * Properties *)

(** ** Comparisons *)

Lemma truthy_true (x : Q) : ~ x == 0 -> truthy x = true.
Proof.
  intros H. unfold truthy. destruct (Qeq_bool x 0) eqn:E; [|reflexivity].
  apply Qeq_bool_iff in E. contradiction.
Qed.

Lemma truthy_false (x : Q) : x == 0 -> truthy x = false.
Proof.
  intros H. unfold truthy. apply Qeq_bool_iff in H. rewrite H. reflexivity.
Qed.

Lemma gtb_true (x y : Q) : y < x -> gtb x y = true.
Proof.
  intros H. unfold gtb. destruct (Qle_bool x y) eqn:E; [|reflexivity].
  apply Qle_bool_iff in E. exfalso. exact (Qlt_not_le _ _ H E).
Qed.

Lemma gtb_false (x y : Q) : x <= y -> gtb x y = false.
Proof.
  intros H. unfold gtb. apply Qle_bool_iff in H. rewrite H. reflexivity.
Qed.

Lemma leb_true (x y : Q) : x <= y -> leb x y = true.
Proof. intros H. unfold leb. apply Qle_bool_iff. exact H. Qed.

Lemma leb_false (x y : Q) : y < x -> leb x y = false.
Proof.
  intros H. unfold leb. destruct (Qle_bool x y) eqn:E; [|reflexivity].
  apply Qle_bool_iff in E. exfalso. exact (Qlt_not_le _ _ H E).
Qed.

Lemma eqb_true (x y : Q) : x == y -> eqb x y = true.
Proof. intros H. unfold eqb. apply Qeq_bool_iff. exact H. Qed.

Lemma eqb_false (x y : Q) : ~ x == y -> eqb x y = false.
Proof.
  intros H. unfold eqb. destruct (Qeq_bool x y) eqn:E; [|reflexivity].
  apply Qeq_bool_iff in E. contradiction.
Qed.

(** ** Order fills *)

Section Fill.

Variables (instrument : Instrument) (sd : Side) (a : App).

Let p := currentPrice (stream (engine a) instrument).
Let fill := orderSize a.
Let mult := multiplier (contractType a) instrument.
Let a' := handleOrder instrument sd a.

Hypothesis priced : ~ p == 0.

Lemma fill_open :
  positions a !! instrument = None ->
  positions a' !! instrument
    = Some (mkPosition (toUpperCase instrument) sd p fill None None 0)
  /\ accountBalance a' = accountBalance a.
Proof.
  intros Hn. pose proof priced as Hp. unfold a', p, fill, mult in *. unfold handleOrder.
  rewrite (truthy_true _ Hp). cbn [negb]. rewrite Hn.
  cbn. split; [apply lookup_insert_eq | reflexivity].
Qed.

Lemma fill_add (existing : Position) :
  positions a !! instrument = Some existing ->
  side existing = sd ->
  exists pos,
    positions a' !! instrument = Some pos
    /\ side pos = sd
    /\ avgPrice pos
       = (avgPrice existing * size existing + p * fill)
         / (size existing + fill)
    /\ size pos = size existing + fill
    /\ accountBalance a' = accountBalance a.
Proof.
  intros He Hs. pose proof priced as Hp. unfold a', p, fill, mult in *. unfold handleOrder.
  rewrite (truthy_true _ Hp). cbn [negb]. rewrite He.
  rewrite decide_True by exact Hs. cbn.
  eexists. split; [apply lookup_insert_eq |]. cbn. auto.
Qed.

Lemma fill_reduce (existing : Position) :
  positions a !! instrument = Some existing ->
  side existing <> sd ->
  fill < size existing ->
  exists pos,
    positions a' !! instrument = Some pos
    /\ side pos = side existing
    /\ avgPrice pos = avgPrice existing
    /\ size pos = size existing - fill
    /\ accountBalance a'
       = accountBalance a
         + directionalDiff (side existing) (avgPrice existing) p
           * fill * mult.
Proof.
  intros He Hs Hlt. pose proof priced as Hp. unfold a', p, fill, mult in *. unfold handleOrder.
  rewrite (truthy_true _ Hp). cbn [negb]. rewrite He.
  rewrite decide_False by exact Hs.
  rewrite (gtb_true _ _ Hlt). cbn.
  eexists. split; [apply lookup_insert_eq |]. cbn. auto.
Qed.

Lemma fill_close (existing : Position) :
  positions a !! instrument = Some existing ->
  side existing <> sd ->
  fill == size existing ->
  positions a' !! instrument = None
  /\ accountBalance a'
     == accountBalance a
        + directionalDiff (side existing) (avgPrice existing) p
          * size existing * mult.
Proof.
  intros He Hs Heq. pose proof priced as Hp. unfold a', p, fill, mult in *. unfold handleOrder.
  rewrite (truthy_true _ Hp). cbn [negb]. rewrite He.
  rewrite decide_False by exact Hs.
  rewrite gtb_false by (rewrite Heq; apply Qle_refl).
  rewrite eqb_true by (symmetry; exact Heq). cbn.
  split; [apply lookup_delete_eq |].
  rewrite Heq. reflexivity.
Qed.

Lemma fill_flip (existing : Position) :
  positions a !! instrument = Some existing ->
  side existing <> sd ->
  size existing < fill ->
  positions a' !! instrument
    = Some (mkPosition (toUpperCase instrument) sd p (fill - size existing)
                       None None 0)
  /\ accountBalance a'
     = accountBalance a
       + directionalDiff (side existing) (avgPrice existing) p
         * size existing * mult.
Proof.
  intros He Hs Hlt. pose proof priced as Hp. unfold a', p, fill, mult in *. unfold handleOrder.
  rewrite (truthy_true _ Hp). cbn [negb]. rewrite He.
  rewrite decide_False by exact Hs.
  rewrite gtb_false by (apply Qlt_le_weak; exact Hlt).
  rewrite eqb_false by (intros E; rewrite E in Hlt; exact (Qlt_irrefl _ Hlt)).
  cbn. split; [apply lookup_insert_eq | reflexivity].
Qed.

End Fill.


(** C1. Every order placed at a current price executes as a fill of
    [orderSize] at that price: with no position it opens one with the
    order's side, the price, the size and pnl 0; on the side of the
    position it sets the average price to
    (avgPrice*size + price*fillSize)/(size+fillSize) and adds the sizes;
    against a larger position it realizes
    directionalDiff*fillSize*multiplier into the balance, reduces the size
    and keeps the average price; against an equal one it realizes the PnL
    of the whole size and deletes the position; against a smaller one it
    realizes the PnL of the old size and opens the opposite position of
    size fillSize - size at the price. The state [a] is arbitrary, so
    this holds after any sequence of earlier fills. *)
Theorem handleOrder_applyFill (instrument : Instrument) (sd : Side) (a : App) :
  let p := currentPrice (stream (engine a) instrument) in
  let fill := orderSize a in
  let mult := multiplier (contractType a) instrument in
  let a' := handleOrder instrument sd a in
  ~ p == 0 ->
  (positions a !! instrument = None ->
     positions a' !! instrument
       = Some (mkPosition (toUpperCase instrument) sd p fill None None 0)
     /\ accountBalance a' = accountBalance a)
  /\ (forall existing,
        positions a !! instrument = Some existing ->
        side existing = sd ->
        exists pos,
          positions a' !! instrument = Some pos
          /\ side pos = sd
          /\ avgPrice pos
             = (avgPrice existing * size existing + p * fill)
               / (size existing + fill)
          /\ size pos = size existing + fill
          /\ accountBalance a' = accountBalance a)
  /\ (forall existing,
        positions a !! instrument = Some existing ->
        side existing <> sd ->
        fill < size existing ->
        exists pos,
          positions a' !! instrument = Some pos
          /\ side pos = side existing
          /\ avgPrice pos = avgPrice existing
          /\ size pos = size existing - fill
          /\ accountBalance a'
             = accountBalance a
               + directionalDiff (side existing) (avgPrice existing) p
                 * fill * mult)
  /\ (forall existing,
        positions a !! instrument = Some existing ->
        side existing <> sd ->
        fill == size existing ->
        positions a' !! instrument = None
        /\ accountBalance a'
           == accountBalance a
              + directionalDiff (side existing) (avgPrice existing) p
                * size existing * mult)
  /\ (forall existing,
        positions a !! instrument = Some existing ->
        side existing <> sd ->
        size existing < fill ->
        positions a' !! instrument
          = Some (mkPosition (toUpperCase instrument) sd p
                             (fill - size existing) None None 0)
        /\ accountBalance a'
           = accountBalance a
             + directionalDiff (side existing) (avgPrice existing) p
               * size existing * mult).
Proof.
  intros p fill mult a' Hp.
  split; [exact (fill_open instrument sd a Hp)|].
  split; [exact (fill_add instrument sd a Hp)|].
  split; [exact (fill_reduce instrument sd a Hp)|].
  split; [exact (fill_close instrument sd a Hp)|].
  exact (fill_flip instrument sd a Hp).
Qed.

(** LONG 2 @100 on NQ, then SHORT 1 with the price at 110: one contract
    is left, LONG @100, and (110-100)*1*20 is realized. *)
Lemma handleOrder_applyFill_witness :
  let existing := mkPosition "NQ" LONG 100 2 None None 0 in
  let a := sampleApp 0 110 {[ nq := existing ]} 1 in
  exists pos,
    positions (handleOrder nq SHORT a) !! nq = Some pos
    /\ side pos = LONG
    /\ avgPrice pos = 100
    /\ size pos = 2 - 1
    /\ accountBalance (handleOrder nq SHORT a)
       = 100000 + (110 - 100) * 1 * 20.
Proof.
  intros existing a.
  assert (Hp : ~ currentPrice (stream (engine a) nq) == 0) by discriminate.
  destruct (handleOrder_applyFill nq SHORT a Hp) as (_ & _ & Hreduce & _).
  apply (Hreduce existing); [reflexivity | discriminate | reflexivity].
Defined.

(** The fills of the specification's examples, run on the code. *)
Example fill_long_long :
  let a1 := handleOrder es LONG (sampleApp 100 0 ∅ 1) in
  let a2 := handleOrder es LONG a1 in
  exists pos, positions a2 !! es = Some pos
              /\ side pos = LONG /\ avgPrice pos == 100 /\ size pos == 2.
Proof. cbv zeta. eexists. split; [reflexivity|]. repeat split. Qed.

Example fill_long_short_flip :
  let a1 := handleOrder es LONG (sampleApp 100 0 ∅ 1) in
  let a1' := set_engine a1 (set_stream (engine a1) es (emptyStream 90)) in
  let a2 := handleOrder es SHORT
              (mkApp (engine a1') (positions a1') (accountBalance a1') 2
                     (contractType a1') (playbackSpeed a1') (isPlaying a1')
                     (selectedDay a1') (editMode a1') (chart_es a1')
                     (chart_nq a1') (alerts a1') (refill a1') (requests a1')) in
  exists pos, positions a2 !! es = Some pos
              /\ side pos = SHORT /\ avgPrice pos == 90 /\ size pos == 1
              /\ accountBalance a2 == 100000 + (90 - 100) * 1 * 50.
Proof. cbv zeta. eexists. split; [reflexivity|]. repeat split. Qed.

(** C10. An order for an instrument whose current price is 0 changes
    nothing: the returned state is the state it was given, positions,
    balance and engine included. *)
Theorem handleOrder_no_price (instrument : Instrument) (sd : Side) (a : App) :
  currentPrice (stream (engine a) instrument) == 0 ->
  handleOrder instrument sd a = a.
Proof.
  intros H. unfold handleOrder. rewrite (truthy_false _ H). reflexivity.
Qed.

Lemma handleOrder_no_price_witness :
  handleOrder es LONG (sampleApp 0 110 ∅ 1) = sampleApp 0 110 ∅ 1.
Proof.
  apply (handleOrder_no_price es LONG (sampleApp 0 110 ∅ 1)). reflexivity.
Defined.

(** ** Mark to market *)

Lemma Qle_bool_false (x y : Q) : Qle_bool x y = false <-> y < x.
Proof.
  split; intros H.
  - apply Qnot_le_lt. intros Hle. apply Qle_bool_iff in Hle. congruence.
  - destruct (Qle_bool x y) eqn:E; [|reflexivity].
    apply Qle_bool_iff in E. exfalso. exact (Qlt_not_le _ _ H E).
Qed.

Lemma slHit_iff (pos : Position) (v p : Q) :
  stopsSet pos ->
  slHit (set_pnl pos v) p = true
  <-> exists s, sl pos = Some s
                /\ match side pos with LONG => p <= s | SHORT => s <= p end.
Proof.
  intros [Hsl _]. unfold slHit, leb, geb. cbn.
  destruct (sl pos) as [s|].
  - rewrite (truthy_true s) by (apply Hsl; reflexivity). cbn [andb].
    destruct (side pos); rewrite Qle_bool_iff;
      (split; [intros H; exists s; auto | intros (x & E & H); congruence]).
  - split; [discriminate | intros (x & E & _); discriminate].
Qed.

Lemma tpHit_iff (pos : Position) (v p : Q) :
  stopsSet pos ->
  tpHit (set_pnl pos v) p = true
  <-> exists t, tp pos = Some t
                /\ match side pos with LONG => t <= p | SHORT => p <= t end.
Proof.
  intros [_ Htp]. unfold tpHit, leb, geb. cbn.
  destruct (tp pos) as [t|].
  - rewrite (truthy_true t) by (apply Htp; reflexivity). cbn [andb].
    destruct (side pos); rewrite Qle_bool_iff;
      (split; [intros H; exists t; auto | intros (x & E & H); congruence]).
  - split; [discriminate | intros (x & E & _); discriminate].
Qed.

Lemma hit_triggers (pos : Position) (v p : Q) :
  stopsSet pos ->
  slHit (set_pnl pos v) p || tpHit (set_pnl pos v) p = true <-> triggers pos p.
Proof.
  intros Hs. rewrite orb_true_iff, (slHit_iff pos v p Hs), (tpHit_iff pos v p Hs).
  unfold triggers. destruct (side pos); reflexivity.
Qed.

Lemma markKey_other (e : Engine) (ct : ContractType) (key other : Instrument)
    (ps : gmap Instrument Position) (bal : Q) :
  other <> key ->
  fst (markKey e ct key (ps, bal)) !! other = ps !! other.
Proof.
  intros Hne. unfold markKey.
  destruct (ps !! key) as [pos|]; [|reflexivity].
  destruct (_ || _); [reflexivity|].
  destruct (slHit _ _); [cbn; apply lookup_delete_ne; congruence|].
  destruct (tpHit _ _); cbn;
    [apply lookup_delete_ne | apply lookup_insert_ne]; congruence.
Qed.

Lemma markKey_same (e : Engine) (ct : ContractType) (key : Instrument)
    (ps ps' : gmap Instrument Position) (bal bal' : Q) :
  ps !! key = ps' !! key ->
  fst (markKey e ct key (ps, bal)) !! key
  = fst (markKey e ct key (ps', bal')) !! key.
Proof.
  intros Heq. unfold markKey. rewrite <- Heq.
  destruct (ps !! key) as [pos|] eqn:E; [|cbn; congruence].
  destruct (_ || _); [cbn; congruence|].
  destruct (slHit _ _); [cbn; rewrite !lookup_delete_eq; reflexivity|].
  destruct (tpHit _ _); cbn;
    [rewrite !lookup_delete_eq | rewrite !lookup_insert_eq]; reflexivity.
Qed.

(** In the whole [updatePnL], each key ends as its own step leaves it. *)
Lemma updatePnL_lookup (a : App) (key : Instrument) :
  positions (updatePnL a) !! key
  = fst (markKey (engine a) (contractType a) key
                 (positions a, accountBalance a)) !! key.
Proof.
  unfold updatePnL. cbn [fold_left].
  destruct (markKey (engine a) (contractType a) es
                    (positions a, accountBalance a)) as [ps1 b1] eqn:E1.
  destruct (markKey (engine a) (contractType a) nq (ps1, b1)) as [ps2 b2] eqn:E2.
  cbn [positions set_book].
  destruct key.
  - rewrite E1. cbn [fst].
    replace ps2 with (fst (markKey (engine a) (contractType a) nq (ps1, b1)))
      by (rewrite E2; reflexivity).
    apply markKey_other. discriminate.
  - replace ps2 with (fst (markKey (engine a) (contractType a) nq (ps1, b1)))
      by (rewrite E2; reflexivity).
    apply markKey_same.
    replace ps1 with (fst (markKey (engine a) (contractType a) es
                                   (positions a, accountBalance a)))
      by (rewrite E1; reflexivity).
    apply markKey_other. discriminate.
Qed.

(** One position at one priced mark. *)
Lemma markKey_spec (e : Engine) (ct : ContractType) (key : Instrument)
    (ps : gmap Instrument Position) (bal : Q) (pos : Position) :
  let p := currentPrice (stream e key) in
  let v := directionalDiff (side pos) (avgPrice pos) p
           * multiplier ct key * size pos in
  ps !! key = Some pos ->
  ~ p == 0 ->
  stopsSet pos ->
  (triggers pos p ->
     markKey e ct key (ps, bal) = (delete key ps, bal + v))
  /\ (~ triggers pos p ->
        markKey e ct key (ps, bal) = (<[key := set_pnl pos v]> ps, bal)).
Proof.
  intros p v Hpos Hp Hstops. unfold markKey. rewrite Hpos.
  fold p. rewrite (truthy_true _ Hp), (eqb_false _ _ Hp). cbn [negb orb].
  fold v.
  pose proof (hit_triggers pos v p Hstops) as Hhit.
  destruct (slHit (set_pnl pos v) p) eqn:Es;
    [|destruct (tpHit (set_pnl pos v) p) eqn:Et]; cbn [orb] in Hhit.
  - split; [reflexivity|]. intros Hn. exfalso. apply Hn, Hhit. reflexivity.
  - split; [reflexivity|]. intros Hn. exfalso. apply Hn, Hhit. reflexivity.
  - split; [|reflexivity]. intros Ht. apply Hhit in Ht. discriminate.
Qed.

(** With the other instrument flat, [updatePnL] is the step of the one
    position. *)
Lemma updatePnL_one (a : App) (key : Instrument) :
  (forall other, other <> key -> positions a !! other = None) ->
  updatePnL a
  = set_book a
      (fst (markKey (engine a) (contractType a) key
                    (positions a, accountBalance a)))
      (snd (markKey (engine a) (contractType a) key
                    (positions a, accountBalance a))).
Proof.
  intros Hflat. unfold updatePnL. cbn [fold_left].
  destruct key.
  - destruct (markKey (engine a) (contractType a) es
                      (positions a, accountBalance a)) as [ps1 b1] eqn:E1.
    assert (Hn : ps1 !! nq = None).
    { replace ps1 with (fst (markKey (engine a) (contractType a) es
                                     (positions a, accountBalance a)))
        by (rewrite E1; reflexivity).
      rewrite markKey_other by discriminate. apply Hflat. discriminate. }
    unfold markKey at 1. rewrite Hn. reflexivity.
  - assert (He : positions a !! es = None) by (apply Hflat; discriminate).
    unfold markKey at 2. rewrite He.
    destruct (markKey _ _ nq _) as [ps2 b2]. reflexivity.
Qed.

Lemma setPrice_price (a : App) (key : Instrument) (p : Q) :
  currentPrice (stream (engine (setPrice a key p)) key) = p.
Proof. destruct key; reflexivity. Qed.

Lemma mark_step (a : App) (key : Instrument) (pos : Position) (p : Q) :
  let v := directionalDiff (side pos) (avgPrice pos) p
           * multiplier (contractType a) key * size pos in
  positions a !! key = Some pos ->
  flatElsewhere (positions a) key ->
  ~ p == 0 ->
  stopsSet pos ->
  contractType (mark key p a) = contractType a
  /\ flatElsewhere (positions (mark key p a)) key
  /\ (triggers pos p ->
        positions (mark key p a) !! key = None
        /\ accountBalance (mark key p a) = accountBalance a + v)
  /\ (~ triggers pos p ->
        positions (mark key p a) !! key = Some (set_pnl pos v)
        /\ accountBalance (mark key p a) = accountBalance a).
Proof.
  intros v Hpos Hflat Hp Hs. unfold mark.
  rewrite (updatePnL_one (setPrice a key p) key) by exact Hflat.
  assert (Hp' : ~ currentPrice (stream (engine (setPrice a key p)) key) == 0)
    by (rewrite setPrice_price; exact Hp).
  destruct (markKey_spec (engine (setPrice a key p)) (contractType a) key
                         (positions a) (accountBalance a) pos Hpos Hp' Hs)
    as [Hyes Hno].
  rewrite setPrice_price in Hyes, Hno. fold v in Hyes, Hno.
  change (contractType (setPrice a key p)) with (contractType a).
  change (positions (setPrice a key p)) with (positions a).
  change (accountBalance (setPrice a key p)) with (accountBalance a).
  split; [reflexivity|]. split.
  - intros other Hne. cbn [positions set_book].
    rewrite markKey_other by exact Hne. apply Hflat, Hne.
  - split; intros Ht.
    + rewrite (Hyes Ht). cbn. split; [apply lookup_delete_eq | reflexivity].
    + rewrite (Hno Ht). cbn. split; [apply lookup_insert_eq | reflexivity].
Qed.

(** Nonzero stops are an invariant of the book: an order keeps or drops
    the stops of a position, a click stores a stop only when its price
    is truthy, and a mark changes the pnl alone. *)
Lemma stopsSet_insert (ps : gmap Instrument Position) (k : Instrument)
    (pos : Position) :
  bookStopsSet ps -> stopsSet pos -> bookStopsSet (<[k := pos]> ps).
Proof.
  intros Hb Hs k' pos' Hl. destruct (decide (k = k')) as [->|Hne].
  - rewrite lookup_insert_eq in Hl. inversion Hl; subst. exact Hs.
  - rewrite lookup_insert_ne in Hl by exact Hne. exact (Hb k' pos' Hl).
Qed.

Lemma stopsSet_delete (ps : gmap Instrument Position) (k : Instrument) :
  bookStopsSet ps -> bookStopsSet (delete k ps).
Proof.
  intros Hb k' pos' Hl. destruct (decide (k = k')) as [->|Hne].
  - rewrite lookup_delete_eq in Hl. discriminate.
  - rewrite lookup_delete_ne in Hl by exact Hne. exact (Hb k' pos' Hl).
Qed.

Lemma stopsSet_none (sym : string) (sd : Side) (avg sz v : Q) :
  stopsSet (mkPosition sym sd avg sz None None v).
Proof. split; intros x E; discriminate E. Qed.

Lemma handleOrder_stopsSet (instrument : Instrument) (sd : Side) (a : App) :
  bookStopsSet (positions a) ->
  bookStopsSet (positions (handleOrder instrument sd a)).
Proof.
  intros Hb. unfold handleOrder.
  destruct (negb (truthy _)); [exact Hb|].
  destruct (positions a !! instrument) as [existing|] eqn:He.
  - pose proof (Hb instrument existing He) as Hs.
    destruct (decide (side existing = sd));
      [|destruct (gtb _ _); [|destruct (eqb _ _)]]; cbn [positions set_book];
      first [ apply stopsSet_delete; exact Hb
            | apply stopsSet_insert; [exact Hb|];
              first [exact Hs | apply stopsSet_none] ].
  - cbn [positions set_book]. apply stopsSet_insert; [exact Hb|].
    apply stopsSet_none.
Qed.

Lemma handleChartClick_stopsSet (clicked : option Q) (instrument : Instrument)
    (a : App) :
  bookStopsSet (positions a) ->
  bookStopsSet (positions (handleChartClick clicked instrument a)).
Proof.
  intros Hb. unfold handleChartClick.
  destruct (editMode a) as [[sym kind]|]; [|exact Hb].
  destruct (negb (bool_decide (sym = instrument))); [exact Hb|].
  destruct (chart a instrument); [|exact Hb].
  destruct clicked as [p|]; [|exact Hb].
  destruct (truthy p) eqn:Ep; [|exact Hb]. cbn [negb].
  change (positions (set_editMode ?x _)) with (positions x).
  destruct (positions a !! sym) as [pos|] eqn:Hpos; [|exact Hb].
  destruct (isValidStop _ _ _ _); [|exact Hb].
  cbn [positions set_book]. apply stopsSet_insert; [exact Hb|].
  destruct (Hb sym pos Hpos) as [Hsl Htp].
  assert (Hp : ~ p == 0).
  { intros E. rewrite (truthy_false _ E) in Ep. discriminate. }
  destruct kind; split; cbn; intros x E;
    first [ inversion E; subst; exact Hp | apply Hsl, E | apply Htp, E ].
Qed.

Lemma markKey_stopsSet (e : Engine) (ct : ContractType) (key : Instrument)
    (ps : gmap Instrument Position) (bal : Q) :
  bookStopsSet ps -> bookStopsSet (fst (markKey e ct key (ps, bal))).
Proof.
  intros Hb. unfold markKey.
  destruct (ps !! key) as [pos|] eqn:Hpos; [|exact Hb].
  destruct (_ || _); [exact Hb|].
  destruct (slHit _ _); [cbn; apply stopsSet_delete, Hb|].
  destruct (tpHit _ _); cbn; [apply stopsSet_delete, Hb|].
  apply stopsSet_insert; [exact Hb|]. exact (Hb key pos Hpos).
Qed.

Lemma updatePnL_stopsSet (a : App) :
  bookStopsSet (positions a) -> bookStopsSet (positions (updatePnL a)).
Proof.
  intros Hb. unfold updatePnL. cbn [fold_left].
  pose proof (markKey_stopsSet (engine a) (contractType a) es (positions a)
                               (accountBalance a) Hb) as H1.
  destruct (markKey (engine a) (contractType a) es _) as [ps1 b1].
  pose proof (markKey_stopsSet (engine a) (contractType a) nq ps1 b1 H1) as H2.
  destruct (markKey (engine a) (contractType a) nq _) as [ps2 b2].
  exact H2.
Qed.

(** LONG @100 with a stop-loss at 95, marked at 99, 96 and 94: open after
    the first two marks, closed by the third, which realizes
    (94-100)*size*multiplier. *)
Lemma long_stop_sequence (a0 : App) (key : Instrument) (pos : Position) :
  positions a0 !! key = Some pos ->
  flatElsewhere (positions a0) key ->
  side pos = LONG -> avgPrice pos = 100 -> sl pos = Some 95 -> tp pos = None ->
  let a1 := mark key 99 a0 in
  let a2 := mark key 96 a1 in
  let a3 := mark key 94 a2 in
  is_Some (positions a1 !! key)
  /\ is_Some (positions a2 !! key)
  /\ positions a3 !! key = None
  /\ accountBalance a3
     == accountBalance a0
        + (94 - 100) * size pos * multiplier (contractType a0) key.
Proof.
  intros Hpos Hflat Hside Havg Hsl Htp a1 a2 a3.
  assert (Hstops : forall v, stopsSet (set_pnl pos v)).
  { intros v. split; cbn; intros x E; [rewrite Hsl in E | rewrite Htp in E];
      inversion E; subst; discriminate. }
  assert (Hopen : forall v p, 95 < p -> ~ triggers (set_pnl pos v) p).
  { intros v p Hlt. unfold triggers. cbn. rewrite Hside, Hsl, Htp.
    intros [(s & E & H)|(t & E & _)]; [|discriminate].
    inversion E; subst. exact (Qlt_not_le _ _ Hlt H). }
  assert (Hpos0 : positions a0 !! key = Some (set_pnl pos (pnl pos)))
    by (rewrite Hpos; destruct pos; reflexivity).
  destruct (mark_step a0 key _ 99 Hpos0 Hflat ltac:(discriminate) (Hstops _))
    as (Hct1 & Hflat1 & _ & Hno1).
  destruct (Hno1 (Hopen _ 99 ltac:(reflexivity))) as [Hpos1 Hbal1].
  fold a1 in Hct1, Hflat1, Hpos1, Hbal1.
  destruct (mark_step a1 key _ 96 Hpos1 Hflat1 ltac:(discriminate) (Hstops _))
    as (Hct2 & Hflat2 & _ & Hno2).
  destruct (Hno2 (Hopen _ 96 ltac:(reflexivity))) as [Hpos2 Hbal2].
  fold a2 in Hct2, Hflat2, Hpos2, Hbal2.
  destruct (mark_step a2 key _ 94 Hpos2 Hflat2 ltac:(discriminate) (Hstops _))
    as (_ & _ & Hyes3 & _).
  destruct Hyes3 as [Hpos3 Hbal3].
  { unfold triggers. cbn. rewrite Hside, Hsl. left. exists 95.
    split; [reflexivity | discriminate]. }
  fold a3 in Hpos3, Hbal3.
  split; [rewrite Hpos1; eauto|]. split; [rewrite Hpos2; eauto|].
  split; [exact Hpos3|].
  rewrite Hbal3, Hbal2, Hbal1, Hct2, Hct1. cbn. rewrite Hside, Havg. cbn.
  ring.
Qed.

(** C2 (as amended). For every open position, a mark at a current price
    p other than 0 (the stops being nonzero, as every stop placed is)
    first recomputes
    pnl = directionalDiff(side, avgPrice, p) * multiplier * size and then
    checks the stops: LONG closes when p <= sl or p >= tp, SHORT when
    p >= sl or p <= tp. On a trigger the recomputed pnl is added to the
    balance and the position is deleted; otherwise the position stays
    open with the recomputed pnl. At a current price of 0 the position is
    skipped: nothing is recomputed and no stop is checked. In particular
    LONG @100 with SL=95 marked at 99, 96, 94 closes at the mark 94 and
    realizes (94-100)*size*multiplier. *)
Theorem updatePnL_stops (a : App) (key : Instrument) (pos : Position) :
  let p := currentPrice (stream (engine a) key) in
  let v := directionalDiff (side pos) (avgPrice pos) p
           * multiplier (contractType a) key * size pos in
  positions a !! key = Some pos ->
  (~ p == 0 -> stopsSet pos ->
   (triggers pos p ->
      markKey (engine a) (contractType a) key (positions a, accountBalance a)
        = (delete key (positions a), accountBalance a + v)
      /\ positions (updatePnL a) !! key = None
      /\ (flatElsewhere (positions a) key ->
          accountBalance (updatePnL a) = accountBalance a + v))
   /\ (~ triggers pos p ->
         markKey (engine a) (contractType a) key (positions a, accountBalance a)
           = (<[key := set_pnl pos v]> (positions a), accountBalance a)
         /\ positions (updatePnL a) !! key = Some (set_pnl pos v)
         /\ (flatElsewhere (positions a) key ->
             accountBalance (updatePnL a) = accountBalance a)))
  /\ (p == 0 ->
      markKey (engine a) (contractType a) key (positions a, accountBalance a)
        = (positions a, accountBalance a)
      /\ positions (updatePnL a) !! key = Some pos)
  /\ (side pos = LONG -> avgPrice pos = 100 ->
      sl pos = Some 95 -> tp pos = None ->
      flatElsewhere (positions a) key ->
      let a1 := mark key 99 a in
      let a2 := mark key 96 a1 in
      let a3 := mark key 94 a2 in
      is_Some (positions a1 !! key)
      /\ is_Some (positions a2 !! key)
      /\ positions a3 !! key = None
      /\ accountBalance a3
         == accountBalance a
            + (94 - 100) * size pos * multiplier (contractType a) key).
Proof.
  intros p v Hpos.
  split; [|split].
  - intros Hp Hs.
    destruct (markKey_spec (engine a) (contractType a) key (positions a)
                           (accountBalance a) pos Hpos Hp Hs) as [Hyes Hno].
    fold p in Hyes, Hno. fold v in Hyes, Hno. split.
    + intros Ht. split; [exact (Hyes Ht)|]. split.
      * rewrite updatePnL_lookup, (Hyes Ht). apply lookup_delete_eq.
      * intros Hflat.
        rewrite (updatePnL_one a key Hflat), (Hyes Ht). reflexivity.
    + intros Ht. split; [exact (Hno Ht)|]. split.
      * rewrite updatePnL_lookup, (Hno Ht). apply lookup_insert_eq.
      * intros Hflat.
        rewrite (updatePnL_one a key Hflat), (Hno Ht). reflexivity.
  - intros Hz.
    assert (Hskip : markKey (engine a) (contractType a) key
                            (positions a, accountBalance a)
                    = (positions a, accountBalance a)).
    { unfold markKey. rewrite Hpos. fold p.
      rewrite (truthy_false _ Hz). reflexivity. }
    split; [exact Hskip|]. rewrite updatePnL_lookup, Hskip. exact Hpos.
  - intros Hside Havg Hsl Htp Hflat.
    exact (long_stop_sequence a key pos Hpos Hflat Hside Havg Hsl Htp).
Qed.

(** LONG 1 @100 on ES with SL=95 and the price at 94: the position is
    closed and (94-100)*50*1 is realized. *)
Lemma updatePnL_stops_witness :
  let pos := mkPosition "ES" LONG 100 1 (Some 95) None 0 in
  let a := sampleApp 94 0 {[ es := pos ]} 1 in
  positions (updatePnL a) !! es = None
  /\ accountBalance (updatePnL a) = 100000 + (94 - 100) * 50 * 1.
Proof.
  intros pos a.
  assert (Hpos : positions a !! es = Some pos) by reflexivity.
  assert (Hp : ~ currentPrice (stream (engine a) es) == 0) by discriminate.
  assert (Hs : stopsSet pos).
  { split; intros x E; inversion E; subst; discriminate. }
  destruct (updatePnL_stops a es pos Hpos) as (Hpriced & _ & _).
  destruct (Hpriced Hp Hs) as (Hyes & _).
  destruct Hyes as (_ & Hgone & Hbal).
  { left. exists 95. split; [reflexivity | discriminate]. }
  split; [exact Hgone|]. apply Hbal.
  intros other Hne. destruct other; [congruence | reflexivity].
Defined.

(** C2 as stated fails at a mark price of 0, which [updatePnL] takes for
    "no price" (line 462): LONG @100 with SL=95 satisfies p <= sl at
    p = 0, yet the mark changes nothing. *)
Lemma updatePnL_zero_price_counterexample :
  let pos := mkPosition "ES" LONG 100 1 (Some 95) None 0 in
  let a := sampleApp 0 0 {[ es := pos ]} 1 in
  triggers pos (currentPrice (stream (engine a) es))
  /\ positions (updatePnL a) !! es = Some pos
  /\ accountBalance (updatePnL a) = accountBalance a.
Proof.
  cbv zeta. split.
  - left. exists 95. split; [reflexivity | discriminate].
  - split; reflexivity.
Qed.

(** ** Candles *)

Lemma minuteTime_mono (x y : Z) : (x <= y)%Z -> (minuteTime x <= minuteTime y)%Z.
Proof.
  intros H. unfold minuteTime.
  apply Z.mul_le_mono_nonneg_r; [lia|].
  apply Z.div_le_mono; [lia|].
  apply Z.quot_le_mono; lia.
Qed.

Lemma foldTick_time (c : option Candle) (tick : Tick) :
  time (foldTick c tick) = minuteTime (ts tick).
Proof.
  unfold foldTick. destruct c as [c|]; [|reflexivity].
  destruct (Z.eqb (time c) (minuteTime (ts tick))) eqn:E; cbn; [|reflexivity].
  apply Z.eqb_eq. exact E.
Qed.

Lemma wfCandle_flat (t : Z) (p : Q) : wfCandle (mkCandle t p p p p).
Proof.
  split; cbn.
  - apply Q.min_glb; apply Qle_refl.
  - apply Q.max_lub; apply Qle_refl.
Qed.

Lemma foldTick_wf (c : option Candle) (tick : Tick) :
  (forall c0, c = Some c0 -> wfCandle c0) -> wfCandle (foldTick c tick).
Proof.
  intros H. unfold foldTick. destruct c as [c|]; [|apply wfCandle_flat].
  destruct (negb _); [apply wfCandle_flat|].
  destruct (H c eq_refl) as [Hlo Hhi]. split; cbn.
  - apply Q.min_glb; [|apply Q.le_min_r].
    eapply Qle_trans; [apply Q.le_min_l|].
    eapply Qle_trans; [exact Hlo | apply Q.le_min_l].
  - apply Q.max_lub; [|apply Q.le_max_r].
    eapply Qle_trans; [|apply Q.le_max_l].
    eapply Qle_trans; [apply Q.le_max_l | exact Hhi].
Qed.

Lemma last_after {A : Type} (l : list A) (x d : A) :
  List.last (x :: l) d = List.last l x.
Proof.
  revert x d. induction l as [|y l IH]; intros x d; [reflexivity|].
  change (List.last (x :: y :: l) d) with (List.last (y :: l) d).
  rewrite !(IH y). reflexivity.
Qed.

Lemma last_elem {A : Type} (l : list A) (x d : A) :
  In (List.last (x :: l) d) (x :: l).
Proof.
  revert x. induction l as [|y l IH]; intros x; [left; reflexivity|].
  right. change (List.last (x :: y :: l) d) with (List.last (y :: l) d).
  apply IH.
Qed.

Lemma consume_trace (globalTime : Z) (pending : list Tick) (f : Fold) :
  let l := taken globalTime pending in
  f_out (consume globalTime pending f) = f_out f ++ trace (f_candle f) l
  /\ f_idx (consume globalTime pending f) = (f_idx f + Z.of_nat (length l))%Z
  /\ f_candle (consume globalTime pending f)
     = List.last (Some <$> trace (f_candle f) l) (f_candle f)
  /\ f_price (consume globalTime pending f)
     = List.last (price <$> l) (f_price f).
Proof.
  revert f. induction pending as [|tick rest IH]; intros f; cbn.
  - rewrite app_nil_r. repeat split. lia.
  - destruct (Z.gtb (ts tick) globalTime); cbn.
    + rewrite app_nil_r. repeat split. lia.
    + destruct (IH (mkFold (price tick) (Some (foldTick (f_candle f) tick))
                           (f_idx f + 1) (f_out f ++ [foldTick (f_candle f) tick])))
        as (Ho & Hi & Hc & Hp).
      cbn in Ho, Hi, Hc, Hp. rewrite Ho, Hi, Hc, Hp.
      rewrite <- app_assoc.
      repeat split; [lia | |].
      * exact (eq_sym (last_after
                         (Some <$> trace (Some (foldTick (f_candle f) tick))
                                         (taken globalTime rest))
                         (Some (foldTick (f_candle f) tick)) (f_candle f))).
      * exact (eq_sym (last_after (price <$> taken globalTime rest)
                                 (price tick) (f_price f))).
Qed.

Lemma trace_wf (c : option Candle) (l : list Tick) :
  (forall c0, c = Some c0 -> wfCandle c0) -> Forall wfCandle (trace c l).
Proof.
  revert c. induction l as [|tick rest IH]; intros c H; cbn; constructor.
  - apply foldTick_wf, H.
  - apply IH. intros c0 E. inversion E; subst. apply foldTick_wf, H.
Qed.

Lemma trace_time (c : option Candle) (l : list Tick) :
  map time (trace c l) = map (fun tick => minuteTime (ts tick)) l.
Proof.
  revert c. induction l as [|tick rest IH]; intros c; cbn; [reflexivity|].
  rewrite foldTick_time, IH. reflexivity.
Qed.

Lemma taken_prefix (globalTime : Z) (pending : list Tick) :
  exists rest, pending = taken globalTime pending ++ rest.
Proof.
  induction pending as [|tick l IH]; cbn; [exists []; reflexivity|].
  destruct (Z.gtb (ts tick) globalTime); [eexists; reflexivity|].
  destruct IH as [rest E]. exists rest. cbn. congruence.
Qed.

Lemma taken_le (globalTime : Z) (pending : list Tick) :
  Forall (fun tick => (ts tick <= globalTime)%Z) (taken globalTime pending).
Proof.
  induction pending as [|tick l IH]; cbn; [constructor|].
  destruct (Z.gtb (ts tick) globalTime) eqn:E; constructor; [|exact IH].
  rewrite Z.gtb_ltb in E. apply Z.ltb_ge in E. exact E.
Qed.

Lemma tsOrdered_strong (l : list Tick) :
  tsOrdered l -> StronglySorted (fun x y => (ts x <= ts y)%Z) l.
Proof.
  apply Sorted.Sorted_StronglySorted. intros x y z Hxy Hyz. lia.
Qed.

Lemma chart_set_chart (a : App) (k : Instrument) (c : option (list Candle)) :
  chart (set_chart a k c) k = c.
Proof. destruct k; reflexivity. Qed.

Lemma chart_set_chart_ne (a : App) (k k' : Instrument) (c : option (list Candle)) :
  k <> k' -> chart (set_chart a k c) k' = chart a k'.
Proof. destruct k, k'; intros H; try reflexivity; congruence. Qed.

Lemma stream_set_stream (e : Engine) (k : Instrument) (s : Stream) :
  stream (set_stream e k s) k = s.
Proof. destruct k; reflexivity. Qed.

Lemma stream_set_stream_ne (e : Engine) (k k' : Instrument) (s : Stream) :
  k <> k' -> stream (set_stream e k s) k' = stream e k'.
Proof. destruct k, k'; intros H; try reflexivity; congruence. Qed.

Lemma clock_set_stream (e : Engine) (k : Instrument) (s : Stream) :
  globalTimeBig (set_stream e k s) = globalTimeBig e.
Proof. destruct k; reflexivity. Qed.

(** What one call of [processInstrumentTick] hands to the chart. *)
Lemma processInstrumentTick_out (key : Instrument) (globalTime : Z) (a : App) :
  let state := stream (engine a) key in
  let pending := drop (Z.to_nat (lastLoadedIndex state + 1)) (buffer state) in
  let a' := processInstrumentTick key globalTime a in
  exists l,
    (l = [] \/ l = taken globalTime pending)
    /\ chart a' key = (fun out => out ++ trace (candle state) l) <$> chart a key
    /\ candle (stream (engine a') key)
       = List.last (Some <$> trace (candle state) l) (candle state)
    /\ buffer (stream (engine a') key) = buffer state
    /\ lastLoadedIndex (stream (engine a') key)
       = (lastLoadedIndex state + Z.of_nat (length l))%Z.
Proof.
  intros state pending a'. subst a'. unfold processInstrumentTick.
  fold state. destruct (chart a key) as [series|] eqn:Ec.
  - destruct (Nat.eqb (length (buffer state)) 0).
    + exists []. split; [left; reflexivity|]. cbn [trace fmap option_fmap option_map].
      rewrite Ec. cbn. rewrite app_nil_r. fold state.
      repeat split. lia.
    + exists (taken globalTime pending). split; [right; reflexivity|].
      destruct (consume_trace globalTime pending
                  (mkFold (currentPrice state) (candle state)
                          (lastLoadedIndex state + 1) series))
        as (Ho & Hi & Hc & _).
      cbn in Ho, Hi, Hc. fold pending. split.
      * rewrite chart_set_chart, Ho. reflexivity.
      * change (engine (set_chart ?x _ _)) with (engine x).
        change (engine (set_engine _ ?e)) with e.
        rewrite stream_set_stream. cbn [candle buffer lastLoadedIndex].
        split; [exact Hc|]. split; [reflexivity|]. rewrite Hi. lia.
  - exists []. split; [left; reflexivity|]. rewrite Ec. cbn. fold state.
    repeat split. lia.
Qed.

Lemma trace_last_time (l : list Tick) (c0 : option Candle) (c : Candle)
    (d : Tick) :
  l <> [] ->
  List.last (map Some (trace c0 l)) c0 = Some c ->
  time c = minuteTime (ts (List.last l d)).
Proof.
  revert c0 d. induction l as [|tick rest IH]; intros c0 d Hne; [congruence|].
  cbn [trace map]. rewrite !last_after. destruct rest as [|tick' rest'].
  - cbn. intros E. inversion E. apply foldTick_time.
  - apply IH. discriminate.
Qed.

(** C5. For ticks ordered by timestamp, every candle the fold hands to
    the chart, and the open candle it leaves, has
    low <= min(open, close) and high >= max(open, close); the bucket
    times of the successive candles, the previously open one first, are
    non-decreasing; and every candle's bucket is the minute of a tick
    that was folded, so a minute without ticks gets no candle. What is
    asked of the candle open before the call holds again of the candle
    open after it, so the property holds at all times of a replay. *)
Theorem candles_invariant (key : Instrument) (globalTime : Z) (a : App) :
  let state := stream (engine a) key in
  let pending := drop (Z.to_nat (lastLoadedIndex state + 1)) (buffer state) in
  let a' := processInstrumentTick key globalTime a in
  let state' := stream (engine a') key in
  let pending' :=
    drop (Z.to_nat (lastLoadedIndex state' + 1)) (buffer state') in
  tsOrdered pending ->
  (-1 <= lastLoadedIndex state)%Z ->
  (forall c, candle state = Some c ->
     wfCandle c
     /\ Forall (fun tick => (time c <= minuteTime (ts tick))%Z) pending) ->
  (exists new,
     chart a' key = (fun out => out ++ new) <$> chart a key
     /\ Forall wfCandle new
     /\ Sorted Z.le (map time (option_list (candle state) ++ new))
     /\ Forall (fun c => exists tick,
                  In tick pending /\ (ts tick <= globalTime)%Z
                  /\ time c = minuteTime (ts tick)) new)
  /\ tsOrdered pending'
  /\ (-1 <= lastLoadedIndex state')%Z
  /\ (forall c, candle state' = Some c ->
        wfCandle c
        /\ Forall (fun tick => (time c <= minuteTime (ts tick))%Z) pending').
Proof.
  intros state pending a' state' pending' Hord Hidx Hc0.
  destruct (processInstrumentTick_out key globalTime a)
    as (l & Hl & Hout & Hcan & Hbuf & Hlast).
  fold state in Hl, Hout, Hcan, Hbuf, Hlast. fold pending in Hl.
  fold a' in Hout, Hcan, Hbuf, Hlast. fold state' in Hcan, Hbuf, Hlast.
  assert (Hwf0 : forall c0, candle state = Some c0 -> wfCandle c0)
    by (intros c0 E; apply (Hc0 c0 E)).
  assert (Hpre : exists rest, pending = l ++ rest).
  { destruct Hl as [-> | ->]; [exists pending; reflexivity|].
    apply taken_prefix. }
  assert (Hle : Forall (fun tick => (ts tick <= globalTime)%Z) l).
  { destruct Hl as [-> | ->]; [constructor | apply taken_le]. }
  destruct Hpre as [rest Hpre].
  pose proof (tsOrdered_strong _ Hord) as Hs. rewrite Hpre in Hs.
  assert (Hrest : pending' = rest).
  { subst pending'. rewrite Hbuf, Hlast.
    replace (Z.to_nat (lastLoadedIndex state + Z.of_nat (length l) + 1))
      with (Z.to_nat (lastLoadedIndex state + 1) + length l)%nat by lia.
    rewrite <- drop_drop. fold pending. rewrite Hpre.
    apply drop_app_length. }
  pose proof (trace_wf (candle state) l Hwf0) as Hall.
  split; [|split; [|split]].
  - exists (trace (candle state) l). split; [exact Hout|].
    split; [exact Hall|]. split.
    + apply StronglySorted_Sorted. rewrite map_app, trace_time.
      apply StronglySorted_app_2.
      * intros x1 x2 H1 H2. destruct (candle state) as [c0|] eqn:E0;
          [|apply elem_of_nil in H1; contradiction].
        cbn in H1. apply list_elem_of_singleton in H1. subst x1.
        apply list_elem_of_In, in_map_iff in H2.
        destruct H2 as (tick & <- & Hin).
        destruct (Hc0 c0 eq_refl) as [_ Hb].
        rewrite List.Forall_forall in Hb.
        apply Hb. rewrite Hpre. apply in_or_app. left. exact Hin.
      * destruct (candle state); cbn; repeat constructor.
      * apply (StronglySorted_fmap (fun tick => minuteTime (ts tick))
                                   (fun x y => (ts x <= ts y)%Z) Z.le l);
          [|exact (StronglySorted_app_1_l _ _ _ Hs)].
        intros x y Hxy. apply minuteTime_mono, Hxy.
    + rewrite List.Forall_forall. intros c Hin.
      apply (in_map time) in Hin. rewrite trace_time in Hin.
      apply in_map_iff in Hin. destruct Hin as (tick & Et & Hin).
      exists tick. split; [rewrite Hpre; apply in_or_app; left; exact Hin|].
      rewrite List.Forall_forall in Hle. split; [apply Hle, Hin | congruence].
  - rewrite Hrest. apply StronglySorted_Sorted.
    exact (StronglySorted_app_1_r _ _ _ Hs).
  - rewrite Hlast. lia.
  - intros c E. rewrite Hcan in E. rewrite Hrest. split.
    + destruct (trace (candle state) l) as [|c1 tr] eqn:Et.
      * cbn in E. apply Hwf0, E.
      * assert (Hin : In (Some c) (Some <$> c1 :: tr)).
        { rewrite <- E.
          exact (last_elem (map Some tr) (Some c1) (candle state)). }
        apply in_map_iff in Hin. destruct Hin as (c2 & E2 & Hin).
        inversion E2; subst. rewrite List.Forall_forall in Hall.
        apply Hall, Hin.
    + destruct l as [|tick0 l0] eqn:El.
      * cbn in E. destruct (Hc0 c E) as [_ Hb]. rewrite Hpre in Hb. exact Hb.
      * rewrite <- El in *.
        assert (Hne : l <> []) by (rewrite El; discriminate).
        pose proof (trace_last_time l (candle state) c tick0 Hne E) as Ht.
        rewrite List.Forall_forall. intros tick Hin. rewrite Ht.
        apply minuteTime_mono.
        apply (StronglySorted_app_1_elem_of _ l rest _ _ Hs).
        -- apply list_elem_of_In. rewrite El.
           exact (last_elem l0 tick0 tick0).
        -- apply list_elem_of_In. exact Hin.
Qed.

Lemma candles_invariant_witness :
  let t1 := mkTick 1700000000000000000 (4500 # 1) 3 570 in
  let t2 := mkTick 1700000030000000000 (4502 # 1) 1 570 in
  let t3 := mkTick 1700000065000000000 (4499 # 1) 2 571 in
  let a := set_engine (sampleApp 0 0 ∅ 1)
             (mkEngine (mkStream [t1; t2; t3] 0 false (-1) 0 None)
                       (emptyStream 0) 1700000000000000000 0 false
                       MARKET_OPEN_MIN) in
  let a' := processInstrumentTick es 1700000040000000000 a in
  exists new,
    chart a' es = (fun out => out ++ new) <$> chart a es
    /\ Forall wfCandle new
    /\ Sorted Z.le (map time (option_list (candle (stream (engine a) es)) ++ new))
    /\ Forall (fun c => exists tick,
                 In tick [t1; t2; t3]
                 /\ (ts tick <= 1700000040000000000)%Z
                 /\ time c = minuteTime (ts tick)) new.
Proof.
  intros t1 t2 t3 a a'.
  apply (candles_invariant es 1700000040000000000 a).
  - repeat constructor; cbn; lia.
  - cbn. lia.
  - intros c E. discriminate E.
Defined.

(** C6 (as amended). A tick whose minute bucket differs from the bucket
    of the open candle, an earlier bucket included, is not folded into
    the open candle: the open candle is replaced by a new candle for the
    tick's bucket with open = high = low = close = the tick's price, and
    that candle is handed to the chart after the ones handed before,
    which are left as they were. *)
Theorem foldTick_earlier_bucket (globalTime : Z) (f : Fold) (c : Candle)
    (tick : Tick) :
  let fresh := mkCandle (minuteTime (ts tick)) (price tick) (price tick)
                        (price tick) (price tick) in
  f_candle f = Some c ->
  (minuteTime (ts tick) < time c)%Z ->
  (ts tick <= globalTime)%Z ->
  foldTick (Some c) tick = fresh
  /\ f_candle (consume globalTime [tick] f) = Some fresh
  /\ f_out (consume globalTime [tick] f) = f_out f ++ [fresh]
  /\ f_price (consume globalTime [tick] f) = price tick.
Proof.
  intros fresh Hc Hlt Hle.
  assert (Hf : foldTick (Some c) tick = fresh).
  { unfold foldTick. destruct (Z.eqb (time c) (minuteTime (ts tick))) eqn:E;
      [|reflexivity].
    apply Z.eqb_eq in E. lia. }
  split; [exact Hf|]. cbn [consume].
  replace (Z.gtb (ts tick) globalTime) with false
    by (symmetry; rewrite Z.gtb_ltb; apply Z.ltb_ge; exact Hle).
  rewrite Hc, Hf. cbn. repeat split.
Qed.

Lemma foldTick_earlier_bucket_witness :
  let c := mkCandle 120 10 11 9 10 in
  let tick := mkTick 61000000000 12 1 571 in
  let f := mkFold 10 (Some c) 5 [c] in
  foldTick (Some c) tick = mkCandle 60 12 12 12 12
  /\ f_candle (consume 200000000000 [tick] f) = Some (mkCandle 60 12 12 12 12)
  /\ f_out (consume 200000000000 [tick] f) = [c] ++ [mkCandle 60 12 12 12 12]
  /\ f_price (consume 200000000000 [tick] f) = 12.
Proof.
  intros c tick f.
  apply (foldTick_earlier_bucket 200000000000 f c tick);
    [reflexivity | reflexivity | discriminate].
Defined.

(** C6 as stated fails: with the candle of minute 120 open, a tick of
    minute 60 is not folded into that candle's high/low/close; the open
    candle becomes one for the earlier bucket 60. *)
Lemma foldTick_earlier_bucket_counterexample :
  let c := mkCandle 120 10 11 9 10 in
  let tick := mkTick 61000000000 12 1 571 in
  (minuteTime (ts tick) < time c)%Z
  /\ foldTick (Some c) tick
     <> mkCandle (time c) (open c) (Qmax (high c) (price tick))
                 (Qmin (low c) (price tick)) (price tick)
  /\ time (foldTick (Some c) tick) = 60%Z.
Proof.
  cbv zeta. split; [reflexivity|]. split; [|reflexivity].
  intros E. apply (f_equal time) in E. discriminate E.
Qed.

(** ** Stop placement *)





(** ** Refill *)

(** C8 (as amended). Every page that arrives for a stream is appended to
    the stream's buffer as it is, whatever its timestamps: the buffer
    becomes the old buffer followed by the page in order, the cursor and
    the exhaustion flag are taken from the page, and no error is
    reported. *)
Theorem fetchResolved_appends (a : App) (data : TickPage) (key : Instrument) :
  let s := stream (engine a) key in
  let s' := stream (engine (fetchResolved data a)) key in
  awaited (refill a) = Some key ->
  buffer s' = buffer s ++ ticks data
  /\ cursor s' = nextCursor data
  /\ done s' = page_done data
  /\ lastLoadedIndex s' = lastLoadedIndex s
  /\ alerts (fetchResolved data a) = alerts a.
Proof.
  intros s s' Hk. subst s s'. unfold fetchResolved.
  destruct (refill a) as [|needsNq|]; cbn in Hk; [discriminate| |];
    inversion Hk; subst key.
  - destruct needsNq; cbn; repeat split.
  - cbn. repeat split.
Qed.

Lemma fetchResolved_appends_witness :
  let t1 := mkTick 100 (4500 # 1) 1 570 in
  let t2 := mkTick 200 (4501 # 1) 1 570 in
  let a0 := set_engine (sampleApp 0 0 ∅ 1)
              (mkEngine (mkStream [t1] 100 false (-1) 0 None) (emptyStream 0)
                        100 0 true MARKET_OPEN_MIN) in
  let a := set_refill a0 (AwaitEs false) [] in
  let a' := fetchResolved (mkTickPage [t2] 200 true) a in
  buffer (stream (engine a') es) = [t1] ++ [t2]
  /\ cursor (stream (engine a') es) = 200%Z
  /\ done (stream (engine a') es) = true
  /\ lastLoadedIndex (stream (engine a') es) = (-1)%Z
  /\ alerts a' = alerts a.
Proof.
  intros t1 t2 a0 a a'.
  apply (fetchResolved_appends a (mkTickPage [t2] 200 true) es). reflexivity.
Defined.

(** C8 as stated fails: a page whose tick is older than the last
    buffered tick is not rejected; it is appended and nothing is
    reported. *)
Lemma fetchResolved_out_of_order_counterexample :
  let t1 := mkTick 100 (4500 # 1) 1 570 in
  let old := mkTick 50 (4499 # 1) 1 570 in
  let a0 := set_engine (sampleApp 0 0 ∅ 1)
              (mkEngine (mkStream [t1] 100 false (-1) 0 None) (emptyStream 0)
                        100 0 true MARKET_OPEN_MIN) in
  let a := set_refill a0 (AwaitEs false) [] in
  let a' := fetchResolved (mkTickPage [old] 50 false) a in
  (ts old < ts t1)%Z
  /\ buffer (stream (engine a') es) = [t1; old]
  /\ buffer (stream (engine a') es) <> buffer (stream (engine a) es)
  /\ alerts a' = [].
Proof.
  cbv zeta. split; [reflexivity|]. split; [reflexivity|].
  split; [discriminate | reflexivity].
Qed.

(** C9 (as amended). One flag, [loadingMore], guards the refill of both
    streams. A check made while it is set issues no request, for either
    stream. A check made while it is clear issues exactly one request
    when a stream needs more (not done and
    buffer.length - lastLoadedIndex < 10000) and sets the flag: for ES
    when ES needs more, otherwise for NQ; when both need more the NQ
    request follows when the ES page has arrived. When no stream needs
    more the check does nothing. *)
Theorem checkAndFetchMore_flag (a : App) :
  let e := engine a in
  let a' := checkAndFetchMore a in
  (loadingMore e = true -> a' = a)
  /\ (loadingMore e = false ->
      needsMore (eng_es e) = true ->
      requests a' = requests a ++ [fetchTicks a es]
      /\ loadingMore (engine a') = true
      /\ refill a' = AwaitEs (needsMore (eng_nq e)))
  /\ (loadingMore e = false ->
      needsMore (eng_es e) = false ->
      needsMore (eng_nq e) = true ->
      requests a' = requests a ++ [fetchTicks a nq]
      /\ loadingMore (engine a') = true
      /\ refill a' = AwaitNq)
  /\ (loadingMore e = false ->
      needsMore (eng_es e) = false ->
      needsMore (eng_nq e) = false ->
      a' = a)
  /\ (forall data,
        refill a = AwaitEs true ->
        requests (fetchResolved data a)
          = requests a ++ [fetchTicks (fetchResolved data a) nq]
        /\ loadingMore (engine (fetchResolved data a)) = loadingMore e).
Proof.
  intros e a'. subst e a'. unfold checkAndFetchMore.
  split; [intros ->; reflexivity|].
  split; [intros -> ->; repeat split|].
  split; [intros -> -> ->; repeat split|].
  split; [intros -> -> ->; reflexivity|].
  intros data Hph. unfold fetchResolved. rewrite Hph. split; reflexivity.
Qed.

(** Nothing in flight and both streams short of ticks: the check asks
    for ES only and remembers that NQ is to follow. *)
Lemma checkAndFetchMore_flag_witness :
  let a := sampleApp 0 0 ∅ 1 in
  requests (checkAndFetchMore a) = requests a ++ [fetchTicks a es]
  /\ loadingMore (engine (checkAndFetchMore a)) = true
  /\ refill (checkAndFetchMore a) = AwaitEs (needsMore (eng_nq (engine a))).
Proof.
  intros a.
  destruct (checkAndFetchMore_flag a) as (_ & Hes & _).
  apply Hes; reflexivity.
Defined.

(** C9 as stated fails: while the refill of ES is outstanding, a check
    finds that NQ needs more and issues no request for it. *)
Lemma checkAndFetchMore_shared_flag_counterexample :
  let a0 := set_engine (sampleApp 0 0 ∅ 1)
              (mkEngine (emptyStream 0) (emptyStream 0) 0 0 true
                        MARKET_OPEN_MIN) in
  let a := set_refill a0 (AwaitEs false) [fetchTicks a0 es] in
  needsMore (eng_nq (engine a)) = true
  /\ requests (checkAndFetchMore a) = requests a
  /\ checkAndFetchMore a = a.
Proof. cbv zeta. repeat split. Qed.

(** ** Seeking *)

Lemma syncLoop_spec (targetMin : Z) (pending : list Tick) (s : Sync) :
  let l := syncTaken targetMin pending in
  let r := syncLoop targetMin pending s in
  s_idx r = (s_idx s + Z.of_nat (length l))%Z
  /\ s_candle r = List.last (map Some (trace (s_candle s) l)) (s_candle s)
  /\ s_price r = List.last (map price l) (s_price s)
  /\ s_clock r
     = (if s_caughtUp s then s_clock s
        else match firstAt targetMin pending with
             | Some tick => ts tick
             | None => s_clock s
             end)
  /\ s_caughtUp r
     = s_caughtUp s || bool_decide (is_Some (firstAt targetMin pending)).
Proof.
  revert s. induction pending as [|tick rest IH]; intros s; cbn zeta.
  - cbn. rewrite orb_false_r. repeat split; [lia|].
    destruct (s_caughtUp s); reflexivity.
  - cbn [syncLoop syncTaken firstAt].
    destruct (Z.geb (m tick) targetMin).
    + destruct (s_caughtUp s) eqn:Ec; cbn; rewrite ?Ec; repeat split; lia.
    + destruct (IH (mkSync (price tick) (Some (foldTick (s_candle s) tick))
                          (s_idx s + 1)
                          match s_candle s with
                          | Some old =>
                              if negb (Z.eqb (time old) (minuteTime (ts tick)))
                              then update (s_out s) old else s_out s
                          | None => s_out s
                          end (s_clock s) (s_caughtUp s)))
        as (Hi & Hc & Hp & Hk & Hu).
      cbn zeta in Hi, Hc, Hp, Hk, Hu. cbn [s_idx s_candle s_price s_clock s_caughtUp] in *.
      rewrite Hi, Hc, Hp, Hk, Hu. cbn [length trace map].
      rewrite !last_after. repeat split. lia.
Qed.

Lemma processSync_spec (targetMin : Z) (key : Instrument) (a : App)
    (caughtUp : bool) :
  let state := stream (engine a) key in
  let l := syncTaken targetMin (buffer state) in
  let r := processSync targetMin key (a, caughtUp) in
  lastLoadedIndex state = (-1)%Z ->
  (buffer (stream (engine (fst r)) key) = buffer state
   /\ lastLoadedIndex (stream (engine (fst r)) key)
      = (Z.of_nat (length l) - 1)%Z
   /\ candle (stream (engine (fst r)) key)
      = List.last (map Some (trace (candle state) l)) (candle state))
  /\ (forall other, other <> key ->
        stream (engine (fst r)) other = stream (engine a) other)
  /\ globalTimeBig (engine (fst r))
     = (if caughtUp then globalTimeBig (engine a)
        else match firstAt targetMin (buffer state) with
             | Some tick => ts tick
             | None => globalTimeBig (engine a)
             end)
  /\ snd r = caughtUp || bool_decide (is_Some (firstAt targetMin (buffer state)))
  /\ alerts (fst r) = alerts a
  /\ isPlaying (fst r) = isPlaying a.
Proof.
  intros state l r Hidx. subst r. unfold processSync. fold state.
  destruct (buffer state) as [|tick rest] eqn:Eb.
  - cbn. subst l. rewrite ?Eb. cbn. fold state. rewrite Eb, Hidx, orb_false_r.
    repeat split. destruct caughtUp; reflexivity.
  - cbn [length Nat.eqb]. rewrite Hidx.
    change (-1 + 1)%Z with 0%Z. change (Z.to_nat 0) with 0%nat.
    change (drop 0 (tick :: rest)) with (tick :: rest).
    destruct (syncLoop_spec targetMin (tick :: rest)
                (mkSync (currentPrice state) (candle state) 0
                        (chart a key) (globalTimeBig (engine a)) caughtUp))
      as (Hi & Hc & Hp & Hk & Hu).
    cbn zeta in Hi, Hc, Hp, Hk, Hu.
    cbn [s_idx s_candle s_price s_clock s_caughtUp] in Hi, Hc, Hk, Hu.
    cbn [fst snd].
    change (engine (set_chart ?x _ _)) with (engine x).
    change (engine (set_engine _ ?e)) with e.
    rewrite stream_set_stream. cbn [buffer lastLoadedIndex candle].
    subst l. rewrite ?Eb.
    split; [split; [reflexivity|split; [rewrite Hi; lia | exact Hc]]|].
    split; [intros other Hne; rewrite stream_set_stream_ne by congruence;
            destruct other; reflexivity|].
    split; [rewrite clock_set_stream; exact Hk|].
    split; [exact Hu|]. split; reflexivity.
Qed.

Lemma filter_none {A : Type} (f : A -> bool) (l : list A) :
  (forall x, In x l -> f x = false) -> List.filter f l = [].
Proof.
  induction l as [|x l IH]; intros H; [reflexivity|]. cbn.
  rewrite (H x) by (left; reflexivity). apply IH.
  intros y Hy. apply H. right. exact Hy.
Qed.

Lemma syncTaken_filter (targetMin : Z) (l : list Tick) :
  mOrdered l ->
  syncTaken targetMin l = List.filter (fun tick => Z.ltb (m tick) targetMin) l.
Proof.
  intros H.
  assert (Hs : StronglySorted (fun x y => (m x <= m y)%Z) l).
  { apply Sorted.Sorted_StronglySorted; [|exact H]. intros x y z Hxy Hyz. lia. }
  clear H. induction Hs as [|tick rest Hs IH Hall]; [reflexivity|].
  cbn. destruct (Z.geb (m tick) targetMin) eqn:E.
  - rewrite Z.geb_leb in E. apply Z.leb_le in E.
    replace (Z.ltb (m tick) targetMin) with false
      by (symmetry; apply Z.ltb_ge; exact E).
    symmetry. apply filter_none. intros x Hin.
    rewrite List.Forall_forall in Hall. specialize (Hall x Hin).
    apply Z.ltb_ge. lia.
  - rewrite Z.geb_leb in E. apply Z.leb_gt in E.
    replace (Z.ltb (m tick) targetMin) with true
      by (symmetry; apply Z.ltb_lt; exact E).
    rewrite IH. reflexivity.
Qed.

Lemma firstAt_found (targetMin : Z) (l : list Tick) (t : Tick) :
  firstAt targetMin l = Some t -> In t l /\ (targetMin <= m t)%Z.
Proof.
  induction l as [|tick rest IH]; cbn; [discriminate|].
  destruct (Z.geb (m tick) targetMin) eqn:E.
  - intros H. inversion H; subst. split; [left; reflexivity|].
    rewrite Z.geb_leb in E. apply Z.leb_le in E. exact E.
  - intros H. destruct (IH H) as [Hin Hm]. split; [right; exact Hin | exact Hm].
Qed.

Lemma firstAt_none (targetMin : Z) (l : list Tick) :
  firstAt targetMin l = None ->
  forall tick, In tick l -> (m tick < targetMin)%Z.
Proof.
  induction l as [|tick0 rest IH]; cbn; [intros _ tick []|].
  destruct (Z.geb (m tick0) targetMin) eqn:E; [discriminate|].
  rewrite Z.geb_leb in E. apply Z.leb_gt in E.
  intros H tick [<-|Hin]; [exact E | exact (IH H tick Hin)].
Qed.

Lemma firstAt_earliest (targetMin : Z) (l : list Tick) (t : Tick) :
  tsOrdered l ->
  firstAt targetMin l = Some t ->
  forall tick, In tick l -> (targetMin <= m tick)%Z -> (ts t <= ts tick)%Z.
Proof.
  intros H. apply tsOrdered_strong in H.
  induction H as [|tick0 rest Hs IH Hall]; cbn; [discriminate|].
  destruct (Z.geb (m tick0) targetMin) eqn:E.
  - intros Ht tick [<-|Hin] _; inversion Ht; subst; [lia|].
    rewrite List.Forall_forall in Hall. exact (Hall tick Hin).
  - rewrite Z.geb_leb in E. apply Z.leb_gt in E.
    intros Ht tick [<-|Hin] Hm; [lia | exact (IH Ht tick Hin Hm)].
Qed.

Lemma showCandle_frame (key : Instrument) (a : App) :
  engine (showCandle key a) = engine a
  /\ alerts (showCandle key a) = alerts a
  /\ isPlaying (showCandle key a) = isPlaying a.
Proof.
  unfold showCandle. destruct (candle (stream (engine a) key));
    repeat split.
Qed.

(** What a seek leaves behind, exactly. *)
Lemma loadData_sync (dayToLoad : string) (targetMin : Z)
    (esData nqData : TickPage) (a : App) :
  let a' := loadData dayToLoad targetMin (Some (esData, nqData)) a in
  let startNs := startOf (firstTs esData) (firstTs nqData) in
  let page := fun key => match key with es => esData | nq => nqData end in
  dayToLoad <> "" ->
  startNs <> 0%Z ->
  (MARKET_OPEN_MIN < targetMin)%Z ->
  (forall key,
     buffer (stream (engine a') key) = ticks (page key)
     /\ lastLoadedIndex (stream (engine a') key)
        = (Z.of_nat (length (syncTaken targetMin (ticks (page key)))) - 1)%Z
     /\ candle (stream (engine a') key)
        = List.last
            (map Some (trace None (syncTaken targetMin (ticks (page key)))))
            None)
  /\ globalTimeBig (engine a')
     = match firstAt targetMin (ticks esData) with
       | Some tick => ts tick
       | None =>
           match firstAt targetMin (ticks nqData) with
           | Some tick => ts tick
           | None => startNs
           end
       end
  /\ alerts a' = alerts a
  /\ isPlaying a' = true.
Proof.
  intros a' startNs page Hday Hstart Htarget. subst a'. unfold loadData.
  rewrite bool_decide_eq_false_2 by exact Hday.
  fold startNs. rewrite (proj2 (Z.eqb_neq startNs 0) Hstart).
  replace (Z.gtb targetMin MARKET_OPEN_MIN) with true
    by (symmetry; rewrite Z.gtb_ltb; apply Z.ltb_lt; exact Htarget).
  match goal with
  | |- context [processSync targetMin es (?x, false)] => set (a2 := x)
  end.
  pose proof (processSync_spec targetMin es a2 false eq_refl) as H1.
  destruct (processSync targetMin es (a2, false)) as [a3 cu] eqn:E1.
  cbn zeta in H1. cbn [fst snd] in H1.
  destruct H1 as ((Hb1 & Hi1 & Hc1) & Ho1 & Hk1 & Hu1 & Hal1 & Hp1).
  assert (Hnq : stream (engine a3) nq = stream (engine a2) nq)
    by (apply Ho1; discriminate).
  pose proof (processSync_spec targetMin nq a3 cu) as H2.
  destruct (processSync targetMin nq (a3, cu)) as [a4 cu'] eqn:E2.
  cbn zeta in H2. cbn [fst snd] in H2. rewrite Hnq in H2.
  destruct (H2 eq_refl) as ((Hb2 & Hi2 & Hc2) & Ho2 & Hk2 & Hu2 & Hal2 & Hp2).
  assert (Hes : stream (engine a4) es = stream (engine a3) es)
    by (apply Ho2; discriminate).
  cbn [fst].
  destruct (showCandle_frame es a4) as (Hse1 & Hsa1 & Hsp1).
  destruct (showCandle_frame nq (showCandle es a4)) as (Hse2 & Hsa2 & Hsp2).
  change (engine (set_isPlaying ?x _)) with (engine x).
  change (alerts (set_isPlaying ?x _)) with (alerts x).
  rewrite Hse2, Hse1, Hsa2, Hsa1, Hal2, Hal1.
  split; [|split; [|split; reflexivity]].
  - intros [|].
    + rewrite Hes, Hb1, Hi1, Hc1. repeat split.
    + rewrite Hb2, Hi2, Hc2. repeat split.
  - rewrite Hk2, Hu1, Hk1. cbn [orb].
    change (buffer (stream (engine a2) es)) with (ticks esData).
    change (buffer (stream (engine a2) nq)) with (ticks nqData).
    change (globalTimeBig (engine a2)) with startNs.
    destruct (firstAt targetMin (ticks esData)) as [t|].
    + rewrite bool_decide_eq_true_2 by eauto. reflexivity.
    + rewrite bool_decide_eq_false_2 by (intros [x Hx]; discriminate).
      reflexivity.
Qed.

(** C4 (as amended). After a seek to minute m on a loaded session, for
    each instrument the ticks before its first tick at or after m, which
    are all its ticks of a minute before m when the page is ordered by
    minute, have been folded into candles. When ES's first tick at or
    after m is not later than NQ's, or only one instrument has such a
    tick, the clock is the earliest timestamp over both instruments of a
    tick at or after m. When no instrument has such a tick the seek does
    not fail: nothing is reported, the clock stays at the start of the
    session and playback starts. *)
Theorem loadData_seek (dayToLoad : string) (targetMin : Z)
    (esData nqData : TickPage) (a : App) :
  let a' := loadData dayToLoad targetMin (Some (esData, nqData)) a in
  let startNs := startOf (firstTs esData) (firstTs nqData) in
  let page := fun key => match key with es => esData | nq => nqData end in
  let clock := globalTimeBig (engine a') in
  dayToLoad <> "" ->
  startNs <> 0%Z ->
  (MARKET_OPEN_MIN < targetMin)%Z ->
  (forall key,
     let folded := syncTaken targetMin (ticks (page key)) in
     buffer (stream (engine a') key) = ticks (page key)
     /\ lastLoadedIndex (stream (engine a') key)
        = (Z.of_nat (length folded) - 1)%Z
     /\ candle (stream (engine a') key)
        = List.last (map Some (trace None folded)) None
     /\ (mOrdered (ticks (page key)) ->
         folded = List.filter (fun tick => Z.ltb (m tick) targetMin)
                              (ticks (page key))))
  /\ (esNotLater targetMin (ticks esData) (ticks nqData) ->
      tsOrdered (ticks esData) ->
      tsOrdered (ticks nqData) ->
      (exists key tick,
         In tick (ticks (page key)) /\ (targetMin <= m tick)%Z
         /\ clock = ts tick)
      /\ (forall key tick,
            In tick (ticks (page key)) -> (targetMin <= m tick)%Z ->
            (clock <= ts tick)%Z))
  /\ (firstAt targetMin (ticks esData) = None ->
      firstAt targetMin (ticks nqData) = None ->
      clock = startNs /\ alerts a' = alerts a /\ isPlaying a' = true).
Proof.
  intros a' startNs page clock Hday Hstart Htarget.
  destruct (loadData_sync dayToLoad targetMin esData nqData a Hday Hstart Htarget)
    as (Hstreams & Hclock & Halerts & Hplay).
  fold a' in Hstreams, Hclock, Halerts, Hplay. fold startNs in Hclock.
  fold clock in Hclock.
  split; [|split].
  - intros key folded. destruct (Hstreams key) as (Hb & Hi & Hc).
    split; [exact Hb|]. split; [exact Hi|]. split; [exact Hc|].
    apply syncTaken_filter.
  - unfold esNotLater. intros Hcase Hoes Honq.
    destruct (firstAt targetMin (ticks esData)) as [t|] eqn:Ees;
      destruct (firstAt targetMin (ticks nqData)) as [t'|] eqn:Enq;
      try contradiction.
    + destruct (firstAt_found _ _ _ Ees) as [Hin Hm]. split.
      * exists es, t. auto.
      * intros [|] tick Hin' Hm'; rewrite Hclock.
        -- exact (firstAt_earliest _ _ _ Hoes Ees tick Hin' Hm').
        -- pose proof (firstAt_earliest _ _ _ Honq Enq tick Hin' Hm'). lia.
    + destruct (firstAt_found _ _ _ Ees) as [Hin Hm]. split.
      * exists es, t. auto.
      * intros [|] tick Hin' Hm'; rewrite Hclock.
        -- exact (firstAt_earliest _ _ _ Hoes Ees tick Hin' Hm').
        -- pose proof (firstAt_none _ _ Enq tick Hin'). lia.
    + destruct (firstAt_found _ _ _ Enq) as [Hin Hm]. split.
      * exists nq, t'. auto.
      * intros [|] tick Hin' Hm'; rewrite Hclock.
        -- pose proof (firstAt_none _ _ Ees tick Hin'). lia.
        -- exact (firstAt_earliest _ _ _ Honq Enq tick Hin' Hm').
  - intros Ees Enq. rewrite Ees, Enq in Hclock. auto.
Qed.

(** A seek to 10:00 (minute 600) with ES at 9:40 and 10:00 and NQ at
    10:01 loaded: no tick before 10:00 is left unfolded. *)
Lemma loadData_seek_witness :
  let e1 := mkTick 1000 (4500 # 1) 1 580 in
  let e2 := mkTick 2000 (4501 # 1) 1 600 in
  let n1 := mkTick 2500 (15000 # 1) 1 601 in
  let a' := loadData "2024-01-02" 600
              (Some (mkTickPage [e1; e2] 2000 true, mkTickPage [n1] 2500 true))
              (sampleApp 0 0 ∅ 1) in
  lastLoadedIndex (stream (engine a') es) = 0%Z
  /\ lastLoadedIndex (stream (engine a') nq) = (-1)%Z.
Proof.
  intros e1 e2 n1 a'.
  destruct (loadData_seek "2024-01-02" 600
              (mkTickPage [e1; e2] 2000 true) (mkTickPage [n1] 2500 true)
              (sampleApp 0 0 ∅ 1))
    as (Hfold & _ & _); [discriminate | discriminate | reflexivity |].
  destruct (Hfold es) as (_ & Hes & _). destruct (Hfold nq) as (_ & Hnq & _).
  split; [exact Hes | exact Hnq].
Defined.

(** C4 as stated fails twice. With ES's first tick at or after the
    target later than NQ's, the clock is ES's timestamp, not the earlier
    one of NQ. With no tick at or after the target on either instrument,
    nothing is reported and the session starts with the ticks folded. *)
Lemma loadData_seek_counterexample :
  (let e1 := mkTick 200 (4500 # 1) 1 600 in
   let n1 := mkTick 100 (15000 # 1) 1 600 in
   let a' := loadData "2024-01-02" 600
               (Some (mkTickPage [e1] 200 true, mkTickPage [n1] 100 true))
               (sampleApp 0 0 ∅ 1) in
   globalTimeBig (engine a') = 200%Z
   /\ (m n1 >= 600)%Z /\ (ts n1 < globalTimeBig (engine a'))%Z)
  /\ (let e1 := mkTick 100 (4500 # 1) 1 580 in
      let a' := loadData "2024-01-02" 600
                  (Some (mkTickPage [e1] 100 true, mkTickPage [] 0 true))
                  (sampleApp 0 0 ∅ 1) in
      firstAt 600 [e1] = None
      /\ alerts a' = []
      /\ isPlaying a' = true
      /\ lastLoadedIndex (stream (engine a') es) = 0%Z
      /\ globalTimeBig (engine a') = 100%Z).
Proof.
  cbv zeta. split.
  - split; [reflexivity|]. split; [discriminate | reflexivity].
  - repeat split.
Qed.

(** ** Frames *)

Lemma processInstrumentTick_replay (globalTime : Z) (a : App) :
  replay (processInstrumentTick es globalTime a)
  = mkReplay (r_clock (replay a)) (r_last (replay a))
             (processed globalTime (r_es (replay a))) (r_nq (replay a))
  /\ replay (processInstrumentTick nq globalTime a)
     = mkReplay (r_clock (replay a)) (r_last (replay a))
                (r_es (replay a)) (processed globalTime (r_nq (replay a)))
  /\ (forall key,
        isPlaying (processInstrumentTick key globalTime a) = isPlaying a
        /\ playbackSpeed (processInstrumentTick key globalTime a)
           = playbackSpeed a).
Proof.
  unfold processInstrumentTick, processed, replay. cbn.
  split; [|split].
  - destruct (chart_es a) eqn:E; cbn; rewrite ?E; [|reflexivity].
    destruct (Nat.eqb _ 0); cbn; rewrite ?E; reflexivity.
  - destruct (chart_nq a) eqn:E; cbn; rewrite ?E; [|reflexivity].
    destruct (Nat.eqb _ 0); cbn; rewrite ?E; reflexivity.
  - intros key. destruct (chart a key); [|split; reflexivity].
    destruct (Nat.eqb _ 0); split; reflexivity.
Qed.

Lemma updatePnL_replay (a : App) :
  replay (updatePnL a) = replay a
  /\ isPlaying (updatePnL a) = isPlaying a
  /\ playbackSpeed (updatePnL a) = playbackSpeed a.
Proof.
  unfold updatePnL. destruct (fold_left _ _ _) as [next bal].
  repeat split.
Qed.

Lemma checkAndFetchMore_replay (a : App) :
  replay (checkAndFetchMore a) = replay a
  /\ isPlaying (checkAndFetchMore a) = isPlaying a
  /\ playbackSpeed (checkAndFetchMore a) = playbackSpeed a.
Proof.
  unfold checkAndFetchMore.
  destruct (loadingMore (engine a)); [repeat split|].
  destruct (negb _ && negb _); [repeat split|].
  destruct (needsMore (eng_es (engine a))); repeat split.
Qed.

Lemma loop_replay (timestamp : Q) (a : App) :
  isPlaying a = true ->
  replay (loop timestamp a) = frame (playbackSpeed a) timestamp (replay a)
  /\ isPlaying (loop timestamp a) = true
  /\ playbackSpeed (loop timestamp a) = playbackSpeed a.
Proof.
  intros Hplay. unfold loop. rewrite Hplay. cbn [negb].
  set (e := engine a).
  set (cg := (globalTimeBig e + _)%Z).
  set (a1 := set_engine a _).
  destruct (processInstrumentTick_replay cg a1) as (Hes & _ & Hk1).
  destruct (processInstrumentTick_replay cg (processInstrumentTick es cg a1))
    as (_ & Hnq & Hk2).
  destruct (updatePnL_replay
              (processInstrumentTick nq cg (processInstrumentTick es cg a1)))
    as (Hu & Hup & Hus).
  destruct (checkAndFetchMore_replay
              (updatePnL (processInstrumentTick nq cg
                            (processInstrumentTick es cg a1))))
    as (Hc & Hcp & Hcs).
  rewrite Hc, Hu, Hnq, Hes, Hcp, Hup, Hcs, Hus.
  rewrite (proj1 (Hk2 nq)), (proj2 (Hk2 nq)), (proj1 (Hk1 es)), (proj2 (Hk1 es)).
  cbn. split; [reflexivity|]. split; [exact Hplay | reflexivity].
Qed.

(** Folding up to [t1] and then on up to [t2] is folding up to [t2]. *)
Lemma consume_twice (t1 t2 : Z) (pending : list Tick) (f : Fold) :
  (t1 <= t2)%Z ->
  consume t2 (drop (length (taken t1 pending)) pending) (consume t1 pending f)
  = consume t2 pending f.
Proof.
  intros Hle. revert f. induction pending as [|tick rest IH]; intros f.
  - reflexivity.
  - cbn [taken consume]. destruct (Z.gtb (ts tick) t1) eqn:E1.
    + reflexivity.
    + cbn [length drop].
      replace (Z.gtb (ts tick) t2) with false.
      * apply IH.
      * symmetry. rewrite Z.gtb_ltb in *. apply Z.ltb_ge.
        apply Z.ltb_ge in E1. lia.
Qed.

Lemma Fold_eta (f : Fold) :
  mkFold (f_price f) (f_candle f) (f_idx f) (f_out f) = f.
Proof. destruct f; reflexivity. Qed.

Lemma processed_index (globalTime : Z) (sc : Stream * option (list Candle)) :
  (-1 <= lastLoadedIndex (fst sc))%Z ->
  (-1 <= lastLoadedIndex (fst (processed globalTime sc)))%Z.
Proof.
  intros H. unfold processed. destruct (snd sc); [|exact H].
  destruct (Nat.eqb _ 0); [exact H|]. cbn.
  destruct (consume_trace globalTime
              (drop (Z.to_nat (lastLoadedIndex (fst sc) + 1)) (buffer (fst sc)))
              (mkFold (currentPrice (fst sc)) (candle (fst sc))
                      (lastLoadedIndex (fst sc) + 1) l)) as (_ & Hi & _).
  cbn in Hi. rewrite Hi. lia.
Qed.

Lemma processed_twice (t1 t2 : Z) (sc : Stream * option (list Candle)) :
  (t1 <= t2)%Z ->
  (-1 <= lastLoadedIndex (fst sc))%Z ->
  processed t2 (processed t1 sc) = processed t2 sc.
Proof.
  intros Hle Hidx. destruct sc as [state ch]. cbn [fst] in Hidx.
  unfold processed at 2 3.
  cbn [fst snd]. destruct ch as [series|]; [|reflexivity].
  destruct (Nat.eqb (length (buffer state)) 0) eqn:Eb;
    [unfold processed; cbn [fst snd]; rewrite Eb; reflexivity|].
  set (idx := (lastLoadedIndex state + 1)%Z).
  set (pending := drop (Z.to_nat idx) (buffer state)).
  set (f0 := mkFold (currentPrice state) (candle state) idx series).
  unfold processed. cbn [fst snd buffer cursor done lastLoadedIndex
                           currentPrice candle].
  rewrite Eb.
  destruct (consume_trace t1 pending f0) as (_ & Hi & _).
  cbn zeta in Hi. cbn [f_idx f0] in Hi.
  replace (f_idx (consume t1 pending f0) - 1 + 1)%Z
    with (f_idx (consume t1 pending f0)) by lia.
  rewrite Fold_eta.
  replace (drop (Z.to_nat (f_idx (consume t1 pending f0))) (buffer state))
    with (drop (length (taken t1 pending)) pending).
  - rewrite consume_twice by exact Hle. reflexivity.
  - subst pending. rewrite drop_drop. f_equal. rewrite Hi.
    change (f_idx f0) with idx. subst idx. lia.
Qed.

Lemma advanced_nonneg (speed t0 : Q) (stamps : list Q) :
  0 <= speed -> ascending t0 stamps -> (0 <= advanced speed t0 stamps)%Z.
Proof.
  intros Hs. revert t0.
  induction stamps as [|t rest IH]; intros t0; cbn [advanced ascending].
  - lia.
  - intros [Hle Hasc]. specialize (IH t Hasc).
    assert (0 <= Qfloor ((t - t0) * 1000000 * speed))%Z; [|lia].
    change 0%Z with (Qfloor 0). apply Qfloor_resp_le.
    apply Qmult_le_0_compat; [|exact Hs].
    apply Qmult_le_0_compat; [|discriminate].
    unfold Qminus. rewrite <- (Qplus_opp_r t0).
    apply Qplus_le_compat; [exact Hle | apply Qle_refl].
Qed.

Lemma ascending_last (t0 : Q) (stamps : list Q) :
  ascending t0 stamps -> t0 <= List.last stamps t0.
Proof.
  revert t0. induction stamps as [|t rest IH]; intros t0; cbn [ascending].
  - intros _. apply Qle_refl.
  - intros [Hle Hasc]. rewrite last_after.
    eapply Qle_trans; [exact Hle | apply IH, Hasc].
Qed.

Lemma advanced_whole (speed t0 : Q) (stamps : list Q) :
  wholeFrames speed t0 stamps ->
  inject_Z (advanced speed t0 stamps)
  == (List.last stamps t0 - t0) * 1000000 * speed.
Proof.
  revert t0. induction stamps as [|t rest IH]; intros t0.
  - intros _. cbn. ring.
  - intros [Hw Hrest]. cbn [advanced]. rewrite last_after, inject_Z_plus.
    rewrite (IH t Hrest). unfold isWhole in Hw. rewrite Hw. ring.
Qed.

Lemma frames_run (speed : Q) (stamps : list Q) (t0 : Q) (r : Replay) :
  r_last r = t0 ->
  0 < t0 ->
  0 <= speed ->
  ascending t0 stamps ->
  (-1 <= lastLoadedIndex (fst (r_es r)))%Z ->
  (-1 <= lastLoadedIndex (fst (r_nq r)))%Z ->
  stamps <> [] ->
  fold_left (fun r t => frame speed t r) stamps r
  = mkReplay (r_clock r + advanced speed t0 stamps) (List.last stamps t0)
             (processed (r_clock r + advanced speed t0 stamps) (r_es r))
             (processed (r_clock r + advanced speed t0 stamps) (r_nq r)).
Proof.
  intros Hlast Hpos Hs. revert t0 r Hlast Hpos.
  induction stamps as [|t rest IH]; intros t0 r Hlast Hpos Hasc Hes Hnq Hne;
    [congruence|].
  destruct Hasc as [Hle Hasc]. cbn [fold_left advanced].
  assert (Hframe : frame speed t r
                   = mkReplay (r_clock r + Qfloor ((t - t0) * 1000000 * speed)) t
                       (processed (r_clock r + Qfloor ((t - t0) * 1000000 * speed))
                                  (r_es r))
                       (processed (r_clock r + Qfloor ((t - t0) * 1000000 * speed))
                                  (r_nq r))).
  { unfold frame. rewrite Hlast.
    rewrite truthy_true; [reflexivity|].
    intros E. rewrite E in Hpos. exact (Qlt_irrefl _ Hpos). }
  rewrite Hframe, last_after. clear Hframe.
  set (c1 := (r_clock r + Qfloor ((t - t0) * 1000000 * speed))%Z).
  destruct rest as [|t' rest'].
  - cbn. subst c1. rewrite Z.add_0_r. reflexivity.
  - assert (Hpos' : 0 < t) by (eapply Qlt_le_trans; [exact Hpos | exact Hle]).
    rewrite (IH t (mkReplay c1 t (processed c1 (r_es r)) (processed c1 (r_nq r))));
      [|reflexivity | exact Hpos' | exact Hasc
       |apply processed_index, Hes | apply processed_index, Hnq | discriminate].
    cbn [r_clock r_es r_nq].
    pose proof (advanced_nonneg speed t (t' :: rest') Hs Hasc) as Hadv.
    rewrite !processed_twice by (first [lia | assumption]).
    subst c1. rewrite <- !Z.add_assoc. reflexivity.
Qed.

Lemma loops_replay (stamps : list Q) (a : App) :
  isPlaying a = true ->
  replay (fold_left (fun a t => loop t a) stamps a)
  = fold_left (fun r t => frame (playbackSpeed a) t r) stamps (replay a).
Proof.
  revert a. induction stamps as [|t rest IH]; intros a Hplay; [reflexivity|].
  cbn [fold_left].
  destruct (loop_replay t a Hplay) as (Hr & Hp & Hs).
  rewrite (IH (loop t a) Hp), Hr, Hs. reflexivity.
Qed.

(** C3 (as amended). A frame advances the clock by
    floor(wallDeltaMs * 1_000_000 * speedMultiplier) nanoseconds. When
    that product is a whole number of nanoseconds in every frame, frames
    at successive timestamps leave the same clock, the same streams
    (index, price and open candle) and the same candles on the charts as
    the one frame at the last timestamp, whatever the buffers hold and
    for every speed in [1,500]. *)
Theorem loop_split (a : App) (stamps : list Q) :
  let t0 := lastFrameTime (engine a) in
  let speed := playbackSpeed a in
  let split := fold_left (fun a t => loop t a) stamps a in
  let single := loop (List.last stamps t0) a in
  isPlaying a = true ->
  0 < t0 ->
  1 <= speed /\ speed <= 500 ->
  stamps <> [] ->
  ascending t0 stamps ->
  wholeFrames speed t0 stamps ->
  (-1 <= lastLoadedIndex (eng_es (engine a)))%Z ->
  (-1 <= lastLoadedIndex (eng_nq (engine a)))%Z ->
  globalTimeBig (engine split) = globalTimeBig (engine single)
  /\ eng_es (engine split) = eng_es (engine single)
  /\ eng_nq (engine split) = eng_nq (engine single)
  /\ chart_es split = chart_es single
  /\ chart_nq split = chart_nq single
  /\ globalTimeBig (engine single)
     = (globalTimeBig (engine a)
        + Qfloor ((List.last stamps t0 - t0) * 1000000 * speed))%Z.
Proof.
  intros t0 speed split single Hplay Hpos [Hs1 Hs500] Hne Hasc Hwhole Hes Hnq.
  assert (Hs : 0 <= speed) by (eapply Qle_trans; [|exact Hs1]; discriminate).
  assert (Hsplit : replay split
                   = fold_left (fun r t => frame speed t r) stamps (replay a))
    by (apply loops_replay, Hplay).
  assert (Hsingle : replay single
                    = fold_left (fun r t => frame speed t r)
                                [List.last stamps t0] (replay a))
    by (apply (loops_replay [List.last stamps t0] a), Hplay).
  rewrite (frames_run speed stamps t0 (replay a)) in Hsplit
    by (first [reflexivity | assumption]).
  rewrite (frames_run speed [List.last stamps t0] t0 (replay a)) in Hsingle
    by (first [reflexivity | assumption | discriminate
              | split; [apply ascending_last, Hasc | exact I]]).
  assert (Hadv : advanced speed t0 stamps
                 = advanced speed t0 [List.last stamps t0]).
  { cbn [advanced]. rewrite Z.add_0_r.
    rewrite <- (Qfloor_Z (advanced speed t0 stamps)).
    apply Qfloor_comp, advanced_whole, Hwhole. }
  rewrite Hadv in Hsplit. cbn [List.last] in Hsingle.
  assert (Heq : replay split = replay single) by congruence.
  split; [exact (f_equal r_clock Heq)|].
  split; [exact (f_equal (fun r => fst (r_es r)) Heq)|].
  split; [exact (f_equal (fun r => fst (r_nq r)) Heq)|].
  split; [exact (f_equal (fun r => snd (r_es r)) Heq)|].
  split; [exact (f_equal (fun r => snd (r_nq r)) Heq)|].
  pose proof (f_equal r_clock Hsingle) as Hc.
  cbn [r_clock replay advanced] in Hc. rewrite Z.add_0_r in Hc. exact Hc.
Qed.

(** Frames at 1016 ms and 1033 ms against the one frame at 1033 ms. *)
Lemma loop_split_witness :
  let a := splitSample in
  let t0 := lastFrameTime (engine a) in
  let split := fold_left (fun a t => loop t a) [1016; 1033] a in
  let single := loop (List.last [1016; 1033] t0) a in
  globalTimeBig (engine split) = globalTimeBig (engine single)
  /\ eng_es (engine split) = eng_es (engine single)
  /\ eng_nq (engine split) = eng_nq (engine single)
  /\ chart_es split = chart_es single
  /\ chart_nq split = chart_nq single
  /\ globalTimeBig (engine single)
     = (globalTimeBig (engine a)
        + Qfloor ((List.last [1016; 1033] t0 - t0) * 1000000
                  * playbackSpeed a)%Q)%Z.
Proof.
  refine (loop_split splitSample [1016; 1033] _ _ _ _ _ _ _ _).
  - reflexivity.
  - reflexivity.
  - split; discriminate.
  - discriminate.
  - repeat split; discriminate.
  - repeat split; vm_compute; reflexivity.
  - discriminate.
  - discriminate.
Defined.

(** C3 as stated fails: two frames of 0.75 ns each add nothing to the
    clock, the one frame of 1.5 ns adds a nanosecond and folds the tick
    that is due then. *)
Lemma loop_split_counterexample :
  let tick := mkTick 1 (4500 # 1) 1 570 in
  let a := mkApp (mkEngine (mkStream [tick] 0 true (-1) 0 None)
                           (emptyStream 0) 0 1 false MARKET_OPEN_MIN)
                 ∅ 100000 1 MINI 1 true "2024-01-02" None (Some []) (Some [])
                 [] Idle [] in
  let d1 := 3 # 4000000 in
  let d2 := 3 # 4000000 in
  let split := loop (1 + d1 + d2) (loop (1 + d1) a) in
  let single := loop (1 + (d1 + d2)) a in
  globalTimeBig (engine split) = 0%Z
  /\ globalTimeBig (engine single) = 1%Z
  /\ candle (eng_es (engine split)) = None
  /\ candle (eng_es (engine single)) = Some (mkCandle 0 4500 4500 4500 4500).
Proof. vm_compute. repeat split. Qed.

(** * Further properties *)

(** ** Orders and the account *)






Lemma gtb_lt (x y : Q) : gtb x y = true -> y < x.
Proof.
  unfold gtb. intros H. apply negb_true_iff in H.
  apply Qle_bool_false. exact H.
Qed.

Lemma gtb_eqb_lt (x y : Q) : gtb x y = false -> eqb x y = false -> x < y.
Proof.
  unfold gtb, eqb. intros Hg He. apply negb_false_iff, Qle_bool_iff in Hg.
  apply QOrderedType.QOrder.le_neq_lt; [exact Hg|].
  intros E. apply Qeq_bool_iff in E. congruence.
Qed.

Lemma Qlt_minus_pos (x y : Q) : x < y -> 0 < y - x.
Proof. intros H. apply Qlt_minus_iff in H. exact H. Qed.

Lemma sizes_insert (ps : gmap Instrument Position) (k : Instrument)
    (pos : Position) :
  bookSizesPositive ps -> 0 < size pos -> bookSizesPositive (<[k := pos]> ps).
Proof.
  intros Hb Hs k' pos' Hl. destruct (decide (k = k')) as [->|Hne].
  - rewrite lookup_insert_eq in Hl. inversion Hl; subst. exact Hs.
  - rewrite lookup_insert_ne in Hl by exact Hne. exact (Hb k' pos' Hl).
Qed.

Lemma sizes_delete (ps : gmap Instrument Position) (k : Instrument) :
  bookSizesPositive ps -> bookSizesPositive (delete k ps).
Proof.
  intros Hb k' pos' Hl. destruct (decide (k = k')) as [->|Hne].
  - rewrite lookup_delete_eq in Hl. discriminate.
  - rewrite lookup_delete_ne in Hl by exact Hne. exact (Hb k' pos' Hl).
Qed.

Lemma handleOrder_sizes (instrument : Instrument) (sd : Side) (a : App) :
  0 < orderSize a ->
  bookSizesPositive (positions a) ->
  bookSizesPositive (positions (handleOrder instrument sd a)).
Proof.
  intros Hfill Hb. unfold handleOrder.
  destruct (negb (truthy _)); [exact Hb|].
  destruct (positions a !! instrument) as [existing|] eqn:He.
  - pose proof (Hb instrument existing He) as Hs.
    destruct (decide (side existing = sd));
      [|destruct (gtb (size existing) (orderSize a)) eqn:Eg;
        [|destruct (eqb (size existing) (orderSize a)) eqn:Ee]];
      cbn [positions set_book].
    + apply sizes_insert; [exact Hb|]. cbn [size].
      rewrite <- (Qplus_0_l 0).
      apply Qplus_lt_le_compat; [exact Hs | apply Qlt_le_weak, Hfill].
    + apply sizes_insert; [exact Hb|]. cbn [size].
      apply Qlt_minus_pos, gtb_lt, Eg.
    + apply sizes_delete, Hb.
    + apply sizes_insert; [exact Hb|]. cbn [size].
      apply Qlt_minus_pos, gtb_eqb_lt; [exact Eg | exact Ee].
  - cbn [positions set_book]. apply sizes_insert; [exact Hb | exact Hfill].
Qed.

Lemma handleChartClick_sizes (clicked : option Q) (instrument : Instrument)
    (a : App) :
  bookSizesPositive (positions a) ->
  bookSizesPositive (positions (handleChartClick clicked instrument a)).
Proof.
  intros Hb. unfold handleChartClick.
  destruct (editMode a) as [[sym kind]|]; [|exact Hb].
  destruct (negb (bool_decide (sym = instrument))); [exact Hb|].
  destruct (chart a instrument); [|exact Hb].
  destruct clicked as [p|]; [|exact Hb].
  destruct (negb (truthy p)); [exact Hb|].
  change (positions (set_editMode ?x _)) with (positions x).
  destruct (positions a !! sym) as [pos|] eqn:Hpos; [|exact Hb].
  destruct (isValidStop _ _ _ _); [|exact Hb].
  cbn [positions set_book]. apply sizes_insert; [exact Hb|].
  destruct kind; exact (Hb sym pos Hpos).
Qed.

Lemma markKey_sizes (e : Engine) (ct : ContractType) (key : Instrument)
    (ps : gmap Instrument Position) (bal : Q) :
  bookSizesPositive ps -> bookSizesPositive (fst (markKey e ct key (ps, bal))).
Proof.
  intros Hb. unfold markKey.
  destruct (ps !! key) as [pos|] eqn:Hpos; [|exact Hb].
  destruct (_ || _); [exact Hb|].
  destruct (slHit _ _); [cbn; apply sizes_delete, Hb|].
  destruct (tpHit _ _); cbn; [apply sizes_delete, Hb|].
  apply sizes_insert; [exact Hb|]. exact (Hb key pos Hpos).
Qed.

(** No handler stores a position of size 0 or less: with a positive
    order size, an order, a click on the chart and a mark each keep
    every size of the book positive. *)
Theorem book_sizes_positive (a : App) :
  0 < orderSize a ->
  bookSizesPositive (positions a) ->
  (forall instrument sd,
     bookSizesPositive (positions (handleOrder instrument sd a)))
  /\ (forall clicked instrument,
        bookSizesPositive (positions (handleChartClick clicked instrument a)))
  /\ bookSizesPositive (positions (updatePnL a)).
Proof.
  intros Hfill Hb. split; [|split].
  - intros instrument sd. exact (handleOrder_sizes instrument sd a Hfill Hb).
  - intros clicked instrument.
    exact (handleChartClick_sizes clicked instrument a Hb).
  - unfold updatePnL. cbn [fold_left].
    pose proof (markKey_sizes (engine a) (contractType a) es (positions a)
                              (accountBalance a) Hb) as H1.
    destruct (markKey (engine a) (contractType a) es _) as [ps1 b1].
    pose proof (markKey_sizes (engine a) (contractType a) nq ps1 b1 H1) as H2.
    destruct (markKey (engine a) (contractType a) nq _) as [ps2 b2].
    exact H2.
Qed.

(** SHORT 2 against LONG 2 leaves no position, SHORT 3 leaves SHORT 1. *)
Lemma book_sizes_positive_witness :
  let a := sampleApp 0 110 {[ nq := mkPosition "NQ" LONG 100 2 None None 0 ]} 3 in
  bookSizesPositive (positions (handleOrder nq SHORT a)).
Proof.
  intros a.
  assert (Hb : bookSizesPositive (positions a)).
  { intros k pos Hk. destruct k; [discriminate Hk|].
    inversion Hk; subst. reflexivity. }
  destruct (book_sizes_positive a eq_refl Hb) as (Horder & _).
  exact (Horder nq SHORT).
Defined.

(** A round trip: from flat, an order at the price p1 and the opposite
    order of the same size at the price p2 leave the book as it was and
    add directionalDiff(side, p1, p2) * size * multiplier to the
    balance. *)
Theorem handleOrder_round_trip (instrument : Instrument) (sd : Side)
    (p2 : Q) (a : App) :
  let p1 := currentPrice (stream (engine a) instrument) in
  let a1 := handleOrder instrument sd a in
  let a2 := handleOrder instrument (opposite sd) (setPrice a1 instrument p2) in
  positions a !! instrument = None ->
  ~ p1 == 0 ->
  ~ p2 == 0 ->
  positions a2 = positions a
  /\ accountBalance a2
     = accountBalance a
       + directionalDiff sd p1 p2 * orderSize a
         * multiplier (contractType a) instrument.
Proof.
  intros p1 a1 a2 Hflat Hp1 Hp2.
  assert (H1 : a1 = set_book a
                      (<[instrument := mkPosition (toUpperCase instrument) sd p1
                                                  (orderSize a) None None 0]>
                         (positions a))
                      (accountBalance a)).
  { subst a1. unfold handleOrder. fold p1.
    rewrite (truthy_true _ Hp1), Hflat. reflexivity. }
  subst a2. rewrite H1. clear H1 a1.
  unfold handleOrder. rewrite setPrice_price, (truthy_true _ Hp2). cbn [negb].
  cbn [positions set_book setPrice set_engine]. rewrite lookup_insert_eq.
  cbn [side size avgPrice orderSize accountBalance contractType].
  rewrite decide_False by (destruct sd; discriminate).
  rewrite gtb_false by apply Qle_refl.
  rewrite eqb_true by reflexivity.
  cbn [positions accountBalance set_book].
  split; [apply delete_insert_id, Hflat | reflexivity].
Qed.

(** LONG 1 ES at 100, closed at 110: 10 * 1 * 50 is realized. *)
Lemma handleOrder_round_trip_witness :
  let a := sampleApp 100 0 ∅ 1 in
  let a1 := handleOrder es LONG a in
  let a2 := handleOrder es (opposite LONG) (setPrice a1 es 110) in
  positions a2 = positions a
  /\ accountBalance a2 = accountBalance a + (110 - 100) * 1 * 50.
Proof.
  intros a a1 a2.
  apply (handleOrder_round_trip es LONG 110 a);
    [reflexivity | discriminate | discriminate].
Defined.



(** ** Marks *)

Lemma set_pnl_same (pos : Position) : set_pnl pos (pnl pos) = pos.
Proof. destruct pos; reflexivity. Qed.

Lemma settled_id (e : Engine) (ct : ContractType) (key : Instrument)
    (ps : gmap Instrument Position) (bal : Q) :
  settledAt e ct key (ps !! key) -> markKey e ct key (ps, bal) = (ps, bal).
Proof.
  unfold settledAt, markKey. destruct (ps !! key) as [pos|] eqn:Hpos;
    [|reflexivity].
  intros [Hz|(Hsl & Htp & Hv)]; [rewrite Hz; reflexivity|].
  destruct (_ || _); [reflexivity|].
  change (slHit (set_pnl pos ?v) ?c) with (slHit pos c).
  change (tpHit (set_pnl pos ?v) ?c) with (tpHit pos c).
  rewrite Hsl, Htp, <- Hv, set_pnl_same, (insert_id _ _ _ Hpos). reflexivity.
Qed.

Lemma markKey_settles (e : Engine) (ct : ContractType) (key : Instrument)
    (ps : gmap Instrument Position) (bal : Q) :
  settledAt e ct key (fst (markKey e ct key (ps, bal)) !! key).
Proof.
  unfold markKey. destruct (ps !! key) as [pos|] eqn:Hpos;
    [|cbn; rewrite Hpos; exact I].
  destruct (_ || _) eqn:Ez; [cbn; rewrite Hpos; left; exact Ez|].
  change (slHit (set_pnl pos ?v) ?c) with (slHit pos c).
  change (tpHit (set_pnl pos ?v) ?c) with (tpHit pos c).
  destruct (slHit pos _) eqn:Es; [cbn; rewrite lookup_delete_eq; exact I|].
  destruct (tpHit pos _) eqn:Et; cbn; [rewrite lookup_delete_eq; exact I|].
  rewrite lookup_insert_eq. right. auto.
Qed.

Lemma markKey_twice (e : Engine) (ct : ContractType) (k1 k2 : Instrument)
    (st : gmap Instrument Position * Q) :
  let st' := markKey e ct k2 (markKey e ct k1 st) in
  markKey e ct k1 st' = st' /\ markKey e ct k2 st' = st'.
Proof.
  destruct st as [ps bal]. cbn zeta.
  destruct (markKey e ct k1 (ps, bal)) as [ps1 b1] eqn:E1.
  destruct (markKey e ct k2 (ps1, b1)) as [ps2 b2] eqn:E2.
  assert (H2 : settledAt e ct k2 (ps2 !! k2)).
  { pose proof (markKey_settles e ct k2 ps1 b1) as H. rewrite E2 in H. exact H. }
  assert (H1 : settledAt e ct k1 (ps2 !! k1)).
  { destruct (decide (k1 = k2)) as [->|Hne]; [exact H2|].
    pose proof (markKey_other e ct k2 k1 ps1 b1 Hne) as Ho.
    rewrite E2 in Ho. cbn [fst] in Ho. rewrite Ho.
    pose proof (markKey_settles e ct k1 ps bal) as H. rewrite E1 in H. exact H. }
  split; apply settled_id; assumption.
Qed.

(** A mark is idempotent: marking again at the same prices changes
    nothing, so no profit is realized twice. *)
Theorem updatePnL_idempotent (a : App) : updatePnL (updatePnL a) = updatePnL a.
Proof.
  unfold updatePnL at 2 3. cbn [fold_left].
  destruct (markKey_twice (engine a) (contractType a) es nq
                          (positions a, accountBalance a)) as [Hes Hnq].
  cbn zeta in Hes, Hnq.
  destruct (markKey (engine a) (contractType a) nq
              (markKey (engine a) (contractType a) es
                       (positions a, accountBalance a))) as [ps2 b2] eqn:E.
  unfold updatePnL. cbn [fold_left engine contractType positions accountBalance
                           set_book].
  rewrite Hes, Hnq. reflexivity.
Qed.






Lemma markKey_keeps (e : Engine) (ct : ContractType) (key k : Instrument)
    (ps : gmap Instrument Position) (bal : Q) (pos' : Position) :
  fst (markKey e ct key (ps, bal)) !! k = Some pos' ->
  exists pos, ps !! k = Some pos /\ samePosition pos pos'.
Proof.
  assert (Hrefl : forall pos, samePosition pos pos) by (repeat split).
  destruct (decide (k = key)) as [->|Hne].
  - unfold markKey. destruct (ps !! key) as [pos|] eqn:Hpos;
      [|cbn; rewrite Hpos; discriminate].
    destruct (_ || _); [cbn; rewrite Hpos; intros E; inversion E; subst; eauto|].
    destruct (slHit _ _); [cbn; rewrite lookup_delete_eq; discriminate|].
    destruct (tpHit _ _); cbn; [rewrite lookup_delete_eq; discriminate|].
    rewrite lookup_insert_eq. intros E. inversion E; subst.
    exists pos. split; [reflexivity|]. repeat split.
  - rewrite markKey_other by exact Hne. eauto.
Qed.

Lemma markKey_balance_kept (e : Engine) (ct : ContractType) (key : Instrument)
    (ps : gmap Instrument Position) (bal : Q) :
  (fst (markKey e ct key (ps, bal)) !! key = None -> ps !! key = None) ->
  snd (markKey e ct key (ps, bal)) = bal.
Proof.
  unfold markKey. destruct (ps !! key) as [pos|] eqn:Hpos; [|reflexivity].
  destruct (_ || _); [reflexivity|].
  destruct (slHit _ _);
    [cbn; rewrite lookup_delete_eq; intros H; discriminate (H eq_refl)|].
  destruct (tpHit _ _);
    [cbn; rewrite lookup_delete_eq; intros H; discriminate (H eq_refl)|].
  reflexivity.
Qed.

(** A mark opens nothing and alters nothing but the pnl: every position
    of the book after a mark was in the book before it with the same
    symbol, side, average price, size and stops; the engine is not
    touched; and when no position is closed the balance is the same. *)
Theorem updatePnL_only_marks (a : App) :
  (forall k pos',
     positions (updatePnL a) !! k = Some pos' ->
     exists pos, positions a !! k = Some pos /\ samePosition pos pos')
  /\ engine (updatePnL a) = engine a
  /\ ((forall k, positions (updatePnL a) !! k = None ->
                 positions a !! k = None) ->
      accountBalance (updatePnL a) = accountBalance a).
Proof.
  split; [|split].
  - intros k pos'. rewrite updatePnL_lookup. apply markKey_keeps.
  - unfold updatePnL. destruct (fold_left _ _ _). reflexivity.
  - intros Hkept.
    pose proof (Hkept es) as Hes. pose proof (Hkept nq) as Hnq.
    rewrite updatePnL_lookup in Hes, Hnq.
    unfold updatePnL. cbn [fold_left].
    pose proof (markKey_balance_kept (engine a) (contractType a) es
                                     (positions a) (accountBalance a) Hes) as H1.
    pose proof (markKey_other (engine a) (contractType a) es nq (positions a)
                              (accountBalance a) ltac:(discriminate)) as Ho.
    destruct (markKey (engine a) (contractType a) es _) as [ps1 b1] eqn:E1.
    cbn [fst snd] in H1, Ho. subst b1.
    assert (Hnq' : fst (markKey (engine a) (contractType a) nq
                                (ps1, accountBalance a)) !! nq = None ->
                   ps1 !! nq = None).
    { intros H. rewrite Ho. apply Hnq.
      rewrite <- H. apply markKey_same. symmetry. exact Ho. }
    pose proof (markKey_balance_kept (engine a) (contractType a) nq ps1
                                     (accountBalance a) Hnq') as H2.
    destruct (markKey (engine a) (contractType a) nq (ps1, accountBalance a))
      as [ps2 b2].
    cbn [snd] in H2. cbn [accountBalance set_book]. exact H2.
Qed.

(** LONG 1 @100 with TP=105 and the price at 103: the mark keeps the
    position, with its stops, and the balance. *)
Lemma updatePnL_only_marks_witness :
  let pos := mkPosition "ES" LONG 100 1 None (Some 105) 0 in
  let a := sampleApp 103 0 {[ es := pos ]} 1 in
  exists pos0, positions a !! es = Some pos0
               /\ samePosition pos0 (mkPosition "ES" LONG 100 1 None (Some 105)
                                                ((103 - 100) * 50 * 1)).
Proof.
  intros pos a.
  destruct (updatePnL_only_marks a) as (Hkeep & _).
  apply (Hkeep es). reflexivity.
Defined.

(** ** Stops *)



(** A click on the chart moves no money and opens or closes nothing: the
    engine, the balance and the contract type are as before, the book has
    the same keys, the other instrument's position is untouched, and the
    position of the clicked instrument differs in its stops at most. *)
Theorem handleChartClick_frame (clicked : option Q) (instrument : Instrument)
    (a : App) :
  let a' := handleChartClick clicked instrument a in
  engine a' = engine a
  /\ accountBalance a' = accountBalance a
  /\ contractType a' = contractType a
  /\ (forall k, k <> instrument -> positions a' !! k = positions a !! k)
  /\ (forall k, positions a' !! k = None <-> positions a !! k = None)
  /\ (forall k pos pos',
        positions a !! k = Some pos -> positions a' !! k = Some pos' ->
        sameButStops pos pos').
Proof.
  assert (Hsame : forall k pos pos',
             positions a !! k = Some pos -> positions a !! k = Some pos' ->
             sameButStops pos pos').
  { intros k pos pos' H1 H2. rewrite H1 in H2. inversion H2; subst.
    repeat split. }
  assert (Hid : engine a = engine a /\ accountBalance a = accountBalance a
                /\ contractType a = contractType a
                /\ (forall k, k <> instrument ->
                              positions a !! k = positions a !! k)
                /\ (forall k, positions a !! k = None <-> positions a !! k = None)
                /\ (forall k pos pos',
                      positions a !! k = Some pos ->
                      positions a !! k = Some pos' -> sameButStops pos pos')).
  { split; [reflexivity|]. split; [reflexivity|]. split; [reflexivity|].
    split; [reflexivity|]. split; [intros k; reflexivity | exact Hsame]. }
  cbn zeta. unfold handleChartClick.
  destruct (editMode a) as [[sym kind]|]; [|exact Hid].
  destruct (bool_decide (sym = instrument)) eqn:Esym; [|exact Hid].
  apply bool_decide_eq_true in Esym. subst sym. cbn [negb].
  destruct (chart a instrument); [|exact Hid].
  destruct clicked as [p|]; [|exact Hid].
  destruct (negb (truthy p)); [exact Hid|].
  destruct (positions a !! instrument) as [pos0|] eqn:Hpos;
    [|exact Hid].
  destruct (isValidStop _ _ _ _); [|exact Hid].
  cbn [engine accountBalance contractType positions set_editMode set_book].
  split; [reflexivity|]. split; [reflexivity|]. split; [reflexivity|].
  split; [intros k Hne; apply lookup_insert_ne; congruence|]. split.
  - intros k. destruct (decide (k = instrument)) as [->|Hne].
    + rewrite lookup_insert_eq, Hpos. split; discriminate.
    + rewrite lookup_insert_ne by congruence. reflexivity.
  - intros k pos pos' H1 H2. destruct (decide (k = instrument)) as [->|Hne].
    + rewrite lookup_insert_eq in H2. rewrite Hpos in H1.
      inversion H1; inversion H2; subst. destruct kind; repeat split.
    + rewrite lookup_insert_ne in H2 by congruence. exact (Hsame k _ _ H1 H2).
Qed.

(** A take-profit at 120 placed on LONG 1 @100 with the price at 110:
    the position keeps its symbol, side, average price, size and pnl. *)
Lemma handleChartClick_frame_witness :
  let pos := mkPosition "ES" LONG 100 1 (Some 95) None 0 in
  let a := set_editMode (sampleApp 110 0 {[ es := pos ]} 1) (Some (es, TP)) in
  positions (handleChartClick (Some 120) es a) !! es
  = Some (mkPosition "ES" LONG 100 1 (Some 95) (Some 120) 0)
  /\ sameButStops pos (mkPosition "ES" LONG 100 1 (Some 95) (Some 120) 0).
Proof.
  intros pos a. split; [reflexivity|].
  destruct (handleChartClick_frame (Some 120) es a) as (_ & _ & _ & _ & _ & H).
  apply (H es); reflexivity.
Defined.





(** ** Frames *)

Lemma processInstrumentTick_put (key : Instrument) (globalTime : Z) (a : App) :
  processInstrumentTick key globalTime a
  = match chart a key with
    | None => a
    | Some _ =>
        if Nat.eqb (length (buffer (stream (engine a) key))) 0 then a
        else put key (processed globalTime (stream (engine a) key, chart a key)) a
    end.
Proof.
  unfold processInstrumentTick, processed, put. cbn [fst snd].
  destruct (chart a key) as [series|]; [|reflexivity].
  destruct (Nat.eqb _ 0); reflexivity.
Qed.

Lemma put_put (key : Instrument) (sc sc' : Stream * option (list Candle))
    (a : App) :
  put key sc' (put key sc a) = put key sc' a.
Proof. destruct key; reflexivity. Qed.

Lemma put_read (key : Instrument) (sc : Stream * option (list Candle))
    (a : App) :
  stream (engine (put key sc a)) key = fst sc
  /\ chart (put key sc a) key = snd sc.
Proof. destruct key; split; reflexivity. Qed.

Lemma processed_shape (globalTime : Z) (sc : Stream * option (list Candle)) :
  buffer (fst (processed globalTime sc)) = buffer (fst sc)
  /\ (is_Some (snd sc) -> is_Some (snd (processed globalTime sc))).
Proof.
  unfold processed. destruct (snd sc) as [series|] eqn:E.
  - destruct (Nat.eqb _ 0); cbn; [rewrite E|]; split; eauto.
  - rewrite E. split; [reflexivity|]. intros [x Hx]. discriminate.
Qed.

(** A frame does not fold a tick twice: processing an instrument again
    at the same clock changes nothing. *)
Theorem processInstrumentTick_idempotent (key : Instrument) (globalTime : Z)
    (a : App) :
  (-1 <= lastLoadedIndex (stream (engine a) key))%Z ->
  processInstrumentTick key globalTime (processInstrumentTick key globalTime a)
  = processInstrumentTick key globalTime a.
Proof.
  intros Hidx. rewrite (processInstrumentTick_put key globalTime a).
  destruct (chart a key) as [series|] eqn:Ech.
  - destruct (Nat.eqb (length (buffer (stream (engine a) key))) 0) eqn:Eb.
    + rewrite processInstrumentTick_put, Ech, Eb. reflexivity.
    + set (sc := (stream (engine a) key, Some series)).
      rewrite processInstrumentTick_put.
      destruct (put_read key (processed globalTime sc) a) as [Hs Hc].
      destruct (processed_shape globalTime sc) as [Hbuf Hsome].
      rewrite Hs, Hc, Hbuf. cbn [fst sc]. rewrite Eb.
      destruct (Hsome ltac:(eexists; reflexivity)) as [out Hout].
      rewrite Hout, <- Hout, <- surjective_pairing.
      rewrite (processed_twice globalTime globalTime sc) by (first [lia | exact Hidx]).
      apply put_put.
  - rewrite processInstrumentTick_put, Ech. reflexivity.
Qed.

Lemma processInstrumentTick_idempotent_witness :
  processInstrumentTick es 1700000000100000000
    (processInstrumentTick es 1700000000100000000 splitSample)
  = processInstrumentTick es 1700000000100000000 splitSample.
Proof.
  apply (processInstrumentTick_idempotent es 1700000000100000000 splitSample).
  discriminate.
Defined.





Lemma foldTick_close (c : option Candle) (tick : Tick) :
  close (foldTick c tick) = price tick.
Proof.
  unfold foldTick. destruct c as [c|]; [|reflexivity].
  destruct (negb _); reflexivity.
Qed.

Lemma consume_close (globalTime : Z) (pending : list Tick) (f : Fold) :
  (forall c, f_candle f = Some c -> close c = f_price f) ->
  forall c, f_candle (consume globalTime pending f) = Some c ->
            close c = f_price (consume globalTime pending f).
Proof.
  revert f. induction pending as [|tick rest IH]; intros f Hf; [exact Hf|].
  cbn [consume]. destruct (Z.gtb (ts tick) globalTime); [exact Hf|].
  apply IH. cbn. intros c E. inversion E. apply foldTick_close.
Qed.

Lemma syncLoop_close (targetMin : Z) (pending : list Tick) (s : Sync) :
  (forall c, s_candle s = Some c -> close c = s_price s) ->
  forall c, s_candle (syncLoop targetMin pending s) = Some c ->
            close c = s_price (syncLoop targetMin pending s).
Proof.
  revert s. induction pending as [|tick rest IH]; intros s Hs; [exact Hs|].
  cbn [syncLoop]. destruct (Z.geb (m tick) targetMin).
  - destruct (s_caughtUp s); [exact Hs|]. cbn. exact Hs.
  - apply IH. cbn. intros c E. inversion E. apply foldTick_close.
Qed.

Lemma processed_close (globalTime : Z) (sc : Stream * option (list Candle)) :
  priceIsClose (fst sc) -> priceIsClose (fst (processed globalTime sc)).
Proof.
  intros H. unfold processed. destruct (snd sc); [|exact H].
  destruct (Nat.eqb _ 0); [exact H|].
  unfold priceIsClose. cbn [fst candle currentPrice].
  apply consume_close. exact H.
Qed.

Lemma processSync_close (targetMin : Z) (key : Instrument) (a : App)
    (caughtUp : bool) :
  (forall k, priceIsClose (stream (engine a) k)) ->
  forall k,
    priceIsClose (stream (engine (fst (processSync targetMin key (a, caughtUp)))) k).
Proof.
  intros H k. unfold processSync.
  destruct (Nat.eqb _ 0); [apply H|]. cbn [fst].
  change (engine (set_chart ?x _ _)) with (engine x).
  change (engine (set_engine _ ?e)) with e.
  destruct (decide (key = k)) as [->|Hne].
  - rewrite stream_set_stream. unfold priceIsClose. cbn [candle currentPrice].
    apply syncLoop_close. exact (H k).
  - rewrite stream_set_stream_ne by exact Hne.
    destruct k; [exact (H es) | exact (H nq)].
Qed.

Lemma showCandle_engine (key : Instrument) (a : App) :
  engine (showCandle key a) = engine a.
Proof. exact (proj1 (showCandle_frame key a)). Qed.

(** The price orders fill at is the close of the candle on the chart:
    whenever a stream has an open candle, the candle's close is the
    stream's current price. A frame keeps this, the arrival of a page
    keeps it, and a load establishes it. *)
Theorem price_is_close (a : App) :
  (forall k, priceIsClose (stream (engine a) k)) ->
  (forall timestamp k, priceIsClose (stream (engine (loop timestamp a)) k))
  /\ (forall data k, priceIsClose (stream (engine (fetchResolved data a)) k))
  /\ (forall dayToLoad targetMin fetched k,
        priceIsClose
          (stream (engine (loadData dayToLoad targetMin fetched a)) k)).
Proof.
  intros H. split; [|split].
  - intros timestamp k. destruct (isPlaying a) eqn:Hplay.
    + destruct (loop_replay timestamp a Hplay) as (Hr & _).
      pose proof (f_equal (fun r => fst (r_es r)) Hr) as Hes.
      pose proof (f_equal (fun r => fst (r_nq r)) Hr) as Hnq.
      cbn [replay frame r_es r_nq fst] in Hes, Hnq.
      destruct k; cbn [stream]; [rewrite Hes | rewrite Hnq];
        apply processed_close; [exact (H es) | exact (H nq)].
    + unfold loop. rewrite Hplay. apply H.
  - intros data k. unfold fetchResolved.
    destruct (refill a) as [|needsNq|]; [apply H| |].
    + destruct needsNq; destruct k; cbn; first [exact (H es) | exact (H nq)].
    + destruct k; cbn; first [exact (H es) | exact (H nq)].
  - intros dayToLoad targetMin fetched k. unfold loadData.
    destruct (bool_decide (dayToLoad = "")); [apply H|].
    assert (Hnone : forall s, priceIsClose (resetStream s))
      by (intros s c E; discriminate E).
    destruct fetched as [[esData nqData]|];
      [|destruct k; cbn; apply Hnone].
    assert (Hpage : forall s data, priceIsClose (loadPage (resetStream s) data))
      by (intros s data c E; discriminate E).
    destruct (Z.eqb _ 0); [destruct k; cbn; apply Hpage|].
    destruct (Z.gtb targetMin MARKET_OPEN_MIN);
      [|destruct k; cbn; apply Hpage].
    change (engine (set_isPlaying ?x _)) with (engine x).
    rewrite !showCandle_engine.
    match goal with
    | |- context [processSync targetMin es (?x, false)] => set (a2 := x)
    end.
    assert (H2 : forall k, priceIsClose (stream (engine a2) k))
      by (intros [|]; cbn; apply Hpage).
    pose proof (processSync_close targetMin es a2 false H2) as H3.
    destruct (processSync targetMin es (a2, false)) as [a3 cu].
    cbn [fst] in H3.
    exact (processSync_close targetMin nq a3 cu H3 k).
Qed.

Lemma price_is_close_witness :
  priceIsClose (stream (engine (loop 1033 splitSample)) es)
  /\ priceIsClose (stream (engine (loop 1033 splitSample)) nq).
Proof.
  assert (H : forall k, priceIsClose (stream (engine splitSample) k))
    by (intros [|] c E; discriminate E).
  destruct (price_is_close splitSample H) as (Hloop & _).
  split; [exact (Hloop 1033 es) | exact (Hloop 1033 nq)].
Defined.

(** The clock does not go back in a frame: when playing, with a
    timestamp not before the last frame's and a speed that is not
    negative, the clock after the frame is not before the clock before
    it; and the frame records its timestamp. A paused page ignores the
    frame. *)
Theorem loop_clock_monotone (timestamp : Q) (a : App) :
  (isPlaying a = true ->
   lastFrameTime (engine a) <= timestamp ->
   0 <= playbackSpeed a ->
   (globalTimeBig (engine a) <= globalTimeBig (engine (loop timestamp a)))%Z
   /\ lastFrameTime (engine (loop timestamp a)) = timestamp)
  /\ (isPlaying a = false -> loop timestamp a = a).
Proof.
  split.
  - intros Hplay Hle Hs.
    destruct (loop_replay timestamp a Hplay) as (Hr & _).
    pose proof (f_equal r_clock Hr) as Hc. pose proof (f_equal r_last Hr) as Hl.
    cbn [replay frame r_clock r_last] in Hc, Hl.
    split; [|exact Hl]. rewrite Hc.
    assert (0 <= Qfloor ((timestamp
                          - (if negb (truthy (lastFrameTime (engine a)))
                             then timestamp else lastFrameTime (engine a)))
                         * 1000000 * playbackSpeed a))%Z; [|lia].
    change 0%Z with (Qfloor 0). apply Qfloor_resp_le.
    apply Qmult_le_0_compat; [|exact Hs].
    apply Qmult_le_0_compat; [|discriminate].
    destruct (negb (truthy (lastFrameTime (engine a)))).
    + unfold Qminus. rewrite Qplus_opp_r. apply Qle_refl.
    + unfold Qminus. rewrite <- (Qplus_opp_r (lastFrameTime (engine a))).
      apply Qplus_le_compat; [exact Hle | apply Qle_refl].
  - intros Hpause. unfold loop. rewrite Hpause. reflexivity.
Qed.

Lemma loop_clock_monotone_witness :
  (globalTimeBig (engine splitSample)
   <= globalTimeBig (engine (loop 1033 splitSample)))%Z
  /\ lastFrameTime (engine (loop 1033 splitSample)) = 1033.
Proof.
  destruct (loop_clock_monotone 1033 splitSample) as (Hplay & _).
  apply Hplay; [reflexivity | discriminate | discriminate].
Defined.

Lemma loop_fresh (timestamp : Q) (a : App) :
  isPlaying a = true ->
  lastFrameTime (engine a) == 0 ->
  globalTimeBig (engine (loop timestamp a)) = globalTimeBig (engine a)
  /\ lastFrameTime (engine (loop timestamp a)) = timestamp.
Proof.
  intros Hplay Hz.
  destruct (loop_replay timestamp a Hplay) as (Hr & _).
  pose proof (f_equal r_clock Hr) as Hc. pose proof (f_equal r_last Hr) as Hl.
  cbn [replay frame r_clock r_last] in Hc, Hl.
  split; [|exact Hl]. rewrite Hc, (truthy_false _ Hz). cbn [negb].
  replace (Qfloor ((timestamp - timestamp) * 1000000 * playbackSpeed a))
    with 0%Z; [lia|].
  change 0%Z with (Qfloor 0). apply Qfloor_comp. ring.
Qed.

(** Pent-up time is not replayed. The first frame after playback is
    resumed, and the first frame after the speed has been changed during
    playback, leave the clock where it was, whatever the timestamp of
    the frame; and a frame that arrives after a pause changes nothing. *)
Theorem resume_no_catch_up (timestamp : Q) (a : App) :
  (isPlaying a = false ->
   globalTimeBig (engine (loop timestamp (togglePlaying a)))
   = globalTimeBig (engine a))
  /\ (forall s,
        isPlaying a = true -> ~ s == playbackSpeed a ->
        globalTimeBig (engine (loop timestamp (setPlaybackSpeed s a)))
        = globalTimeBig (engine a)
        /\ playbackSpeed (loop timestamp (setPlaybackSpeed s a)) = s)
  /\ (isPlaying a = true ->
      loop timestamp (togglePlaying a) = togglePlaying a).
Proof.
  split; [|split].
  - intros Hpause. unfold togglePlaying, playingEffect.
    rewrite Hpause. cbn [negb isPlaying set_isPlaying].
    match goal with |- context [loop timestamp ?x] => set (a1 := x) end.
    destruct (loop_fresh timestamp a1) as [Hc _]; [reflexivity | reflexivity|].
    exact Hc.
  - intros s Hplay Hne. unfold setPlaybackSpeed, playingEffect.
    rewrite (eqb_false _ _ Hne). cbn [isPlaying set_playbackSpeed].
    rewrite Hplay.
    match goal with |- context [loop timestamp ?x] => set (a1 := x) end.
    destruct (loop_fresh timestamp a1) as [Hc _]; [exact Hplay | reflexivity|].
    destruct (loop_replay timestamp a1 Hplay) as (_ & _ & Hs).
    split; [exact Hc | exact Hs].
  - intros Hplay. unfold togglePlaying, playingEffect.
    rewrite Hplay. cbn [negb isPlaying set_isPlaying].
    unfold loop. reflexivity.
Qed.

(** Paused for ten minutes of wall time and resumed: the first frame
    leaves the clock at the start. *)
Lemma resume_no_catch_up_witness :
  let a := set_isPlaying splitSample false in
  globalTimeBig (engine (loop 601000 (togglePlaying a)))
  = globalTimeBig (engine a).
Proof.
  intros a. destruct (resume_no_catch_up 601000 a) as (Hresume & _).
  apply Hresume. reflexivity.
Defined.

(** ** Refill *)

Lemma processInstrumentTick_flag (key : Instrument) (globalTime : Z) (a : App) :
  loadingMore (engine (processInstrumentTick key globalTime a))
  = loadingMore (engine a)
  /\ refill (processInstrumentTick key globalTime a) = refill a.
Proof.
  unfold processInstrumentTick. destruct (chart a key); [|split; reflexivity].
  destruct (Nat.eqb _ 0); [split; reflexivity|].
  destruct key; split; reflexivity.
Qed.

Lemma checkAndFetchMore_flagMatches (a : App) :
  flagMatches a -> flagMatches (checkAndFetchMore a).
Proof.
  unfold flagMatches, checkAndFetchMore. intros H.
  destruct (loadingMore (engine a)) eqn:El; [rewrite El; exact H|].
  destruct (negb _ && negb _); [rewrite El; exact H|].
  destruct (needsMore (eng_es (engine a))); reflexivity.
Qed.

(** The in-flight flag tells the truth: [loadingMore] is set exactly
    while a refill is suspended at a fetch. A check, the arrival of a
    page, the failure of a fetch and a frame all keep it so; when a
    fetch has resolved or failed with nothing left to fetch the flag is
    clear again. *)
Theorem refill_flag_invariant (a : App) :
  flagMatches a ->
  flagMatches (checkAndFetchMore a)
  /\ (forall data, flagMatches (fetchResolved data a))
  /\ flagMatches (fetchRejected a)
  /\ (forall timestamp, flagMatches (loop timestamp a)).
Proof.
  intros H. split; [exact (checkAndFetchMore_flagMatches a H)|].
  split; [|split].
  - intros data. unfold flagMatches, fetchResolved in *.
    destruct (refill a) as [|needsNq|] eqn:E; [rewrite E; exact H| |reflexivity].
    destruct needsNq; [exact H | reflexivity].
  - unfold flagMatches, fetchRejected in *.
    destruct (refill a) eqn:E; [rewrite E; exact H | reflexivity | reflexivity].
  - intros timestamp. unfold loop. destruct (negb (isPlaying a)); [exact H|].
    apply checkAndFetchMore_flagMatches. unfold flagMatches.
    unfold updatePnL. destruct (fold_left _ _ _) as [next bal].
    cbn [engine refill set_book].
    rewrite !(proj1 (processInstrumentTick_flag _ _ _)).
    rewrite !(proj2 (processInstrumentTick_flag _ _ _)).
    exact H.
Qed.

Lemma refill_flag_invariant_witness :
  flagMatches (checkAndFetchMore (sampleApp 0 0 ∅ 1))
  /\ forall data,
       flagMatches (fetchResolved data (checkAndFetchMore (sampleApp 0 0 ∅ 1))).
Proof.
  destruct (refill_flag_invariant (sampleApp 0 0 ∅ 1) eq_refl) as (Hcheck & _).
  split; [exact Hcheck|].
  destruct (refill_flag_invariant _ Hcheck) as (_ & Hres & _). exact Hres.
Defined.

(** A failed fetch ends the refill without a trace: the buffers are as
    they were, nothing is reported, and the flag is clear; the request of
    the other stream that was to follow in the same cycle is not issued.
    The next check asks again for whatever is still needed. *)
Theorem fetchRejected_retry (a : App) (key : Instrument) :
  let a' := fetchRejected a in
  awaited (refill a) = Some key ->
  engine a' = set_loadingMore (engine a) false
  /\ refill a' = Idle
  /\ requests a' = requests a
  /\ alerts a' = alerts a
  /\ (needsMore (eng_es (engine a)) = true ->
      requests (checkAndFetchMore a') = requests a ++ [fetchTicks a es])
  /\ (needsMore (eng_es (engine a)) = false ->
      needsMore (eng_nq (engine a)) = true ->
      requests (checkAndFetchMore a') = requests a ++ [fetchTicks a nq]).
Proof.
  intros a' Hk. subst a'. unfold fetchRejected.
  assert (Hfin : fetchRejected a = finishRefill a).
  { unfold fetchRejected. destruct (refill a); [discriminate Hk | |]; reflexivity. }
  unfold fetchRejected in Hfin. rewrite Hfin. clear Hfin.
  split; [reflexivity|]. split; [reflexivity|]. split; [reflexivity|].
  split; [reflexivity|].
  unfold checkAndFetchMore.
  cbn [engine finishRefill set_refill set_engine set_loadingMore loadingMore
       eng_es eng_nq requests].
  split.
  - intros ->. reflexivity.
  - intros -> ->. reflexivity.
Qed.

(** The ES fetch of a cycle that was to go on with NQ fails: no NQ
    request is issued, the flag is cleared, and the next check asks for
    ES again. *)
Lemma fetchRejected_retry_witness :
  let a := checkAndFetchMore (sampleApp 0 0 ∅ 1) in
  refill a = AwaitEs true
  /\ requests (fetchRejected a) = requests a
  /\ requests (checkAndFetchMore (fetchRejected a))
     = requests a ++ [fetchTicks a es].
Proof.
  intros a. split; [reflexivity|].
  destruct (fetchRejected_retry a es eq_refl) as (_ & _ & Hreq & _ & Hes & _).
  split; [exact Hreq | apply Hes; reflexivity].
Defined.

(** A whole refill of both streams: from a page with nothing in flight
    and both streams short of ticks, the check and the arrival of the two
    pages issue exactly the ES request and then the NQ request, append
    each page to its own buffer, take over its cursor and exhaustion
    flag, touch no index, and leave the flag clear. *)
Theorem refill_cycle (a : App) (esPage nqPage : TickPage) :
  let a1 := checkAndFetchMore a in
  let a2 := fetchResolved esPage a1 in
  let a3 := fetchResolved nqPage a2 in
  loadingMore (engine a) = false ->
  needsMore (eng_es (engine a)) = true ->
  needsMore (eng_nq (engine a)) = true ->
  requests a3 = requests a ++ [fetchTicks a es; fetchTicks a nq]
  /\ eng_es (engine a3) = appendPage (eng_es (engine a)) esPage
  /\ eng_nq (engine a3) = appendPage (eng_nq (engine a)) nqPage
  /\ loadingMore (engine a3) = false
  /\ refill a3 = Idle
  /\ refill a1 = AwaitEs true
  /\ refill a2 = AwaitNq.
Proof.
  intros a1 a2 a3 Hl Hes Hnq. subst a3 a2 a1.
  unfold checkAndFetchMore. rewrite Hl, Hes, Hnq. cbn [negb andb].
  unfold fetchResolved.
  cbn [refill set_refill set_engine engine requests finishRefill
       set_loadingMore set_stream eng_es eng_nq loadingMore].
  rewrite <- app_assoc. repeat split.
Qed.

Lemma refill_cycle_witness :
  let a := sampleApp 0 0 ∅ 1 in
  let t1 := mkTick 100 (4500 # 1) 1 570 in
  let t2 := mkTick 120 (15000 # 1) 1 570 in
  let a3 := fetchResolved (mkTickPage [t2] 120 true)
              (fetchResolved (mkTickPage [t1] 100 false)
                 (checkAndFetchMore a)) in
  requests a3 = requests a ++ [fetchTicks a es; fetchTicks a nq]
  /\ eng_es (engine a3)
     = appendPage (eng_es (engine a)) (mkTickPage [t1] 100 false)
  /\ eng_nq (engine a3)
     = appendPage (eng_nq (engine a)) (mkTickPage [t2] 120 true)
  /\ loadingMore (engine a3) = false
  /\ refill a3 = Idle.
Proof.
  intros a t1 t2 a3.
  destruct (refill_cycle a (mkTickPage [t1] 100 false) (mkTickPage [t2] 120 true))
    as (H1 & H2 & H3 & H4 & H5 & _); [reflexivity | reflexivity | reflexivity|].
  repeat split; assumption.
Defined.

(** ** Loading *)

Lemma processSync_price (targetMin : Z) (key : Instrument) (a : App)
    (caughtUp : bool) :
  let state := stream (engine a) key in
  lastLoadedIndex state = (-1)%Z ->
  currentPrice (stream (engine (fst (processSync targetMin key (a, caughtUp)))) key)
  = List.last (map price (syncTaken targetMin (buffer state)))
              (currentPrice state).
Proof.
  intros state Hidx. unfold processSync. fold state.
  destruct (buffer state) as [|tick rest] eqn:Eb.
  - cbn. reflexivity.
  - cbn [length Nat.eqb]. rewrite Hidx.
    change (-1 + 1)%Z with 0%Z. change (Z.to_nat 0) with 0%nat.
    change (drop 0 (tick :: rest)) with (tick :: rest).
    destruct (syncLoop_spec targetMin (tick :: rest)
                (mkSync (currentPrice state) (candle state) 0
                        (chart a key) (globalTimeBig (engine a)) caughtUp))
      as (_ & _ & Hp & _).
    cbn zeta in Hp. cbn [s_price] in Hp. cbn [fst].
    change (engine (set_chart ?x _ _)) with (engine x).
    change (engine (set_engine _ ?e)) with e.
    rewrite stream_set_stream. cbn [currentPrice]. exact Hp.
Qed.

Lemma loadData_price (dayToLoad : string) (targetMin : Z)
    (esData nqData : TickPage) (a : App) (key : Instrument) :
  dayToLoad <> "" ->
  currentPrice
    (stream (engine (loadData dayToLoad targetMin (Some (esData, nqData)) a)) key)
  = List.last (map price (foldedByLoad targetMin esData nqData key))
              (currentPrice (stream (engine a) key)).
Proof.
  intros Hday. unfold loadData, foldedByLoad.
  rewrite bool_decide_eq_false_2 by exact Hday.
  destruct (Z.eqb (startOf (firstTs esData) (firstTs nqData)) 0);
    [destruct key; reflexivity|].
  destruct (Z.gtb targetMin MARKET_OPEN_MIN); [|destruct key; reflexivity].
  change (engine (set_isPlaying ?x _)) with (engine x).
  rewrite !showCandle_engine.
  match goal with
  | |- context [processSync targetMin es (?x, false)] => set (a2 := x)
  end.
  pose proof (processSync_price targetMin es a2 false eq_refl) as Hp1.
  pose proof (processSync_spec targetMin es a2 false eq_refl) as H1.
  destruct (processSync targetMin es (a2, false)) as [a3 cu].
  cbn zeta in H1. cbn [fst snd] in H1, Hp1.
  destruct H1 as (_ & Ho1 & _).
  assert (Hnq : stream (engine a3) nq = stream (engine a2) nq)
    by (apply Ho1; discriminate).
  pose proof (processSync_price targetMin nq a3 cu) as Hp2.
  pose proof (processSync_spec targetMin nq a3 cu) as H2.
  destruct (processSync targetMin nq (a3, cu)) as [a4 cu'].
  cbn zeta in H2, Hp2. cbn [fst snd] in H2, Hp2. rewrite Hnq in H2, Hp2.
  destruct (H2 eq_refl) as (_ & Ho2 & _).
  assert (Hes : stream (engine a4) es = stream (engine a3) es)
    by (apply Ho2; discriminate).
  cbn [fst]. destruct key; cbn [pageOf].
  - rewrite Hes, Hp1. reflexivity.
  - rewrite (Hp2 eq_refl). reflexivity.
Qed.

(** A load that gets no data starts nothing. When both first pages are
    empty the user is told once and the page stays paused with the clock
    at 0; when a fetch fails nothing is reported at all, and the page is
    left paused with empty buffers. Either way the position book is
    emptied and the balance kept. *)
Theorem loadData_without_data (dayToLoad : string) (targetMin : Z) (a : App) :
  dayToLoad <> "" ->
  (forall esData nqData,
     ticks esData = [] -> ticks nqData = [] ->
     let a' := loadData dayToLoad targetMin (Some (esData, nqData)) a in
     alerts a' = alerts a ++ [NoTradingData]
     /\ isPlaying a' = false
     /\ globalTimeBig (engine a') = 0%Z
     /\ positions a' = ∅
     /\ accountBalance a' = accountBalance a)
  /\ (let a' := loadData dayToLoad targetMin None a in
      alerts a' = alerts a
      /\ isPlaying a' = false
      /\ globalTimeBig (engine a') = 0%Z
      /\ buffer (eng_es (engine a')) = []
      /\ buffer (eng_nq (engine a')) = []
      /\ positions a' = ∅
      /\ accountBalance a' = accountBalance a).
Proof.
  intros Hday. split.
  - intros esData nqData Hes Hnq a'. subst a'. unfold loadData.
    rewrite bool_decide_eq_false_2 by exact Hday.
    unfold firstTs. rewrite Hes, Hnq. cbn. repeat split.
  - cbn zeta. unfold loadData.
    rewrite bool_decide_eq_false_2 by exact Hday. cbn. repeat split.
Qed.

Lemma loadData_without_data_witness :
  let a := sampleApp 4500 15000 {[ es := mkPosition "ES" LONG 4400 1 None None 0 ]} 1 in
  let a' := loadData "2024-01-06" 570 None a in
  alerts a' = alerts a
  /\ isPlaying a' = false
  /\ globalTimeBig (engine a') = 0%Z
  /\ buffer (eng_es (engine a')) = []
  /\ buffer (eng_nq (engine a')) = []
  /\ positions a' = ∅
  /\ accountBalance a' = accountBalance a.
Proof.
  intros a a'.
  destruct (loadData_without_data "2024-01-06" 570 a) as (_ & Hfail);
    [discriminate|].
  exact Hfail.
Defined.

Lemma loadData_book (dayToLoad : string) (targetMin : Z)
    (esData nqData : TickPage) (a : App) :
  let a' := loadData dayToLoad targetMin (Some (esData, nqData)) a in
  dayToLoad <> "" ->
  positions a' = ∅ /\ accountBalance a' = accountBalance a
  /\ orderSize a' = orderSize a.
Proof.
  intros a' Hday. subst a'. unfold loadData.
  rewrite bool_decide_eq_false_2 by exact Hday.
  destruct (Z.eqb _ 0); [repeat split|].
  destruct (Z.gtb targetMin MARKET_OPEN_MIN); [|repeat split].
  match goal with
  | |- context [processSync targetMin es (?x, false)] => set (a2 := x)
  end.
  assert (Hsync : forall k st,
             positions (fst (processSync targetMin k st)) = positions (fst st)
             /\ accountBalance (fst (processSync targetMin k st))
                = accountBalance (fst st)
             /\ orderSize (fst (processSync targetMin k st))
                = orderSize (fst st)).
  { intros k [x cu]. unfold processSync.
    destruct (Nat.eqb _ 0); [repeat split|]. destruct k; repeat split. }
  assert (Hshow : forall k x,
             positions (showCandle k x) = positions x
             /\ accountBalance (showCandle k x) = accountBalance x
             /\ orderSize (showCandle k x) = orderSize x).
  { intros k x. unfold showCandle.
    destruct (candle _); [destruct k|]; repeat split. }
  cbn [positions accountBalance orderSize set_isPlaying].
  destruct (Hshow nq (showCandle es (fst (processSync targetMin nq
                                (processSync targetMin es (a2, false))))))
    as (-> & -> & ->).
  destruct (Hshow es (fst (processSync targetMin nq
                             (processSync targetMin es (a2, false)))))
    as (-> & -> & ->).
  destruct (Hsync nq (processSync targetMin es (a2, false))) as (-> & -> & ->).
  destruct (Hsync es (a2, false)) as (-> & -> & ->).
  repeat split.
Qed.

(** A load empties the book and keeps the money and the prices it does
    not replace: the position book is empty after every load, the balance
    is the one before it, and the current price of a stream is the price
    of the last tick the load folded for it, or, when it folded none, the
    price the stream had before the load. An order placed right after
    the load of a day without ticks for the instrument is therefore
    filled at the price of the day before. *)
Theorem loadData_book_and_price (dayToLoad : string) (targetMin : Z)
    (esData nqData : TickPage) (a : App) (key : Instrument) (sd : Side) :
  let a' := loadData dayToLoad targetMin (Some (esData, nqData)) a in
  let before := currentPrice (stream (engine a) key) in
  dayToLoad <> "" ->
  positions a' = ∅
  /\ accountBalance a' = accountBalance a
  /\ currentPrice (stream (engine a') key)
     = List.last (map price (foldedByLoad targetMin esData nqData key)) before
  /\ (ticks (pageOf key esData nqData) = [] ->
      ~ before == 0 ->
      currentPrice (stream (engine a') key) = before
      /\ positions (handleOrder key sd a') !! key
         = Some (mkPosition (toUpperCase key) sd before (orderSize a)
                            None None 0)).
Proof.
  intros a' before Hday.
  destruct (loadData_book dayToLoad targetMin esData nqData a Hday)
    as (Hpos & Hbal & Hsize).
  fold a' in Hpos, Hbal, Hsize.
  pose proof (loadData_price dayToLoad targetMin esData nqData a key Hday) as Hp.
  fold a' in Hp. fold before in Hp.
  split; [exact Hpos|]. split; [exact Hbal|]. split; [exact Hp|].
  intros Hempty Hne.
  assert (Hkeep : currentPrice (stream (engine a') key) = before).
  { rewrite Hp. unfold foldedByLoad. rewrite Hempty.
    destruct (Z.eqb _ 0); [reflexivity|]. destruct (Z.gtb _ _); reflexivity. }
  split; [exact Hkeep|].
  assert (Hpriced : ~ currentPrice (stream (engine a') key) == 0)
    by (rewrite Hkeep; exact Hne).
  destruct (fill_open key sd a' Hpriced) as [Hopen _].
  { rewrite Hpos. apply lookup_empty. }
  rewrite Hopen, Hkeep, Hsize. reflexivity.
Qed.

(** Yesterday's NQ price was 15000; today's load brings ES ticks only:
    a BUY NQ right after the load is filled at 15000. *)
Lemma loadData_book_and_price_witness :
  let a := sampleApp 4500 15000 ∅ 1 in
  let esData := mkTickPage [mkTick 1000 (4510 # 1) 1 570] 1000 true in
  let nqData := mkTickPage [] 0 true in
  let a' := loadData "2024-01-03" 570 (Some (esData, nqData)) a in
  currentPrice (stream (engine a') nq) = 15000
  /\ positions (handleOrder nq LONG a') !! nq
     = Some (mkPosition "NQ" LONG 15000 1 None None 0).
Proof.
  intros a esData nqData a'.
  destruct (loadData_book_and_price "2024-01-03" 570 esData nqData a nq LONG)
    as (_ & _ & _ & Hstale); [discriminate|].
  apply Hstale; [reflexivity | discriminate].
Defined.

Lemma Stream_eta (s : Stream) :
  mkStream (buffer s) (cursor s) (done s) (lastLoadedIndex s) (currentPrice s)
           (candle s) = s.
Proof. destruct s; reflexivity. Qed.

Lemma Engine_eta (e : Engine) :
  mkEngine (eng_es e) (eng_nq e) (globalTimeBig e) (lastFrameTime e)
           (loadingMore e) (startMinute e) = e.
Proof. destruct e; reflexivity. Qed.

Lemma processSync_rest (targetMin : Z) (key : Instrument) (a : App)
    (caughtUp : bool) :
  let a' := fst (processSync targetMin key (a, caughtUp)) in
  cursor (stream (engine a') key) = cursor (stream (engine a) key)
  /\ done (stream (engine a') key) = done (stream (engine a) key)
  /\ lastFrameTime (engine a') = lastFrameTime (engine a)
  /\ loadingMore (engine a') = loadingMore (engine a)
  /\ startMinute (engine a') = startMinute (engine a).
Proof.
  cbn zeta. unfold processSync.
  destruct (Nat.eqb _ 0); [repeat split|]. cbn [fst].
  change (engine (set_chart ?x _ _)) with (engine x).
  change (engine (set_engine _ ?e)) with e.
  rewrite stream_set_stream. destruct key; repeat split.
Qed.

(** The engine after a load that found data, in closed form. *)
Lemma loadData_engine (dayToLoad : string) (targetMin : Z)
    (esData nqData : TickPage) (a : App) :
  let a' := loadData dayToLoad targetMin (Some (esData, nqData)) a in
  dayToLoad <> "" ->
  startOf (firstTs esData) (firstTs nqData) <> 0%Z ->
  engine a'
  = mkEngine
      (loadedStream targetMin esData nqData es (currentPrice (eng_es (engine a))))
      (loadedStream targetMin esData nqData nq (currentPrice (eng_nq (engine a))))
      (loadedClock targetMin esData nqData)
      (lastFrameTime (engine a)) (loadingMore (engine a)) MARKET_OPEN_MIN.
Proof.
  intros a' Hday Hstart. unfold loadedStream, loadedClock, foldedByLoad.
  rewrite (proj2 (Z.eqb_neq _ 0) Hstart).
  destruct (Z.gtb targetMin MARKET_OPEN_MIN) eqn:Eseek.
  - rewrite Z.gtb_ltb in Eseek. apply Z.ltb_lt in Eseek.
    destruct (loadData_sync dayToLoad targetMin esData nqData a Hday Hstart Eseek)
      as (Hstreams & Hclock & _).
    fold a' in Hstreams, Hclock.
    pose proof (loadData_price dayToLoad targetMin esData nqData a es Hday) as Hpe.
    pose proof (loadData_price dayToLoad targetMin esData nqData a nq Hday) as Hpn.
    fold a' in Hpe, Hpn. unfold foldedByLoad in Hpe, Hpn.
    rewrite (proj2 (Z.eqb_neq _ 0) Hstart) in Hpe, Hpn.
    replace (Z.gtb targetMin MARKET_OPEN_MIN) with true in Hpe, Hpn
      by (symmetry; rewrite Z.gtb_ltb; apply Z.ltb_lt; exact Eseek).
    assert (Hrest : forall key,
               cursor (stream (engine a') key)
               = nextCursor (pageOf key esData nqData)
               /\ done (stream (engine a') key)
                  = page_done (pageOf key esData nqData)
               /\ lastFrameTime (engine a') = lastFrameTime (engine a)
               /\ loadingMore (engine a') = loadingMore (engine a)
               /\ startMinute (engine a') = MARKET_OPEN_MIN).
    { intros key. subst a'. unfold loadData.
      rewrite bool_decide_eq_false_2 by exact Hday.
      rewrite (proj2 (Z.eqb_neq _ 0) Hstart).
      replace (Z.gtb targetMin MARKET_OPEN_MIN) with true
        by (symmetry; rewrite Z.gtb_ltb; apply Z.ltb_lt; exact Eseek).
      change (engine (set_isPlaying ?x _)) with (engine x).
      rewrite !showCandle_engine.
      match goal with
      | |- context [processSync targetMin es (?x, false)] => set (a2 := x)
      end.
      pose proof (processSync_rest targetMin es a2 false) as R1.
      pose proof (processSync_spec targetMin es a2 false eq_refl) as S1.
      destruct (processSync targetMin es (a2, false)) as [a3 cu].
      cbn zeta in R1, S1. cbn [fst snd] in R1, S1.
      destruct S1 as (_ & Ho1 & _).
      assert (Hn : stream (engine a3) nq = stream (engine a2) nq)
        by (apply Ho1; discriminate).
      pose proof (processSync_rest targetMin nq a3 cu) as R2.
      pose proof (processSync_spec targetMin nq a3 cu) as S2.
      destruct (processSync targetMin nq (a3, cu)) as [a4 cu'].
      cbn zeta in R2, S2. cbn [fst snd] in R2, S2. rewrite Hn in S2, R2.
      destruct (S2 eq_refl) as (_ & Ho2 & _).
      assert (He : stream (engine a4) es = stream (engine a3) es)
        by (apply Ho2; discriminate).
      destruct R1 as (C1 & D1 & F1 & L1 & M1).
      destruct R2 as (C2 & D2 & F2 & L2 & M2).
      cbn [fst]. rewrite F2, L2, M2, F1, L1, M1.
      destruct key; cbn [pageOf];
        [rewrite He, C1, D1 | rewrite C2, D2]; repeat split. }
    rewrite <- (Engine_eta (engine a')).
    change (eng_es (engine a')) with (stream (engine a') es).
    change (eng_nq (engine a')) with (stream (engine a') nq).
    rewrite <- (Stream_eta (stream (engine a') es)).
    rewrite <- (Stream_eta (stream (engine a') nq)).
    destruct (Hstreams es) as (-> & -> & ->).
    destruct (Hstreams nq) as (-> & -> & ->).
    destruct (Hrest es) as (-> & -> & -> & -> & ->).
    destruct (Hrest nq) as (-> & -> & _).
    rewrite Hpe, Hpn, Hclock. reflexivity.
  - subst a'. unfold loadData.
    rewrite bool_decide_eq_false_2 by exact Hday.
    rewrite (proj2 (Z.eqb_neq _ 0) Hstart), Eseek. reflexivity.
Qed.

Lemma last_last {A : Type} (l : list A) (x : A) :
  List.last l (List.last l x) = List.last l x.
Proof.
  destruct l as [|y l]; [reflexivity|]. rewrite !last_after. reflexivity.
Qed.

Lemma loadData_kept (dayToLoad : string) (targetMin : Z)
    (esData nqData : TickPage) (a : App) :
  let a' := loadData dayToLoad targetMin (Some (esData, nqData)) a in
  dayToLoad <> "" ->
  startOf (firstTs esData) (firstTs nqData) <> 0%Z ->
  isPlaying a' = true /\ alerts a' = alerts a.
Proof.
  intros a' Hday Hstart. subst a'. unfold loadData.
  rewrite bool_decide_eq_false_2 by exact Hday.
  rewrite (proj2 (Z.eqb_neq _ 0) Hstart).
  split; [reflexivity|].
  destruct (Z.gtb targetMin MARKET_OPEN_MIN); [|reflexivity].
  change (alerts (set_isPlaying ?x _)) with (alerts x).
  rewrite (proj1 (proj2 (showCandle_frame nq _))).
  rewrite (proj1 (proj2 (showCandle_frame es _))).
  match goal with
  | |- context [processSync targetMin es (?x, false)] => set (a2 := x)
  end.
  pose proof (processSync_spec targetMin es a2 false eq_refl) as S1.
  destruct (processSync targetMin es (a2, false)) as [a3 cu].
  cbn zeta in S1. cbn [fst snd] in S1.
  destruct S1 as (_ & Ho1 & _ & _ & Hal1 & _).
  assert (Hn : stream (engine a3) nq = stream (engine a2) nq)
    by (apply Ho1; discriminate).
  pose proof (processSync_spec targetMin nq a3 cu) as S2.
  destruct (processSync targetMin nq (a3, cu)) as [a4 cu'].
  cbn zeta in S2. cbn [fst snd] in S2. rewrite Hn in S2.
  destruct (S2 eq_refl) as (_ & _ & _ & _ & Hal2 & _).
  cbn [fst]. rewrite Hal2, Hal1. reflexivity.
Qed.

(** Seeking twice is seeking once: loading the same pages for the same
    target again leaves the same engine (buffers, indices, prices, open
    candles and clock), the same empty book, the same balance and the
    same alerts. *)
Theorem loadData_idempotent (dayToLoad : string) (targetMin : Z)
    (esData nqData : TickPage) (a : App) :
  let once := loadData dayToLoad targetMin (Some (esData, nqData)) a in
  let twice := loadData dayToLoad targetMin (Some (esData, nqData)) once in
  startOf (firstTs esData) (firstTs nqData) <> 0%Z ->
  engine twice = engine once
  /\ positions twice = positions once
  /\ accountBalance twice = accountBalance once
  /\ isPlaying twice = isPlaying once
  /\ alerts twice = alerts once.
Proof.
  intros once twice Hstart.
  destruct (decide (dayToLoad = "")) as [Hd|Hday].
  - subst twice once. unfold loadData.
    rewrite !bool_decide_eq_true_2 by exact Hd. repeat split.
  - pose proof (loadData_engine dayToLoad targetMin esData nqData a Hday Hstart)
      as He1.
    pose proof (loadData_engine dayToLoad targetMin esData nqData once Hday Hstart)
      as He2.
    fold once in He1. fold twice in He2.
    destruct (loadData_book dayToLoad targetMin esData nqData a Hday)
      as (Hp1 & Hb1 & _).
    destruct (loadData_book dayToLoad targetMin esData nqData once Hday)
      as (Hp2 & Hb2 & _).
    fold once in Hp1, Hb1. fold twice in Hp2, Hb2.
    destruct (loadData_kept dayToLoad targetMin esData nqData a Hday Hstart)
      as (Hpl1 & Hal1).
    destruct (loadData_kept dayToLoad targetMin esData nqData once Hday Hstart)
      as (Hpl2 & Hal2).
    fold once in Hpl1, Hal1. fold twice in Hpl2, Hal2.
    split; [|repeat split; congruence].
    rewrite He2, He1. cbn [eng_es eng_nq lastFrameTime loadingMore].
    unfold loadedStream. cbn [currentPrice]. rewrite !last_last. reflexivity.
Qed.

Lemma loadData_idempotent_witness :
  let e1 := mkTick 1000 (4500 # 1) 1 580 in
  let e2 := mkTick 2000 (4501 # 1) 1 600 in
  let n1 := mkTick 2500 (15000 # 1) 1 601 in
  let fetched := Some (mkTickPage [e1; e2] 2000 true, mkTickPage [n1] 2500 true) in
  let once := loadData "2024-01-02" 600 fetched (sampleApp 0 0 ∅ 1) in
  engine (loadData "2024-01-02" 600 fetched once) = engine once.
Proof.
  intros e1 e2 n1 fetched once.
  destruct (loadData_idempotent "2024-01-02" 600
              (mkTickPage [e1; e2] 2000 true) (mkTickPage [n1] 2500 true)
              (sampleApp 0 0 ∅ 1)) as (He & _); [discriminate|].
  exact He.
Defined.

(** ** Loads and keys *)

Lemma processSync_untouched (targetMin : Z) (key : Instrument)
    (st : App * bool) :
  let a := fst st in
  let a' := fst (processSync targetMin key st) in
  positions a' = positions a /\ accountBalance a' = accountBalance a
  /\ orderSize a' = orderSize a /\ contractType a' = contractType a
  /\ playbackSpeed a' = playbackSpeed a /\ selectedDay a' = selectedDay a
  /\ editMode a' = editMode a /\ refill a' = refill a
  /\ requests a' = requests a.
Proof.
  destruct st as [x cu]. cbn zeta. unfold processSync.
  destruct (Nat.eqb _ 0); [repeat split|]. destruct key; repeat split.
Qed.

Lemma showCandle_untouched (key : Instrument) (a : App) :
  let a' := showCandle key a in
  positions a' = positions a /\ accountBalance a' = accountBalance a
  /\ orderSize a' = orderSize a /\ contractType a' = contractType a
  /\ playbackSpeed a' = playbackSpeed a /\ selectedDay a' = selectedDay a
  /\ editMode a' = editMode a /\ refill a' = refill a
  /\ requests a' = requests a.
Proof.
  cbn zeta. unfold showCandle.
  destruct (candle _); [destruct key|]; repeat split.
Qed.

(** What no load touches, whatever the fetches resolve to. *)
Lemma loadData_untouched (dayToLoad : string) (targetMin : Z)
    (fetched : option (TickPage * TickPage)) (a : App) :
  let a' := loadData dayToLoad targetMin fetched a in
  accountBalance a' = accountBalance a
  /\ orderSize a' = orderSize a /\ contractType a' = contractType a
  /\ playbackSpeed a' = playbackSpeed a /\ selectedDay a' = selectedDay a
  /\ editMode a' = editMode a /\ refill a' = refill a
  /\ requests a' = requests a
  /\ loadingMore (engine a') = loadingMore (engine a).
Proof.
  cbn zeta. unfold loadData.
  destruct (bool_decide (dayToLoad = "")); [repeat split|].
  destruct fetched as [[esData nqData]|]; [|repeat split].
  destruct (Z.eqb _ 0); [repeat split|].
  destruct (Z.gtb targetMin MARKET_OPEN_MIN); [|repeat split].
  match goal with
  | |- context [processSync targetMin es (?x, false)] => set (a2 := x)
  end.
  change (engine (set_isPlaying ?x _)) with (engine x).
  cbn [accountBalance orderSize contractType playbackSpeed selectedDay
       editMode refill requests set_isPlaying].
  rewrite !showCandle_engine.
  destruct (showCandle_untouched nq
              (showCandle es (fst (processSync targetMin nq
                                     (processSync targetMin es (a2, false))))))
    as (_ & -> & -> & -> & -> & -> & -> & -> & ->).
  destruct (showCandle_untouched es
              (fst (processSync targetMin nq
                      (processSync targetMin es (a2, false)))))
    as (_ & -> & -> & -> & -> & -> & -> & -> & ->).
  destruct (processSync_untouched targetMin nq
              (processSync targetMin es (a2, false)))
    as (_ & -> & -> & -> & -> & -> & -> & -> & ->).
  destruct (processSync_untouched targetMin es (a2, false))
    as (_ & -> & -> & -> & -> & -> & -> & -> & ->).
  cbn [fst].
  pose proof (processSync_rest targetMin es a2 false) as R1.
  destruct (processSync targetMin es (a2, false)) as [a3 cu].
  pose proof (processSync_rest targetMin nq a3 cu) as R2.
  cbn zeta in R1, R2. cbn [fst] in R1, R2 |- *.
  destruct R1 as (_ & _ & _ & L1 & _). destruct R2 as (_ & _ & _ & L2 & _).
  rewrite L2, L1. repeat split.
Qed.

Lemma head_le (l : list Tick) (first tick : Tick) :
  tsOrdered l -> head l = Some first -> In tick l -> (ts first <= ts tick)%Z.
Proof.
  intros Hs Hh Hin. destruct l as [|x l]; [discriminate|].
  cbn in Hh. inversion Hh; subst x. destruct Hin as [->|Hin]; [lia|].
  apply Sorted_StronglySorted in Hs; [|intros ? ? ?; lia].
  inversion Hs as [|? ? _ Hall]; subst.
  rewrite List.Forall_forall in Hall. apply Hall, Hin.
Qed.

Lemma startOf_le (esData nqData : TickPage) (key : Instrument) (first : Tick) :
  (forall k t, head (ticks (pageOf k esData nqData)) = Some t -> ts t <> 0%Z) ->
  head (ticks (pageOf key esData nqData)) = Some first ->
  (startOf (firstTs esData) (firstTs nqData) <= ts first)%Z.
Proof.
  intros Hnz Hh. pose proof (Hnz es) as He. pose proof (Hnz nq) as Hn.
  unfold startOf, firstTs. cbn [pageOf] in He, Hn.
  destruct (head (ticks esData)) as [e|] eqn:Ee;
    destruct (head (ticks nqData)) as [n|] eqn:En; cbn.
  - specialize (He e eq_refl). specialize (Hn n eq_refl).
    rewrite (proj2 (Z.eqb_neq _ _) He), (proj2 (Z.eqb_neq _ _) Hn). cbn.
    destruct (Z.ltb_spec (ts e) (ts n));
      destruct key; cbn [pageOf] in Hh; rewrite ?Ee, ?En in Hh;
      inversion Hh; subst; lia.
  - specialize (He e eq_refl).
    rewrite (proj2 (Z.eqb_neq _ _) He). cbn.
    destruct key; cbn [pageOf] in Hh; rewrite ?Ee, ?En in Hh;
      inversion Hh; subst; lia.
  - specialize (Hn n eq_refl).
    rewrite (proj2 (Z.eqb_neq _ _) Hn). cbn.
    destruct key; cbn [pageOf] in Hh; rewrite ?Ee, ?En in Hh;
      inversion Hh; subst; lia.
  - destruct key; cbn [pageOf] in Hh; rewrite ?Ee, ?En in Hh; discriminate.
Qed.

(** A load that does not seek (a day picked, a target at or before the
    open) folds nothing: both streams hold their page with no tick
    consumed, no open candle and the price of before; the replay plays,
    and its clock is at the earliest tick of the two pages when these are
    ordered by timestamp and start at nonzero timestamps. *)
Theorem loadData_at_open (dayToLoad : string) (targetMin : Z)
    (esData nqData : TickPage) (a : App) :
  let a' := loadData dayToLoad targetMin (Some (esData, nqData)) a in
  dayToLoad <> "" ->
  startOf (firstTs esData) (firstTs nqData) <> 0%Z ->
  (targetMin <= MARKET_OPEN_MIN)%Z ->
  (forall key,
      buffer (stream (engine a') key) = ticks (pageOf key esData nqData)
      /\ lastLoadedIndex (stream (engine a') key) = (-1)%Z
      /\ candle (stream (engine a') key) = None
      /\ currentPrice (stream (engine a') key)
         = currentPrice (stream (engine a) key))
  /\ isPlaying a' = true
  /\ globalTimeBig (engine a') = startOf (firstTs esData) (firstTs nqData)
  /\ (tsOrdered (ticks esData) -> tsOrdered (ticks nqData) ->
      (forall k t, head (ticks (pageOf k esData nqData)) = Some t ->
                   ts t <> 0%Z) ->
      forall key tick,
        In tick (ticks (pageOf key esData nqData)) ->
        (globalTimeBig (engine a') <= ts tick)%Z).
Proof.
  intros a' Hday Hstart Hopen.
  pose proof (loadData_engine dayToLoad targetMin esData nqData a Hday Hstart)
    as He. fold a' in He.
  assert (Hg : Z.gtb targetMin MARKET_OPEN_MIN = false)
    by (rewrite Z.gtb_ltb; apply Z.ltb_ge; exact Hopen).
  assert (Hclock : globalTimeBig (engine a')
                   = startOf (firstTs esData) (firstTs nqData)).
  { rewrite He. cbn [globalTimeBig]. unfold loadedClock. rewrite Hg.
    reflexivity. }
  split; [|split; [|split; [exact Hclock|]]].
  - intros key. rewrite He. unfold loadedStream, foldedByLoad.
    rewrite (proj2 (Z.eqb_neq _ 0) Hstart), Hg.
    destruct key; repeat split.
  - apply (loadData_kept dayToLoad targetMin esData nqData a Hday Hstart).
  - intros Hoe Hon Hnz key tick Hin. rewrite Hclock.
    destruct (head (ticks (pageOf key esData nqData))) as [first|] eqn:Eh.
    + pose proof (startOf_le esData nqData key first Hnz Eh) as Hle.
      assert (Ho : tsOrdered (ticks (pageOf key esData nqData)))
        by (destruct key; assumption).
      pose proof (head_le _ first tick Ho Eh Hin). lia.
    + destruct (ticks (pageOf key esData nqData)); [destruct Hin|discriminate].
Qed.

Lemma loadData_at_open_witness :
  let e1 := mkTick 2000 (4500 # 1) 1 570 in
  let n1 := mkTick 1500 (15000 # 1) 1 570 in
  let a' := loadData "2024-01-02" 570
              (Some (mkTickPage [e1] 2000 true, mkTickPage [n1] 1500 true))
              (sampleApp 0 0 ∅ 1) in
  globalTimeBig (engine a') = 1500%Z.
Proof.
  intros e1 n1 a'.
  destruct (loadData_at_open "2024-01-02" 570 (mkTickPage [e1] 2000 true)
              (mkTickPage [n1] 1500 true) (sampleApp 0 0 ∅ 1))
    as (_ & _ & Hclock & _); [discriminate | discriminate | discriminate |].
  exact Hclock.
Defined.

(** A load does not cancel a refill in flight: the suspended
    [checkAndFetchMore] and the flag stay as they are, so no refill is
    started for the new session meanwhile, and when the page asked for
    before the load arrives it is appended to the buffer of the new
    session, whose cursor it replaces. *)
Theorem loadData_keeps_refill (dayToLoad : string) (targetMin : Z)
    (esData nqData late : TickPage) (needsNq : bool) (a : App) :
  let a' := loadData dayToLoad targetMin (Some (esData, nqData)) a in
  dayToLoad <> "" ->
  startOf (firstTs esData) (firstTs nqData) <> 0%Z ->
  refill a = AwaitEs needsNq ->
  loadingMore (engine a) = true ->
  refill a' = AwaitEs needsNq
  /\ requests a' = requests a
  /\ checkAndFetchMore a' = a'
  /\ buffer (eng_es (engine (fetchResolved late a')))
     = ticks esData ++ ticks late
  /\ cursor (eng_es (engine (fetchResolved late a'))) = nextCursor late.
Proof.
  intros a' Hday Hstart Hrefill Hflag.
  destruct (loadData_untouched dayToLoad targetMin (Some (esData, nqData)) a)
    as (_ & _ & _ & _ & _ & _ & Hr & Hq & Hl).
  fold a' in Hr, Hq, Hl.
  pose proof (loadData_engine dayToLoad targetMin esData nqData a Hday Hstart)
    as He. fold a' in He.
  rewrite Hr, Hq, Hrefill.
  split; [reflexivity|]. split; [reflexivity|]. split.
  - unfold checkAndFetchMore. rewrite Hl, Hflag. reflexivity.
  - unfold fetchResolved. rewrite Hr, Hrefill.
    assert (Hb : buffer (eng_es (engine a')) = ticks esData)
      by (rewrite He; reflexivity).
    destruct needsNq; cbn; rewrite Hb; split; reflexivity.
Qed.

Lemma loadData_keeps_refill_witness :
  let old := mkTick 900 (4400 # 1) 1 575 in
  let e1 := mkTick 2000 (4500 # 1) 1 570 in
  let a := checkAndFetchMore (sampleApp 0 0 ∅ 1) in
  let a' := loadData "2024-01-02" 570
              (Some (mkTickPage [e1] 2000 true, mkTickPage [] 0 true)) a in
  buffer (eng_es (engine (fetchResolved (mkTickPage [old] 900 true) a')))
  = [e1; old].
Proof.
  intros old e1 a a'.
  destruct (loadData_keeps_refill "2024-01-02" 570 (mkTickPage [e1] 2000 true)
              (mkTickPage [] 0 true) (mkTickPage [old] 900 true) true a)
    as (_ & _ & _ & Hb & _);
    [discriminate | discriminate | reflexivity | reflexivity |].
  exact Hb.
Defined.

Lemma playingEffect_untouched (a : App) :
  playbackSpeed (playingEffect a) = playbackSpeed a
  /\ accountBalance (playingEffect a) = accountBalance a
  /\ positions (playingEffect a) = positions a
  /\ isPlaying (playingEffect a) = isPlaying a.
Proof.
  unfold playingEffect. destruct (isPlaying a) eqn:E; repeat split; exact E.
Qed.

(** Keys keep the speed within [1, 500] and the minute of the last load
    within the session's hours, from 9:30 to 16:10; no key changes the
    balance, and only an arrow that seeks touches the book.  A key
    pressed on an input field does nothing. *)
Theorem handleKeyDown_in_range (onInput : bool) (code : KeyCode)
    (fetched : option (TickPage * TickPage)) (s : Screen) :
  let s' := handleKeyDown onInput code fetched s in
  inRange s ->
  inRange s'
  /\ accountBalance (session s') = accountBalance (session s)
  /\ (seeks code = false -> positions (session s') = positions (session s))
  /\ (onInput = true -> s' = s).
Proof.
  intros s' [[Hlo Hhi] [Hm1 Hm2]]. subst s'. unfold handleKeyDown.
  destruct onInput; [repeat split; assumption|].
  unfold inRange, MARKET_OPEN_MIN, MARKET_CLOSE_MIN in *.
  destruct code; cbn [session currentMinute seeks].
  - destruct (playingEffect_untouched
                (set_isPlaying (session s) (negb (isPlaying (session s)))))
      as (Hs & Hb & Hp & _).
    unfold togglePlaying. rewrite Hs, Hb, Hp.
    repeat split; intros; first [assumption | discriminate].
  - unfold setPlaybackSpeed.
    destruct (eqb _ _);
      [repeat split; intros; first [assumption | discriminate]|].
    destruct (playingEffect_untouched
                (set_playbackSpeed (session s)
                   (Qmin (playbackSpeed (session s) + 5) 500)))
      as (Hs & Hb & Hp & _).
    rewrite Hs, Hb, Hp. cbn [playbackSpeed set_playbackSpeed accountBalance
                              positions].
    split; [split; [split|]|];
      [| apply Q.le_min_r | split; assumption
       | repeat split; intros; discriminate].
    apply Q.min_glb; [|discriminate].
    apply Qle_trans with (playbackSpeed (session s)); [exact Hlo|].
    rewrite <- (Qplus_0_r (playbackSpeed (session s))) at 1.
    apply Qplus_le_r. discriminate.
  - unfold setPlaybackSpeed.
    destruct (eqb _ _);
      [repeat split; intros; first [assumption | discriminate]|].
    destruct (playingEffect_untouched
                (set_playbackSpeed (session s)
                   (Qmax (playbackSpeed (session s) - 5) 1)))
      as (Hs & Hb & Hp & _).
    rewrite Hs, Hb, Hp. cbn [playbackSpeed set_playbackSpeed accountBalance
                              positions].
    split; [split; [split|]|];
      [apply Q.le_max_r | | split; assumption
       | repeat split; intros; discriminate].
    apply Q.max_lub; [|discriminate].
    apply Qle_trans with (playbackSpeed (session s)); [|exact Hhi].
    unfold Qminus. rewrite <- (Qplus_0_r (playbackSpeed (session s))) at 2.
    apply Qplus_le_r. discriminate.
  - destruct (bool_decide (selectedDay (session s) = "")) eqn:Ed;
      [repeat split; intros; first [assumption | discriminate]|].
    unfold load. rewrite Ed. cbn [session currentMinute].
    destruct (playingEffect_untouched
                (loadData (selectedDay (session s))
                   (Z.min 970 (currentMinute s + 10)) fetched (session s)))
      as (Hs & Hb & _).
    destruct (loadData_untouched (selectedDay (session s))
                (Z.min 970 (currentMinute s + 10)) fetched (session s))
      as (Hb' & _ & _ & Hs' & _).
    rewrite Hs, Hb, Hs', Hb'.
    repeat split; intros; first [assumption | lia | discriminate].
  - destruct (bool_decide (selectedDay (session s) = "")) eqn:Ed;
      [repeat split; intros; first [assumption | discriminate]|].
    unfold load. rewrite Ed. cbn [session currentMinute].
    destruct (playingEffect_untouched
                (loadData (selectedDay (session s))
                   (Z.max 570 (currentMinute s - 10)) fetched (session s)))
      as (Hs & Hb & _).
    destruct (loadData_untouched (selectedDay (session s))
                (Z.max 570 (currentMinute s - 10)) fetched (session s))
      as (Hb' & _ & _ & Hs' & _).
    rewrite Hs, Hb, Hs', Hb'.
    repeat split; intros; first [assumption | lia | discriminate].
  - repeat split; intros; first [assumption | discriminate].
Qed.

(** At speed 498 the up arrow stops at 500. *)
Lemma handleKeyDown_in_range_witness :
  let s := mkScreen (set_playbackSpeed (sampleApp 0 0 ∅ 1) 498) 570 in
  inRange (handleKeyDown false KeyArrowUp None s).
Proof.
  intros s.
  destruct (handleKeyDown_in_range false KeyArrowUp None s) as (H & _).
  - split; split; [discriminate | discriminate | discriminate | discriminate].
  - exact H.
Defined.

(** ** The route [/api/ticks] *)

Lemma selected_sorted (rows : list TickRow) (symbol : string) (q : TicksQuery) :
  StronglySorted byTime (selected rows symbol q).
Proof. apply StronglySorted_merge_sort; apply _. Qed.

Lemma selected_elem (rows : list TickRow) (symbol : string) (q : TicksQuery)
    (r : TickRow) :
  r ∈ selected rows symbol q <-> selects symbol q r /\ r ∈ rows.
Proof.
  unfold selected. rewrite merge_sort_Permutation.
  apply list_elem_of_filter.
Qed.

Lemma sorted_take {A : Type} (R : relation A) (n : nat) (l : list A) :
  StronglySorted R l -> StronglySorted R (take n l).
Proof.
  intros H. rewrite <- (take_drop n l) in H.
  exact (StronglySorted_app_1_l _ _ _ H).
Qed.

Lemma sorted_drop {A : Type} (R : relation A) (n : nat) (l : list A) :
  StronglySorted R l -> StronglySorted R (drop n l).
Proof.
  intros H. rewrite <- (take_drop n l) in H.
  exact (StronglySorted_app_1_r _ _ _ H).
Qed.

Lemma sorted_last (l : list TickRow) (r x : TickRow) :
  StronglySorted byTime l -> last l = Some r -> x ∈ l -> byTime x r.
Proof.
  intros Hs Hl Hx. apply last_Some in Hl as [l' ->].
  apply elem_of_app in Hx as [Hx|Hx].
  - apply (StronglySorted_app_1_elem_of _ _ _ _ _ Hs Hx). left.
  - apply list_elem_of_singleton in Hx. subst. unfold byTime. lia.
Qed.

(** The page of an answer, cut out of the rows selected. *)
Lemma GET_Json (db : Database) (q : TicksQuery) (page : TickPage)
    (symbol : string) :
  GET db q = Json page (Some symbol) ->
  let limit := Z.min (q_limit q) 100000 in
  let rows := take (Z.to_nat limit)
                   (selected (table db (q_instrument q)) symbol q) in
  (0 <= limit)%Z
  /\ symbol <> ""
  /\ detected db (q_instrument q) (q_day q) = Some symbol
  /\ failing db = false
  /\ q_day q <> ""
  /\ ticks page = map toTick rows
  /\ nextCursor page
     = match last rows with Some r => ts_event_ns r | None => q_cursor q end
  /\ page_done page = Z.ltb (Z.of_nat (length rows)) limit.
Proof.
  unfold GET, noSymbol. intros H.
  destruct (bool_decide (q_day q = "")) eqn:Ed; [discriminate|].
  apply bool_decide_eq_false in Ed.
  destruct (detected db (q_instrument q) (q_day q)) as [sym|]; [|discriminate].
  destruct (bool_decide (sym = "")) eqn:Es; [discriminate|].
  apply bool_decide_eq_false in Es.
  destruct (failing db); [discriminate|]. cbn [orb] in H.
  destruct (Z.ltb_spec (Z.min (q_limit q) 100000) 0); [discriminate|].
  inversion H; subst. cbn. repeat split; assumption.
Qed.

Lemma toTick_ordered (rows : list TickRow) :
  StronglySorted byTime rows -> tsOrdered (map toTick rows).
Proof.
  intros H. apply StronglySorted_Sorted.
  apply (StronglySorted_fmap toTick byTime
           (fun x y : Tick => (ts x <= ts y)%Z)); [|exact H].
  intros x y Hxy. exact Hxy.
Qed.

(** A page of the route is ordered by timestamp; its ticks are after the
    cursor asked for and within the minutes asked for; the cursor it
    gives is the timestamp of its last tick, or the cursor asked for when
    it is empty, so no tick of the page is after it; it has at most
    100000 ticks, and exactly as many as the limit unless it says that it
    is the last. *)
Theorem GET_page (db : Database) (q : TicksQuery) (page : TickPage)
    (symbol : option string) :
  GET db q = Json page symbol ->
  tsOrdered (ticks page)
  /\ Forall (fun t => (q_cursor q < ts t)%Z
                      /\ (q_startMinute q <= m t <= q_endMinute q)%Z)
            (ticks page)
  /\ nextCursor page = List.last (map ts (ticks page)) (q_cursor q)
  /\ (q_cursor q <= nextCursor page)%Z
  /\ Forall (fun t => (ts t <= nextCursor page)%Z) (ticks page)
  /\ (Z.of_nat (length (ticks page)) <= 100000)%Z
  /\ (page_done page = false ->
      Z.of_nat (length (ticks page)) = Z.min (q_limit q) 100000).
Proof.
  intros H. destruct symbol as [symbol|].
  - apply GET_Json in H. cbn zeta in H.
    destruct H as (Hlim & _ & _ & _ & _ & Ht & Hc & Hd).
    set (limit := Z.min (q_limit q) 100000) in *.
    set (all := selected (table db (q_instrument q)) symbol q) in *.
    assert (Hs : StronglySorted byTime (take (Z.to_nat limit) all))
      by (apply sorted_take, selected_sorted).
    assert (Hsel : forall r, r ∈ take (Z.to_nat limit) all ->
                             selects symbol q r).
    { intros r Hr. apply subseteq_take in Hr.
      apply selected_elem in Hr. tauto. }
    assert (Hlen : (Z.of_nat (length (take (Z.to_nat limit) all)) <= limit)%Z).
    { rewrite length_take. lia. }
    assert (Hlast : forall x, x ∈ take (Z.to_nat limit) all ->
                              (ts_event_ns x <= nextCursor page)%Z).
    { intros x Hx. rewrite Hc.
      destruct (last (take (Z.to_nat limit) all)) as [r|] eqn:El.
      - exact (sorted_last _ r x Hs El Hx).
      - apply last_None in El. rewrite El in Hx. inversion Hx. }
    rewrite Ht, Hc, Hd.
    split; [apply toTick_ordered, Hs|].
    split.
    { apply Forall_fmap, Forall_forall. intros r Hr.
      destruct (Hsel r Hr) as (_ & _ & H1 & H2 & H3). cbn. lia. }
    split.
    { rewrite <- list_fmap_compose.
      change (ts ∘ toTick) with ts_event_ns.
      destruct (last (take (Z.to_nat limit) all)) as [r|] eqn:El.
      - apply last_Some in El as [l' ->].
        rewrite fmap_app. cbn. rewrite List.last_last. reflexivity.
      - apply last_None in El. rewrite El. reflexivity. }
    split.
    { destruct (last (take (Z.to_nat limit) all)) as [r|] eqn:El; [|lia].
      apply last_Some_elem_of in El.
      destruct (Hsel r El) as (_ & _ & _ & _ & H3). lia. }
    split.
    { rewrite <- Hc. apply Forall_fmap, Forall_forall. intros r Hr.
      cbn. apply Hlast, Hr. }
    rewrite length_map. split; [subst limit; lia|].
    intros Hnd. apply Z.ltb_ge in Hnd. lia.
  - unfold GET, noSymbol in H.
    destruct (bool_decide (q_day q = "")); [discriminate|].
    destruct (detected db (q_instrument q) (q_day q)) as [sym|].
    + destruct (bool_decide (sym = "")).
      * inversion H; subst. cbn.
        repeat split; try constructor; try lia; discriminate.
      * destruct (failing db || _); discriminate.
    + inversion H; subst. cbn.
      repeat split; try constructor; try lia; discriminate.
Qed.

Lemma GET_page_witness :
  GET sampleDb (sampleQuery 0 3)
  = Json (mkTickPage [mkTick 1000 (4500 # 1) 2 570;
                      mkTick 2000 (4501 # 1) 3 570;
                      mkTick 3000 (4502 # 1) 1 571] 3000 false)
         (Some "ESH4")
  /\ tsOrdered [mkTick 1000 (4500 # 1) 2 570;
                mkTick 2000 (4501 # 1) 3 570;
                mkTick 3000 (4502 # 1) 1 571].
Proof.
  split; [reflexivity|].
  apply (GET_page sampleDb (sampleQuery 0 3) _ (Some "ESH4") eq_refl).
Defined.

Lemma filter_nothing {A : Type} (P : A -> Prop) `{!forall x, Decision (P x)}
    (l : list A) :
  (forall x, x ∈ l -> ~ P x) -> base.filter P l = [].
Proof.
  intros Hno. induction l as [|x l IH]; [reflexivity|].
  rewrite filter_cons_False by (apply Hno; left).
  apply IH. intros y Hy. apply Hno. right. exact Hy.
Qed.

(** A page that says it is the last is the last: every row of the table
    that the query selects is on it, and asking again from its cursor
    gives an empty page with the same cursor, again the last. *)
Theorem GET_done (db : Database) (q : TicksQuery) (page : TickPage)
    (symbol : string) :
  GET db q = Json page (Some symbol) ->
  page_done page = true ->
  (forall r, r ∈ table db (q_instrument q) -> selects symbol q r ->
             toTick r ∈ ticks page)
  /\ GET db (from q (nextCursor page))
     = Json (mkTickPage [] (nextCursor page) true) (Some symbol).
Proof.
  intros H Hd. pose proof (GET_page db q page (Some symbol) H) as Hp.
  destruct Hp as (_ & _ & _ & Hcle & Hle & _).
  apply GET_Json in H. cbn zeta in H.
  destruct H as (Hlim & Hsym & Hdet & Hfail & Hday & Ht & Hc & Hd').
  set (limit := Z.min (q_limit q) 100000) in *.
  set (all := selected (table db (q_instrument q)) symbol q) in *.
  rewrite Hd in Hd'. symmetry in Hd'. apply Z.ltb_lt in Hd'.
  assert (Hall : take (Z.to_nat limit) all = all).
  { apply take_ge. rewrite length_take in Hd'. lia. }
  rewrite Hall in Ht.
  assert (Hon : forall r, r ∈ table db (q_instrument q) -> selects symbol q r ->
                          toTick r ∈ ticks page).
  { intros r Hr Hs. rewrite Ht. apply list_elem_of_fmap_2.
    apply selected_elem. split; assumption. }
  split; [exact Hon|].
  unfold GET. cbn [from q_day q_instrument q_limit q_cursor].
  rewrite bool_decide_eq_false_2 by exact Hday.
  rewrite Hdet. rewrite bool_decide_eq_false_2 by exact Hsym.
  rewrite Hfail. cbn [orb]. fold limit.
  destruct (Z.ltb_spec limit 0); [lia|].
  unfold selected. rewrite filter_nothing.
  - cbn. rewrite take_nil. cbn. f_equal. f_equal.
    apply Z.ltb_lt. lia.
  - intros r Hr (H1 & H2 & H3 & H4 & H5). cbn in *.
    assert (Hs : selects symbol q r).
    { repeat split; try assumption. lia. }
    specialize (Hon r Hr Hs).
    rewrite List.Forall_forall in Hle.
    apply list_elem_of_In in Hon. specialize (Hle _ Hon). cbn in Hle. lia.
Qed.

Lemma GET_done_witness :
  GET sampleDb (from (sampleQuery 3000 3) 4000)
  = Json (mkTickPage [] 4000 true) (Some "ESH4").
Proof.
  apply (GET_done sampleDb (sampleQuery 3000 3)
           (mkTickPage [mkTick 4000 (4503 # 1) 1 572] 4000 true) "ESH4");
    reflexivity.
Defined.

Lemma filter_everything {A : Type} (P : A -> Prop)
    `{!forall x, Decision (P x)} (l : list A) :
  (forall x, x ∈ l -> P x) -> base.filter P l = l.
Proof.
  intros Hall. induction l as [|x l IH]; [reflexivity|].
  rewrite filter_cons_True by (apply Hall; left).
  f_equal. apply IH. intros y Hy. apply Hall. right. exact Hy.
Qed.

Lemma distinct_inj {A B : Type} (f : A -> B) (l : list A) (x y : A) :
  NoDup (map f l) -> x ∈ l -> y ∈ l -> f x = f y -> x = y.
Proof.
  induction l as [|z l IH]; intros Hnd Hx Hy Hf; [inversion Hx|].
  cbn in Hnd. apply NoDup_cons in Hnd as [Hz Hnd].
  apply elem_of_cons in Hx as [->|Hx]; apply elem_of_cons in Hy as [->|Hy].
  - reflexivity.
  - exfalso. apply Hz. rewrite Hf. apply list_elem_of_fmap_2, Hy.
  - exfalso. apply Hz. rewrite <- Hf. apply list_elem_of_fmap_2, Hx.
  - apply IH; assumption.
Qed.

(** With distinct timestamps, the rows after the last row of a page are
    the rows the query selects from that row's timestamp. *)
Lemma selected_from (rows : list TickRow) (symbol : string) (q : TicksQuery)
    (n : nat) :
  let all := selected rows symbol q in
  let c := match last (take n all) with
           | Some r => ts_event_ns r
           | None => q_cursor q
           end in
  NoDup (map ts_event_ns all) ->
  selected rows symbol (from q c) = drop n all.
Proof.
  intros all c Hnd. subst c.
  destruct (last (take n all)) as [r|] eqn:El.
  - pose proof (selected_sorted rows symbol q) as Hs. fold all in Hs.
    assert (Hr : r ∈ take n all) by (apply last_Some_elem_of, El).
    assert (Hrq : selects symbol q r).
    { apply subseteq_take in Hr. apply selected_elem in Hr. tauto. }
    assert (Hbefore : forall x, x ∈ take n all ->
                                (ts_event_ns x <= ts_event_ns r)%Z).
    { intros x Hx. exact (sorted_last _ r x (sorted_take _ n _ Hs) El Hx). }
    assert (Hafter : forall x, x ∈ drop n all ->
                               (ts_event_ns r < ts_event_ns x)%Z).
    { intros x Hx. rewrite <- (take_drop n all) in Hs, Hnd.
      pose proof (StronglySorted_app_1_elem_of _ _ _ _ _ Hs Hr Hx) as Hle.
      unfold byTime in Hle.
      rewrite map_app in Hnd. apply NoDup_app in Hnd as (_ & Hdis & _).
      assert (Hne : ts_event_ns r <> ts_event_ns x).
      { intros Heq. apply (Hdis (ts_event_ns r)).
        - apply list_elem_of_fmap_2, Hr.
        - rewrite Heq. apply list_elem_of_fmap_2, Hx. }
      lia. }
    assert (Hiff : forall x,
               selects symbol (from q (ts_event_ns r)) x
               <-> (ts_event_ns r < ts_event_ns x)%Z /\ selects symbol q x).
    { intros x. unfold selects. cbn [from q_day q_startMinute q_endMinute
                                      q_cursor].
      destruct Hrq as (_ & _ & _ & _ & Hc). split.
      - intros (H1 & H2 & H3 & H4 & H5). repeat split; try assumption. lia.
      - intros (H0 & H1 & H2 & H3 & H4 & H5). repeat split; assumption. }
    apply StronglySorted_unique_strong with (R := byTime).
    + intros x1 x2 H1 H2 H12 H21.
      apply (distinct_inj ts_event_ns all); [exact Hnd | | |].
      * apply selected_elem. apply selected_elem in H1 as [H1 H1'].
        apply Hiff in H1. tauto.
      * apply subseteq_drop in H2. exact H2.
      * unfold byTime in *. lia.
    + apply selected_sorted.
    + apply sorted_drop, Hs.
    + unfold selected at 1. rewrite merge_sort_Permutation.
      rewrite (list_filter_iff _ _ _ Hiff).
      rewrite <- (list_filter_filter
                    (fun x => (ts_event_ns r < ts_event_ns x)%Z)
                    (selects symbol q) rows).
      rewrite <- (merge_sort_Permutation byTime
                    (base.filter (selects symbol q) rows)).
      fold (selected rows symbol q). fold all.
      rewrite <- (take_drop n all) at 1. rewrite filter_app.
      rewrite filter_nothing
        by (intros x Hx; specialize (Hbefore x Hx); lia).
      rewrite filter_everything by exact Hafter. reflexivity.
  - apply last_None in El.
    assert (Hsame : selected rows symbol (from q (q_cursor q))
                    = selected rows symbol q) by reflexivity.
    rewrite Hsame. fold all.
    apply take_nil_inv in El as [->| ->]; [reflexivity|].
    rewrite drop_nil. reflexivity.
Qed.

(** With distinct timestamps among the rows a query selects, the page
    asked for from the cursor of a page continues it: the two pages are
    the first and the second [limit] ticks of the ordered rows, none left
    out and none twice. *)
Theorem GET_next_page (db : Database) (q : TicksQuery) (page : TickPage)
    (symbol : string) :
  let rows := base.filter (selects symbol q) (table db (q_instrument q)) in
  let all := map toTick (selected (table db (q_instrument q)) symbol q) in
  let n := Z.to_nat (Z.min (q_limit q) 100000) in
  GET db q = Json page (Some symbol) ->
  NoDup (map ts_event_ns rows) ->
  ticks page = take n all
  /\ exists next,
       GET db (from q (nextCursor page)) = Json next (Some symbol)
       /\ ticks next = take n (drop n all)
       /\ ticks page ++ ticks next = take (n + n) all.
Proof.
  intros rows all n H Hnd.
  apply GET_Json in H. cbn zeta in H.
  destruct H as (Hlim & Hsym & Hdet & Hfail & Hday & Ht & Hc & Hd).
  fold n in Ht, Hc, Hd.
  assert (Hnd' : NoDup (map ts_event_ns
                          (selected (table db (q_instrument q)) symbol q))).
  { unfold selected. rewrite merge_sort_Permutation. exact Hnd. }
  pose proof (selected_from (table db (q_instrument q)) symbol q n Hnd')
    as Hfrom. cbn zeta in Hfrom. rewrite <- Hc in Hfrom.
  assert (Hp : ticks page = take n all).
  { rewrite Ht. subst all. apply fmap_take. }
  split; [exact Hp|].
  eexists. split; [|split].
  - unfold GET. cbn [from q_day q_instrument q_limit q_cursor].
    rewrite bool_decide_eq_false_2 by exact Hday.
    rewrite Hdet. rewrite bool_decide_eq_false_2 by exact Hsym.
    rewrite Hfail. cbn [orb].
    destruct (Z.ltb_spec (Z.min (q_limit q) 100000) 0); [lia|].
    reflexivity.
  - cbn [ticks]. fold n. rewrite Hfrom. subst all.
    rewrite <- fmap_drop. apply fmap_take.
  - cbn [ticks]. fold n. rewrite Hfrom, Hp. subst all.
    rewrite <- take_take_drop. f_equal.
    rewrite <- fmap_drop. apply fmap_take.
Qed.

Lemma GET_next_page_witness :
  exists next,
    GET sampleDb (from (sampleQuery 0 2) 2000) = Json next (Some "ESH4")
    /\ ticks next = [mkTick 3000 (4502 # 1) 1 571; mkTick 4000 (4503 # 1) 1 572].
Proof.
  destruct (GET_next_page sampleDb (sampleQuery 0 2)
              (mkTickPage [mkTick 1000 (4500 # 1) 2 570;
                           mkTick 2000 (4501 # 1) 3 570] 2000 false) "ESH4")
    as (_ & next & Hget & Hticks & _).
  - reflexivity.
  - vm_compute. repeat constructor; rewrite ?elem_of_cons, ?elem_of_nil;
      intros H; repeat destruct H as [H|H]; try discriminate; exact H.
  - exists next. split; [exact Hget | exact Hticks].
Defined.

(** ** The client on the route's pages *)








Lemma loadData_buffers (dayToLoad : string) (targetMin : Z)
    (esData nqData : TickPage) (a : App) (key : Instrument) :
  let a' := loadData dayToLoad targetMin (Some (esData, nqData)) a in
  dayToLoad <> "" ->
  buffer (stream (engine a') key) = ticks (pageOf key esData nqData)
  /\ cursor (stream (engine a') key) = nextCursor (pageOf key esData nqData).
Proof.
  intros a' Hday.
  destruct (Z.eq_dec (startOf (firstTs esData) (firstTs nqData)) 0%Z) as [Hz|Hnz].
  - subst a'. unfold loadData.
    rewrite bool_decide_eq_false_2 by exact Hday. rewrite Hz.
    destruct key; split; reflexivity.
  - pose proof (loadData_engine dayToLoad targetMin esData nqData a Hday Hnz)
      as He. fold a' in He. rewrite He.
    destruct key; split; reflexivity.
Qed.



Lemma firstPages_Some (db : Database) (day : string)
    (esData nqData : TickPage) :
  firstPages db day = Some (esData, nqData) ->
  day <> ""
  /\ (forall key, exists symbol,
        GET db (queryOf (mkFetchRequest key day 0 MARKET_OPEN_MIN))
        = Json (pageOf key esData nqData) symbol).
Proof.
  unfold firstPages. intros H.
  destruct (GET db (queryOf (mkFetchRequest es day 0 MARKET_OPEN_MIN)))
    as [| |pe se] eqn:Ee; try discriminate.
  destruct (GET db (queryOf (mkFetchRequest nq day 0 MARKET_OPEN_MIN)))
    as [| |pn sn] eqn:En; try discriminate.
  inversion H; subst. split.
  - intros ->. unfold GET in Ee. cbn in Ee. discriminate.
  - intros [|]; eexists; cbn [pageOf]; eassumption.
Qed.

Lemma startOf_zero (esData nqData : TickPage) :
  (forall k t, head (ticks (pageOf k esData nqData)) = Some t -> ts t <> 0%Z) ->
  startOf (firstTs esData) (firstTs nqData) = 0%Z
  <-> ticks esData = [] /\ ticks nqData = [].
Proof.
  intros Hnz. pose proof (Hnz es) as He. pose proof (Hnz nq) as Hn.
  cbn [pageOf] in He, Hn. unfold startOf, firstTs.
  destruct (ticks esData) as [|e le]; destruct (ticks nqData) as [|n ln]; cbn.
  - tauto.
  - specialize (Hn n eq_refl). rewrite (proj2 (Z.eqb_neq _ _) Hn). cbn.
    split; [tauto|]. intros [_ H]. discriminate.
  - specialize (He e eq_refl). rewrite (proj2 (Z.eqb_neq _ _) He). cbn.
    split; [tauto|]. intros [H _]. discriminate.
  - specialize (He e eq_refl). specialize (Hn n eq_refl).
    rewrite (proj2 (Z.eqb_neq _ _) He), (proj2 (Z.eqb_neq _ _) Hn). cbn.
    split; [|intros [H _]; discriminate].
    destruct (Z.ltb (ts e) (ts n)); tauto.
Qed.

(** A day loaded from the route: every tick in the buffers has a positive
    timestamp and a minute from 9:30 to 16:10.  The load reports that
    there is no trading data, and leaves the replay paused, exactly when
    both pages are empty; otherwise it reports nothing and the replay
    plays. *)
Theorem loadData_served (db : Database) (day : string) (targetMin : Z)
    (esData nqData : TickPage) (a : App) :
  let a' := loadData day targetMin (firstPages db day) a in
  firstPages db day = Some (esData, nqData) ->
  (forall key,
      Forall (fun t => (0 < ts t)%Z
                       /\ (MARKET_OPEN_MIN <= m t <= MARKET_CLOSE_MIN)%Z)
             (buffer (stream (engine a') key)))
  /\ (ticks esData = [] /\ ticks nqData = [] ->
      alerts a' = alerts a ++ [NoTradingData] /\ isPlaying a' = false)
  /\ (~ (ticks esData = [] /\ ticks nqData = []) ->
      alerts a' = alerts a /\ isPlaying a' = true).
Proof.
  intros a' Hfirst. subst a'. rewrite Hfirst.
  destruct (firstPages_Some db day esData nqData Hfirst) as [Hday Hget].
  assert (Hwin : forall key,
             Forall (fun t => (0 < ts t)%Z
                              /\ (MARKET_OPEN_MIN <= m t <= MARKET_CLOSE_MIN)%Z)
                    (ticks (pageOf key esData nqData))).
  { intros key. destruct (Hget key) as [symbol Hg].
    destruct (GET_page db _ _ symbol Hg) as (_ & Hw & _). exact Hw. }
  assert (Hnz : forall k t, head (ticks (pageOf k esData nqData)) = Some t ->
                            ts t <> 0%Z).
  { intros k t Hh. specialize (Hwin k).
    destruct (ticks (pageOf k esData nqData)) as [|x l]; [discriminate|].
    cbn in Hh. inversion Hh; subst. inversion Hwin as [|? ? [Hp _] _]; subst.
    lia. }
  pose proof (startOf_zero esData nqData Hnz) as Hzero.
  split; [|split].
  - intros key.
    destruct (loadData_buffers day targetMin esData nqData a key Hday)
      as [-> _].
    apply Hwin.
  - intros Hempty. apply Hzero in Hempty.
    unfold loadData. rewrite bool_decide_eq_false_2 by exact Hday.
    rewrite Hempty. split; reflexivity.
  - intros Hsome.
    assert (Hstart : startOf (firstTs esData) (firstTs nqData) <> 0%Z)
      by (intros Hz; apply Hsome, Hzero, Hz).
    destruct (loadData_kept day targetMin esData nqData a Hday Hstart)
      as [Hplay Hal].
    split; assumption.
Qed.

(** The sample day has ticks for both instruments: the load plays. *)
Lemma loadData_served_witness :
  isPlaying (loadData "2024-01-02" 600 (firstPages sampleDb "2024-01-02")
                      (sampleApp 0 0 ∅ 1)) = true.
Proof.
  destruct (loadData_served sampleDb "2024-01-02" 600
              (mkTickPage [mkTick 1000 (4500 # 1) 2 570;
                           mkTick 2000 (4501 # 1) 3 570;
                           mkTick 3000 (4502 # 1) 1 571;
                           mkTick 4000 (4503 # 1) 1 572] 4000 true)
              (mkTickPage [mkTick 1000 (4500 # 1) 2 570;
                           mkTick 2000 (4501 # 1) 3 570;
                           mkTick 3000 (4502 # 1) 1 571;
                           mkTick 4000 (4503 # 1) 1 572] 4000 true)
              (sampleApp 0 0 ∅ 1)) as (_ & _ & Hplay).
  - reflexivity.
  - apply Hplay. intros [H _]. discriminate.
Defined.
